(** * The AEC3 subtractor (modules/audio_processing/aec3/subtractor.cc)

    A shallow embedding of [Subtractor] and of its nested
    [FilterMisadjustmentEstimator], with the properties of the echo
    subtraction core stated and proved over it.

    The source holds a second translation unit,
    modules/video_coding/encoded_frame.cc: [VCMEncodedFrame] is embedded
    in the module [EncodedFrame], and its properties are in Part V.

    C++ [float] is IEEE-754 binary32.  It is modelled by the Standard
    Library's [spec_float] at precision 24 and maximal exponent 128: the
    operations round to nearest even, there are two zeros, two infinities
    and one NaN (payloads are not tracked). *)

From Stdlib Require Import ZArith List Bool Lia.
From Stdlib Require Import Floats.SpecFloat.
Import ListNotations.

Local Open Scope Z_scope.

(* ===================================================================== *)
(** * Part I: definitions                                                 *)
(* ===================================================================== *)

(** ** binary32 arithmetic *)

Module F32.

Definition prec : Z := 24.
Definition emax : Z := 128.

Definition float : Type := spec_float.

Definition add : float -> float -> float := SFadd prec emax.
Definition sub : float -> float -> float := SFsub prec emax.
Definition mul : float -> float -> float := SFmul prec emax.
Definition div : float -> float -> float := SFdiv prec emax.
Definition sqrt : float -> float := SFsqrt prec emax.

(** [static_cast<float>(z)] for an integer [z]. *)
Definition of_Z (z : Z) : float := binary_normalize prec emax z 0 false.
Definition of_nat (n : nat) : float := of_Z (Z.of_nat n).

Definition zero : float := S754_zero false.
Definition nan : float := S754_nan.

(** The comparison operators of C++ on [float]: each is false as soon as
    one operand is NaN. *)
Definition ltb (a b : float) : bool :=
  match SFcompare a b with Some Lt => true | _ => false end.
Definition gtb (a b : float) : bool :=
  match SFcompare a b with Some Gt => true | _ => false end.
Definition leb (a b : float) : bool :=
  match SFcompare a b with Some (Lt | Eq) => true | _ => false end.
Definition geb (a b : float) : bool :=
  match SFcompare a b with Some (Gt | Eq) => true | _ => false end.

Definition is_nan (a : float) : bool :=
  match a with S754_nan => true | _ => false end.
Definition is_zero (a : float) : bool :=
  match a with S754_zero _ => true | _ => false end.
(** A finite number that is not negative: [+0] or [+m * 2^e]. *)
Definition is_finite_nonneg (a : float) : bool :=
  match a with
  | S754_zero false | S754_finite false _ _ => true
  | _ => false
  end.

(** The literal [0.1f]: the binary32 number nearest to one tenth,
    [0x3DCCCCCD]. *)
Definition lit_0_1 : float := S754_finite false 13421773 (-27).

End F32.

Abbreviation float := F32.float.

Arguments F32.add : simpl never.
Arguments F32.sub : simpl never.
Arguments F32.mul : simpl never.
Arguments F32.div : simpl never.
Arguments F32.sqrt : simpl never.
Arguments F32.of_Z : simpl never.
Arguments F32.of_nat : simpl never.
Arguments F32.ltb : simpl never.
Arguments F32.gtb : simpl never.
Arguments F32.leb : simpl never.
Arguments F32.geb : simpl never.

Declare Scope f32_scope.
Delimit Scope f32_scope with f32.
Infix "+" := F32.add : f32_scope.
Infix "-" := F32.sub : f32_scope.
Infix "*" := F32.mul : f32_scope.
Infix "/" := F32.div : f32_scope.
Infix "<?" := F32.ltb : f32_scope.
Infix ">?" := F32.gtb : f32_scope.
Infix "<=?" := F32.leb : f32_scope.
Infix ">=?" := F32.geb : f32_scope.

(** Equal as numbers: the same value, or two zeros of either sign. *)
Definition F32_same (a b : float) : Prop :=
  a = b \/ (F32.is_zero a = true /\ F32.is_zero b = true).

(** ** Machine integers *)

(** [int] is 32 bits wide; [wrap32] brings a mathematical result back into
    its range. *)
Definition INT_MIN : Z := - 2 ^ 31.
Definition INT_MAX : Z := 2 ^ 31 - 1.
Definition wrap32 (z : Z) : Z := (z + 2 ^ 31) mod 2 ^ 32 - 2 ^ 31.

(** ** Data model *)

(** The block length and the FFT lengths of aec3_common.h.  The header is
    not among the sources modelled here, so the half FFT length is a
    parameter; the other lengths are tied to it the way their names say,
    and a block is as long as half an FFT. *)
Class Aec3Common := { kFftLengthBy2 : nat }.

Section Lengths.
Context {K : Aec3Common}.
Definition kFftLength : nat := (2 * kFftLengthBy2)%nat.
Definition kFftLengthBy2Plus1 : nat := (kFftLengthBy2 + 1)%nat.
Definition kBlockSize : nat := kFftLengthBy2.
End Lengths.

(** [FftData]: the real and the imaginary parts of one spectrum, each an
    array of [kFftLengthBy2Plus1] bins. *)
Record FftData := { re : list float; im : list float }.

(** [SubtractorOutput], with the members that subtractor.cc reads or
    writes. *)
Record SubtractorOutput := {
  s_main : list float;
  s_shadow : list float;
  e_main : list float;
  e_shadow : list float;
  E_main : FftData;
  E2_main : list float;
  E2_shadow : list float;
  e2_main : float;
  e2_shadow : float;
  y2 : float
}.

(** [EchoPathVariability].  subtractor.cc names one enumerator of
    [DelayAdjustment], [kNone]; every other one is a [kAdjusted]. *)
Inductive DelayAdjustment := kNone | kAdjusted (kind : nat).

Record EchoPathVariability := {
  gain_change : bool;
  delay_change : DelayAdjustment
}.

Definition DelayAdjustment_eqb (a b : DelayAdjustment) : bool :=
  match a, b with
  | kNone, kNone => true
  | kAdjusted i, kAdjusted j => Nat.eqb i j
  | _, _ => false
  end.

(** ** Helpers for the array loops *)

(** [std::transform(a.begin(), a.end(), b.begin(), out.begin(), f)]: the
    first [length a] entries of [out] are overwritten, the rest is kept. *)
Definition zip_with {A B C} (f : A -> B -> C) (a : list A) (b : list B) : list C :=
  map (fun p => f (fst p) (snd p)) (combine a b).

Definition transform2 {A B C} (f : A -> B -> C) (a : list A) (b : list B)
    (out : list C) : list C :=
  zip_with f a b ++ skipn (length a) out.

(** [array.fill(v)] on an array of [n] entries. *)
Definition fill {A} (n : nat) (v : A) : list A := repeat v n.

(** ** FilterMisadjustmentEstimator *)

Record FilterMisadjustmentEstimator := {
  n_blocks_acum_ : Z;
  e2_acum_ : float;
  y2_acum_ : float;
  inv_misadjustment_ : float;
  overhang_ : Z
}.

(** Modelled from the spec: the member [n_blocks_] is initialised in
    subtractor.h, which is not among the sources modelled here; the window
    is 4 blocks long. *)
Definition n_blocks_ : Z := 4.

Section Estimator.
Context {K : Aec3Common}.
Local Open Scope f32_scope.

(** [n_blocks_ * 200.f * 200.f * kBlockSize] *)
Definition y2_floor : float :=
  F32.of_Z n_blocks_ * F32.of_Z 200 * F32.of_Z 200 * F32.of_nat kBlockSize.

(** [n_blocks_ * 7500.f * 7500.f * kBlockSize] *)
Definition e2_divergence : float :=
  F32.of_Z n_blocks_ * F32.of_Z 7500 * F32.of_Z 7500 * F32.of_nat kBlockSize.

Definition Update (est : FilterMisadjustmentEstimator)
    (output : SubtractorOutput) : FilterMisadjustmentEstimator :=
  let e2 := e2_acum_ est + e2_main output in
  let y2a := y2_acum_ est + y2 output in
  let n := wrap32 (n_blocks_acum_ est + 1) in
  if (n =? n_blocks_)%Z then
    let '(inv, overhang) :=
      if y2a >? y2_floor then
        let update := e2 / y2a in
        let overhang :=
          if e2 >? e2_divergence then 4%Z
          else Z.max (wrap32 (overhang_ est - 1)) 0 in
        if (update <? inv_misadjustment_ est) || (overhang >? 0)%Z
        then (inv_misadjustment_ est
              + F32.lit_0_1 * (update - inv_misadjustment_ est), overhang)
        else (inv_misadjustment_ est, overhang)
      else (inv_misadjustment_ est, overhang_ est) in
    {| n_blocks_acum_ := 0; e2_acum_ := F32.zero; y2_acum_ := F32.zero;
       inv_misadjustment_ := inv; overhang_ := overhang |}
  else
    {| n_blocks_acum_ := n; e2_acum_ := e2; y2_acum_ := y2a;
       inv_misadjustment_ := inv_misadjustment_ est;
       overhang_ := overhang_ est |}.

Definition Reset (est : FilterMisadjustmentEstimator)
    : FilterMisadjustmentEstimator :=
  {| n_blocks_acum_ := 0; e2_acum_ := F32.zero; y2_acum_ := F32.zero;
     inv_misadjustment_ := F32.zero; overhang_ := 0 |}.

(** What the accumulators hold once the blocks [outputs] have been added
    to them, in the order of the calls. *)
Definition accumulated_e2 (est : FilterMisadjustmentEstimator)
    (outputs : list SubtractorOutput) : float :=
  fold_left (fun a o => a + e2_main o) outputs (e2_acum_ est).

Definition accumulated_y2 (est : FilterMisadjustmentEstimator)
    (outputs : list SubtractorOutput) : float :=
  fold_left (fun a o => a + y2 o) outputs (y2_acum_ est).

(** Feeding the outputs of several consecutive blocks. *)
Definition UpdateAll (est : FilterMisadjustmentEstimator)
    (outputs : list SubtractorOutput) : FilterMisadjustmentEstimator :=
  fold_left Update outputs est.

End Estimator.

(** ** The collaborators of the subtractor

    The render buffer, the render-signal analyzer, the echo state, the FFT,
    the adaptive FIR filter and the two update-gain computers are defined
    in files that are not among the sources modelled here.  The subtractor
    only calls them; they are parameters of the model, one field per member
    function that subtractor.cc calls.  A member function that writes through an
    output pointer returns what it wrote, and a member function that
    changes its object returns the changed object. *)
Class Collaborators := {
  (* RenderBuffer, RenderSignalAnalyzer, AecState *)
  RenderBuffer : Type;
  RenderSignalAnalyzer : Type;
  AecState : Type;
  SpectralSum : RenderBuffer -> nat -> list float;
  (* SpectralSums(shorter, longer, &X2_shorter, &X2_longer) *)
  SpectralSums : RenderBuffer -> nat -> nat -> list float * list float;
  SaturatedCapture : AecState -> bool;
  (* Aec3Fft and FftData::Spectrum *)
  Ifft : FftData -> list float;
  ZeroPaddedFft : list float -> FftData;
  Spectrum : FftData -> list float;
  (* AdaptiveFirFilter *)
  AdaptiveFirFilter : Type;
  FilterCoefficients : Type;
  Filter : AdaptiveFirFilter -> RenderBuffer -> FftData;
  Adapt : AdaptiveFirFilter -> RenderBuffer -> FftData -> AdaptiveFirFilter;
  (* Adapt(render_buffer, G, &impulse_response) *)
  AdaptImpulseResponse :
    AdaptiveFirFilter -> RenderBuffer -> FftData -> list float ->
    AdaptiveFirFilter * list float;
  ScaleFilter : AdaptiveFirFilter -> float -> AdaptiveFirFilter;
  SizePartitions : AdaptiveFirFilter -> nat;
  SetSizePartitions : AdaptiveFirFilter -> nat -> bool -> AdaptiveFirFilter;
  Filter_HandleEchoPathChange : AdaptiveFirFilter -> AdaptiveFirFilter;
  GetFilter : AdaptiveFirFilter -> FilterCoefficients;
  SetFilter : AdaptiveFirFilter -> FilterCoefficients -> AdaptiveFirFilter;
  ComputeFrequencyResponse :
    AdaptiveFirFilter -> list (list float) -> list (list float);
  ComputeErl : list (list float) -> list float;
  (* EchoCanceller3Config::Filter *)
  MainConfiguration : Type;
  ShadowConfiguration : Type;
  main_length_blocks : MainConfiguration -> nat;
  shadow_length_blocks : ShadowConfiguration -> nat;
  (* MainFilterUpdateGain *)
  MainFilterUpdateGain : Type;
  MainGain_HandleEchoPathChange :
    MainFilterUpdateGain -> EchoPathVariability -> MainFilterUpdateGain;
  MainGain_SetConfig :
    MainFilterUpdateGain -> MainConfiguration -> bool -> MainFilterUpdateGain;
  MainGain_Compute :
    MainFilterUpdateGain -> list float -> RenderSignalAnalyzer ->
    SubtractorOutput -> list float -> nat -> bool ->
    MainFilterUpdateGain * FftData;
  (* ShadowFilterUpdateGain *)
  ShadowFilterUpdateGain : Type;
  ShadowGain_HandleEchoPathChange :
    ShadowFilterUpdateGain -> ShadowFilterUpdateGain;
  ShadowGain_SetConfig :
    ShadowFilterUpdateGain -> ShadowConfiguration -> bool ->
    ShadowFilterUpdateGain;
  ShadowGain_Compute :
    ShadowFilterUpdateGain -> list float -> RenderSignalAnalyzer ->
    FftData -> nat -> bool -> ShadowFilterUpdateGain * FftData;
  (* FilterMisadjustmentEstimator::IsAdjustmentNeeded and GetMisadjustment
     are defined in subtractor.h; both read the smoothed estimate. *)
  adjustment_needed : float -> bool;
  misadjustment : float -> float
}.

Definition IsAdjustmentNeeded {C : Collaborators}
    (est : FilterMisadjustmentEstimator) : bool :=
  adjustment_needed (inv_misadjustment_ est).

Definition GetMisadjustment {C : Collaborators}
    (est : FilterMisadjustmentEstimator) : float :=
  misadjustment (inv_misadjustment_ est).

(** Modelled from the spec: [rtc::SafeClamp] is defined in
    rtc_base/numerics/safe_minmax.h, which is not among the sources
    modelled here.  It clamps its first argument to the range given by the
    other two, by comparing it with the bounds: at most the lower bound
    gives the lower bound, at least the upper bound gives the upper bound,
    anything else is returned as it is. *)
Definition SafeClamp (x lo hi : float) : float :=
  if (x <=? lo)%f32 then lo else if (x >=? hi)%f32 then hi else x.

(** Modelled from the spec: [SubtractorOutput::ComputeMetrics] is defined
    in subtractor_output.cc, which is not among the sources modelled here.  The
    energies are the summed squares of the residuals and of the capture
    block. *)
Definition sum_of_squares (l : list float) : float :=
  fold_left (fun a b => (a + b * b)%f32) l F32.zero.

Definition ComputeMetrics (output : SubtractorOutput) (y : list float)
    : SubtractorOutput :=
  {| s_main := s_main output; s_shadow := s_shadow output;
     e_main := e_main output; e_shadow := e_shadow output;
     E_main := E_main output;
     E2_main := E2_main output; E2_shadow := E2_shadow output;
     e2_main := sum_of_squares (e_main output);
     e2_shadow := sum_of_squares (e_shadow output);
     y2 := sum_of_squares y |}.

(** ** The functions of the anonymous namespace *)

Section Helpers.
Context {K : Aec3Common} {C : Collaborators}.
Local Open Scope f32_scope.

(** [constexpr float kScale = 1.0f / kFftLengthBy2] *)
Definition kScale : float := F32.of_Z 1 / F32.of_nat kFftLengthBy2.

(** [e] is the array behind the pointer, [s] is [None] for a null
    pointer.  The loop over [s] runs over the whole array. *)
Definition PredictionError (S : FftData) (y : list float)
    (e : list float) (s : option (list float))
    : list float * option (list float) :=
  let tmp := Ifft S in
  let e' :=
    transform2 (fun a b => a - b * kScale) y (skipn kFftLengthBy2 tmp) e in
  let s' :=
    match s with
    | Some s0 =>
        Some (map (fun k => kScale * nth (k + kFftLengthBy2) tmp F32.zero)
                  (seq 0 (length s0)))
    | None => None
    end in
  (e', s').

(** The two statements of the loop body, for [k < y.size()]: first
    [s[k] *= factor], then [e[k] = y[k] - s[k]]. *)
Definition ScaleFilterOutput (y : list float) (factor : float)
    (e s : list float) : list float * list float :=
  let n := length y in
  let s' := map (fun x => x * factor) (firstn n s) ++ skipn n s in
  let e' := transform2 (fun a b => a - b) y s' e in
  (e', s').

End Helpers.

(** ** Subtractor *)

Section SubtractorModel.
Context {K : Aec3Common} {C : Collaborators}.
Local Open Scope f32_scope.

(** [config_.filter]: the four filter configurations that the subtractor
    reads. *)
Record FilterConfig := {
  main : MainConfiguration;
  main_initial : MainConfiguration;
  shadow : ShadowConfiguration;
  shadow_initial : ShadowConfiguration
}.

(** The members of [Subtractor] that are vectors indexed by the capture
    channel.  All of them get [num_capture_channels_] entries in the
    constructor and keep that size, and every statement of subtractor.cc
    indexes them with the same [ch]; the model keeps one record per
    channel, with the entry of each vector.  The counter is kept as a
    [nat]: it stays below 5 between blocks (lemma
    [ProcessChannel_counter_bound]). *)
Record ChannelState := {
  main_filter_ : AdaptiveFirFilter;
  shadow_filter_ : AdaptiveFirFilter;
  G_main_ : MainFilterUpdateGain;
  G_shadow_ : ShadowFilterUpdateGain;
  filter_misadjustment_estimator_ : FilterMisadjustmentEstimator;
  poor_shadow_filter_counter_ : nat;
  main_frequency_response_ : list (list float);
  main_impulse_response_ : list float
}.

(** [data_dumper_] only observes, [fft_] has no state and
    [optimization_] selects between implementations of the same
    arithmetic: none of them is part of the state. *)
Record Subtractor := {
  config_ : FilterConfig;
  channels : list ChannelState
}.

Definition num_capture_channels_ (st : Subtractor) : nat :=
  length (channels st).

(** *** HandleEchoPathChange *)

(** The body of the loop of the lambda [full_reset], for one channel. *)
Definition full_reset_channel (cfg : FilterConfig)
    (echo_path_variability : EchoPathVariability) (c : ChannelState)
    : ChannelState :=
  let main1 := Filter_HandleEchoPathChange (main_filter_ c) in
  let shadow1 := Filter_HandleEchoPathChange (shadow_filter_ c) in
  let gm1 := MainGain_HandleEchoPathChange (G_main_ c) echo_path_variability in
  let gs1 := ShadowGain_HandleEchoPathChange (G_shadow_ c) in
  let gm2 := MainGain_SetConfig gm1 (main_initial cfg) true in
  let gs2 := ShadowGain_SetConfig gs1 (shadow_initial cfg) true in
  let main2 :=
    SetSizePartitions main1 (main_length_blocks (main_initial cfg)) true in
  let shadow2 :=
    SetSizePartitions shadow1 (shadow_length_blocks (shadow_initial cfg)) true in
  {| main_filter_ := main2; shadow_filter_ := shadow2;
     G_main_ := gm2; G_shadow_ := gs2;
     filter_misadjustment_estimator_ := filter_misadjustment_estimator_ c;
     poor_shadow_filter_counter_ := poor_shadow_filter_counter_ c;
     main_frequency_response_ := main_frequency_response_ c;
     main_impulse_response_ := main_impulse_response_ c |}.

(** The body of the loop under [if (echo_path_variability.gain_change)]. *)
Definition gain_change_channel
    (echo_path_variability : EchoPathVariability) (c : ChannelState)
    : ChannelState :=
  {| main_filter_ := main_filter_ c; shadow_filter_ := shadow_filter_ c;
     G_main_ := MainGain_HandleEchoPathChange (G_main_ c) echo_path_variability;
     G_shadow_ := G_shadow_ c;
     filter_misadjustment_estimator_ := filter_misadjustment_estimator_ c;
     poor_shadow_filter_counter_ := poor_shadow_filter_counter_ c;
     main_frequency_response_ := main_frequency_response_ c;
     main_impulse_response_ := main_impulse_response_ c |}.

Definition HandleEchoPathChange (st : Subtractor)
    (echo_path_variability : EchoPathVariability) : Subtractor :=
  let cs1 :=
    if negb (DelayAdjustment_eqb (delay_change echo_path_variability) kNone)
    then map (full_reset_channel (config_ st) echo_path_variability)
             (channels st)
    else channels st in
  let cs2 :=
    if gain_change echo_path_variability
    then map (gain_change_channel echo_path_variability) cs1
    else cs1 in
  {| config_ := config_ st; channels := cs2 |}.

(** *** ExitInitialState *)

Definition exit_initial_channel (cfg : FilterConfig) (c : ChannelState)
    : ChannelState :=
  {| main_filter_ :=
       SetSizePartitions (main_filter_ c) (main_length_blocks (main cfg)) false;
     shadow_filter_ :=
       SetSizePartitions (shadow_filter_ c)
                         (shadow_length_blocks (shadow cfg)) false;
     G_main_ := MainGain_SetConfig (G_main_ c) (main cfg) false;
     G_shadow_ := ShadowGain_SetConfig (G_shadow_ c) (shadow cfg) false;
     filter_misadjustment_estimator_ := filter_misadjustment_estimator_ c;
     poor_shadow_filter_counter_ := poor_shadow_filter_counter_ c;
     main_frequency_response_ := main_frequency_response_ c;
     main_impulse_response_ := main_impulse_response_ c |}.

Definition ExitInitialState (st : Subtractor) : Subtractor :=
  {| config_ := config_ st;
     channels := map (exit_initial_channel (config_ st)) (channels st) |}.

(** *** Process *)

(** "Compute the render powers": the pair [(X2_main, X2_shadow)] for the
    partition counts [m] of [main_filter_[0]] and [s] of
    [shadow_filter_[0]].  When the counts are equal [X2_shadow] is a
    reference to [X2_main]. *)
Definition RenderPowers (render_buffer : RenderBuffer) (m s : nat)
    : list float * list float :=
  if Nat.eqb m s then
    let X2_main := SpectralSum render_buffer m in
    (X2_main, X2_main)
  else if Nat.ltb s m then
    let '(X2_shadow, X2_main) := SpectralSums render_buffer s m in
    (X2_main, X2_shadow)
  else
    let '(X2_main, X2_shadow) := SpectralSums render_buffer m s in
    (X2_main, X2_shadow).

(** What the main filter path of one channel leaves behind before the
    shadow filter is updated. *)
Record MainStage := {
  ms_main_filter : AdaptiveFirFilter;
  ms_G_main : MainFilterUpdateGain;
  ms_estimator : FilterMisadjustmentEstimator;
  ms_frequency_response : list (list float);
  ms_impulse_response : list float;
  ms_adjusted : bool;
  ms_G : FftData;           (* the gain the main filter was adapted with *)
  ms_E_shadow : FftData;
  ms_output : SubtractorOutput   (* [output], [e_main] not yet clamped *)
}.

(** "Form the outputs of the main and shadow filters" and "Compute the
    signal powers in the subtractor output": [output] as
    [ComputeMetrics] leaves it. *)
Definition FormOutputs (render_buffer : RenderBuffer) (c : ChannelState)
    (y : list float) (output : SubtractorOutput) : SubtractorOutput :=
  (* Form the outputs of the main and shadow filters. *)
  let S := Filter (main_filter_ c) render_buffer in
  let main_error :=
    PredictionError S y (e_main output) (Some (s_main output)) in
  let S := Filter (shadow_filter_ c) render_buffer in
  let shadow_error :=
    PredictionError S y (e_shadow output) (Some (s_shadow output)) in
  (* Compute the signal powers in the subtractor output. *)
  ComputeMetrics
    {| s_main :=
         match snd main_error with Some v => v | None => s_main output end;
       s_shadow :=
         match snd shadow_error with Some v => v | None => s_shadow output end;
       e_main := fst main_error; e_shadow := fst shadow_error;
       E_main := E_main output;
       E2_main := E2_main output; E2_shadow := E2_shadow output;
       e2_main := e2_main output; e2_shadow := e2_shadow output;
       y2 := y2 output |}
    y.

(** From "Adjust the filter if needed" to [ComputeFrequencyResponse]. *)
Definition ProcessMain (X2_main : list float)
    (render_buffer : RenderBuffer) (render_signal_analyzer : RenderSignalAnalyzer)
    (aec_state : AecState) (c : ChannelState) (y : list float)
    (output : SubtractorOutput) : MainStage :=
  let output2 := FormOutputs render_buffer c y output in
  (* Adjust the filter if needed. *)
  let est1 := Update (filter_misadjustment_estimator_ c) output2 in
  let '(main1, h1, e_main2, s_main2, est2, main_filter_adjusted) :=
    if IsAdjustmentNeeded est1 then
      let scale := GetMisadjustment est1 in
      let '(e', s') :=
        ScaleFilterOutput y scale (e_main output2) (s_main output2) in
      (ScaleFilter (main_filter_ c) scale,
       map (fun h_k => h_k * scale) (main_impulse_response_ c),
       e', s', Reset est1, true)
    else
      (main_filter_ c, main_impulse_response_ c,
       e_main output2, s_main output2, est1, false) in
  (* Compute the FFts of the main and shadow filter outputs. *)
  let E_main' := ZeroPaddedFft e_main2 in
  let E_shadow := ZeroPaddedFft (e_shadow output2) in
  (* Compute spectra for future use. *)
  let output3 :=
    {| s_main := s_main2; s_shadow := s_shadow output2;
       e_main := e_main2; e_shadow := e_shadow output2;
       E_main := E_main';
       E2_main := Spectrum E_main'; E2_shadow := Spectrum E_shadow;
       e2_main := e2_main output2; e2_shadow := e2_shadow output2;
       y2 := y2 output2 |} in
  (* Update the main filter. *)
  let '(gm, G) :=
    if negb main_filter_adjusted then
      let erl := ComputeErl (main_frequency_response_ c) in
      MainGain_Compute (G_main_ c) X2_main render_signal_analyzer output3 erl
                       (SizePartitions main1) (SaturatedCapture aec_state)
    else
      (G_main_ c,
       {| re := fill kFftLengthBy2Plus1 F32.zero;
          im := fill kFftLengthBy2Plus1 F32.zero |}) in
  let '(main2, h2) := AdaptImpulseResponse main1 render_buffer G h1 in
  {| ms_main_filter := main2; ms_G_main := gm; ms_estimator := est2;
     ms_frequency_response :=
       ComputeFrequencyResponse main2 (main_frequency_response_ c);
     ms_impulse_response := h2;
     ms_adjusted := main_filter_adjusted; ms_G := G;
     ms_E_shadow := E_shadow; ms_output := output3 |}.

(** What "Update the shadow filter" leaves behind. *)
Record ShadowStage := {
  ss_counter : nat;
  ss_filter_before_adapt : AdaptiveFirFilter;
  ss_G_shadow : ShadowFilterUpdateGain;
  ss_G : FftData;
  ss_shadow_filter : AdaptiveFirFilter
}.

(** The counter after the conditional assignment that opens "Update the
    shadow filter". *)
Definition counted (c : ChannelState) (output : SubtractorOutput) : nat :=
  if e2_main output <? e2_shadow output
  then (poor_shadow_filter_counter_ c + 1)%nat
  else 0%nat.

Definition ProcessShadow (X2_shadow : list float)
    (render_buffer : RenderBuffer) (render_signal_analyzer : RenderSignalAnalyzer)
    (aec_state : AecState) (c : ChannelState) (m : MainStage) : ShadowStage :=
  let output := ms_output m in
  let counter1 := counted c output in
  let '(counter2, shadow1, (gs, G)) :=
    if Nat.ltb counter1 5 then
      (counter1, shadow_filter_ c,
       ShadowGain_Compute (G_shadow_ c) X2_shadow render_signal_analyzer
                          (ms_E_shadow m)
                          (SizePartitions (shadow_filter_ c))
                          (SaturatedCapture aec_state))
    else
      let shadow1 := SetFilter (shadow_filter_ c) (GetFilter (ms_main_filter m)) in
      (0%nat, shadow1,
       ShadowGain_Compute (G_shadow_ c) X2_shadow render_signal_analyzer
                          (E_main output)
                          (SizePartitions shadow1)
                          (SaturatedCapture aec_state)) in
  {| ss_counter := counter2; ss_filter_before_adapt := shadow1;
     ss_G_shadow := gs; ss_G := G;
     ss_shadow_filter := Adapt shadow1 render_buffer G |}.

(** The clamp that ends the loop body. *)
Definition clamp_e_main (output : SubtractorOutput) : SubtractorOutput :=
  {| s_main := s_main output; s_shadow := s_shadow output;
     e_main :=
       map (fun a => SafeClamp a (F32.of_Z (-32768)) (F32.of_Z 32767))
           (e_main output);
     e_shadow := e_shadow output;
     E_main := E_main output;
     E2_main := E2_main output; E2_shadow := E2_shadow output;
     e2_main := e2_main output; e2_shadow := e2_shadow output;
     y2 := y2 output |}.

(** The body of the loop "Process all capture channels". *)
Definition ProcessChannel (X2_main X2_shadow : list float)
    (render_buffer : RenderBuffer) (render_signal_analyzer : RenderSignalAnalyzer)
    (aec_state : AecState) (c : ChannelState) (y : list float)
    (output : SubtractorOutput) : ChannelState * SubtractorOutput :=
  let m :=
    ProcessMain X2_main render_buffer render_signal_analyzer aec_state c y
                output in
  let sh :=
    ProcessShadow X2_shadow render_buffer render_signal_analyzer aec_state c m in
  ({| main_filter_ := ms_main_filter m;
      shadow_filter_ := ss_shadow_filter sh;
      G_main_ := ms_G_main m; G_shadow_ := ss_G_shadow sh;
      filter_misadjustment_estimator_ := ms_estimator m;
      poor_shadow_filter_counter_ := ss_counter sh;
      main_frequency_response_ := ms_frequency_response m;
      main_impulse_response_ := ms_impulse_response m |},
   clamp_e_main (ms_output m)).

(** The loop over the channels.  [None] stands for a failed
    [RTC_DCHECK_EQ(kBlockSize, capture[ch].size())] or for an index that
    [capture] or [outputs] does not have.  The entries of [outputs]
    beyond the channels are not touched. *)
Fixpoint ProcessChannels (X2_main X2_shadow : list float)
    (render_buffer : RenderBuffer) (render_signal_analyzer : RenderSignalAnalyzer)
    (aec_state : AecState) (cs : list ChannelState)
    (capture : list (list float)) (outputs : list SubtractorOutput)
    : option (list ChannelState * list SubtractorOutput) :=
  match cs, capture, outputs with
  | [], _, _ => Some ([], outputs)
  | c :: cs', y :: capture', output :: outputs' =>
      if Nat.eqb kBlockSize (length y) then
        let '(c', output') :=
          ProcessChannel X2_main X2_shadow render_buffer
                         render_signal_analyzer aec_state c y output in
        match ProcessChannels X2_main X2_shadow render_buffer
                              render_signal_analyzer aec_state cs' capture'
                              outputs' with
        | Some (cs'', outputs'') => Some (c' :: cs'', output' :: outputs'')
        | None => None
        end
      else None
  | _, _, _ => None
  end.

(** [None] stands for a failed precondition: the [RTC_DCHECK_EQ] on the
    number of capture channels, a subtractor without a channel 0 to read
    the partition counts from, or a failure inside the loop. *)
Definition Process (st : Subtractor) (render_buffer : RenderBuffer)
    (capture : list (list float)) (render_signal_analyzer : RenderSignalAnalyzer)
    (aec_state : AecState) (outputs : list SubtractorOutput)
    : option (Subtractor * list SubtractorOutput) :=
  if negb (Nat.eqb (num_capture_channels_ st) (length capture)) then None
  else
    match channels st with
    | [] => None
    | c0 :: _ =>
        (* Compute the render powers. *)
        let '(X2_main, X2_shadow) :=
          RenderPowers render_buffer (SizePartitions (main_filter_ c0))
                       (SizePartitions (shadow_filter_ c0)) in
        (* Process all capture channels *)
        match ProcessChannels X2_main X2_shadow render_buffer
                              render_signal_analyzer aec_state (channels st)
                              capture outputs with
        | Some (cs', outputs') =>
            Some ({| config_ := config_ st; channels := cs' |}, outputs')
        | None => None
        end
    end.

(** The render powers that [Process] computes before the loop. *)
Definition X2_of (st : Subtractor) (render_buffer : RenderBuffer)
    : list float * list float :=
  match channels st with
  | c0 :: _ =>
      RenderPowers render_buffer (SizePartitions (main_filter_ c0))
                   (SizePartitions (shadow_filter_ c0))
  | [] => ([], [])
  end.

(** One call of [Process]: what the caller passes in. *)
Record BlockInput := {
  bi_render_buffer : RenderBuffer;
  bi_capture : list (list float);
  bi_render_signal_analyzer : RenderSignalAnalyzer;
  bi_aec_state : AecState;
  bi_outputs : list SubtractorOutput   (* the array the results go to *)
}.

(** A run: [Process] called once per block, each call starting from the
    state the previous one left.  The result collects the outputs of all
    the blocks. *)
Fixpoint ProcessBlocks (st : Subtractor) (blocks : list BlockInput)
    : option (Subtractor * list (list SubtractorOutput)) :=
  match blocks with
  | [] => Some (st, [])
  | b :: blocks' =>
      match Process st (bi_render_buffer b) (bi_capture b)
                    (bi_render_signal_analyzer b) (bi_aec_state b)
                    (bi_outputs b) with
      | Some (st', outs) =>
          match ProcessBlocks st' blocks' with
          | Some (st'', rest) => Some (st'', outs :: rest)
          | None => None
          end
      | None => None
      end
  end.

End SubtractorModel.

(** ** Predicates used in the statements *)

(** A sample within the signed 16-bit amplitude range. *)
Definition in_int16_range (x : float) : bool :=
  (F32.of_Z (-32768) <=? x)%f32 && (x <=? F32.of_Z 32767)%f32.

(** A spectrum that is identically zero: every bin of both parts is a
    zero. *)
Definition zero_spectrum (S : FftData) : Prop :=
  Forall (fun x => F32.is_zero x = true) (re S)
  /\ Forall (fun x => F32.is_zero x = true) (im S).

Section Shapes.
Context {K : Aec3Common} {C : Collaborators}.

(** The four time-domain members of a [SubtractorOutput] are
    [std::array<float, kBlockSize>]. *)
Definition output_sized (o : SubtractorOutput) : Prop :=
  length (e_main o) = kBlockSize /\ length (e_shadow o) = kBlockSize
  /\ length (s_main o) = kBlockSize /\ length (s_shadow o) = kBlockSize.

(** Two calls of [Process] that get the same render buffer, capture
    blocks, analyzer and echo state, each with an output array of its own
    that has one well-sized entry per capture channel. *)
Definition same_block_input (b1 b2 : BlockInput) : Prop :=
  bi_render_buffer b1 = bi_render_buffer b2
  /\ bi_capture b1 = bi_capture b2
  /\ bi_render_signal_analyzer b1 = bi_render_signal_analyzer b2
  /\ bi_aec_state b1 = bi_aec_state b2
  /\ length (bi_outputs b1) = length (bi_capture b1)
  /\ length (bi_outputs b2) = length (bi_capture b2)
  /\ Forall output_sized (bi_outputs b1)
  /\ Forall output_sized (bi_outputs b2).

(** [Process] as section 4.4 of the specification words its first step:
    the spectral sum is obtained at each filter's partition count, one
    query per filter.  Used to compare the buffer sharing of the source
    against. *)
Definition ProcessSeparateSums (st : Subtractor) (render_buffer : RenderBuffer)
    (capture : list (list float)) (render_signal_analyzer : RenderSignalAnalyzer)
    (aec_state : AecState) (outputs : list SubtractorOutput)
    : option (Subtractor * list SubtractorOutput) :=
  if negb (Nat.eqb (num_capture_channels_ st) (length capture)) then None
  else
    match channels st with
    | [] => None
    | c0 :: _ =>
        let X2_main :=
          SpectralSum render_buffer (SizePartitions (main_filter_ c0)) in
        let X2_shadow :=
          SpectralSum render_buffer (SizePartitions (shadow_filter_ c0)) in
        match ProcessChannels X2_main X2_shadow render_buffer
                              render_signal_analyzer aec_state (channels st)
                              capture outputs with
        | Some (cs', outputs') =>
            Some ({| config_ := config_ st; channels := cs' |}, outputs')
        | None => None
        end
    end.

End Shapes.

(** ** Reference collaborators *)

(** Modelled from the spec: the files that define the render buffer, the
    FFT, the adaptive FIR filter and the update-gain computers are missing.
    This is one instance of the parameters, small enough to run [Process]
    on concrete blocks.  As the specification describes them, the adaptive
    filter keeps one spectrum of coefficients per partition, [Filter]
    convolves them with the render spectra, [Adapt] moves every partition
    by the gain times the conjugated render spectrum, [ScaleFilter]
    multiplies every coefficient, [HandleEchoPathChange] zeroes the
    coefficients, [SetFilter] replaces the whole coefficient state and a
    forced [SetSizePartitions] takes effect at once; the render buffer sums
    the power spectra of its most recent partitions.  The FFT is a black
    box for the subtractor: the instance uses a linear stand-in with the
    array lengths of the real one. *)
Module Reference.
Local Open Scope f32_scope.

Definition common : Aec3Common := {| kFftLengthBy2 := 64 |}.
#[local] Existing Instance common.

Definition bins : list nat := seq 0 kFftLengthBy2Plus1.
Definition at_ (l : list float) (k : nat) : float := nth k l F32.zero.
Definition zero_bins : list float := fill kFftLengthBy2Plus1 F32.zero.
Definition zero_fft : FftData := {| re := zero_bins; im := zero_bins |}.

(** *** Render buffer: the render spectra, the newest first *)
Definition RenderBuffer : Type := list FftData.

Definition power (X : FftData) : list float :=
  map (fun k => at_ (re X) k * at_ (re X) k + at_ (im X) k * at_ (im X) k) bins.

Definition accumulate (X2 : list float) (X : FftData) : list float :=
  map (fun k => at_ X2 k + at_ (power X) k) bins.

Definition SpectralSum (rb : RenderBuffer) (n : nat) : list float :=
  fold_left accumulate (firstn n rb) zero_bins.

(** The longer sum continues from the shorter one. *)
Definition SpectralSums (rb : RenderBuffer) (shorter longer : nat)
    : list float * list float :=
  let X2_shorter := SpectralSum rb shorter in
  (X2_shorter,
   fold_left accumulate (firstn (longer - shorter) (skipn shorter rb))
             X2_shorter).

(** *** FFT stand-in *)
Definition Ifft (S : FftData) : list float :=
  map (fun k => at_ (re S) k) (seq 0 kFftLengthBy2)
  ++ map (fun k => at_ (im S) k) (seq 0 kFftLengthBy2).

Definition ZeroPaddedFft (x : list float) : FftData :=
  {| re := map (fun k => at_ x k) bins;
     im := map (fun k => at_ x (k + 1)) bins |}.

Definition Spectrum (X : FftData) : list float := power X.

(** *** Adaptive FIR filter *)
Record AdaptiveFirFilter := {
  H_ : list FftData;
  target_size_partitions_ : nat
}.

(** [S += X * H] *)
Definition multiply_accumulate (S : FftData) (XH : FftData * FftData) : FftData :=
  let '(X, H) := XH in
  {| re := map (fun k => at_ (re S) k
                         + (at_ (re X) k * at_ (re H) k
                            - at_ (im X) k * at_ (im H) k)) bins;
     im := map (fun k => at_ (im S) k
                         + (at_ (re X) k * at_ (im H) k
                            + at_ (im X) k * at_ (re H) k)) bins |}.

Definition Filter (f : AdaptiveFirFilter) (rb : RenderBuffer) : FftData :=
  fold_left multiply_accumulate (combine rb (H_ f)) zero_fft.

(** [H += conj(X) * G] *)
Definition adapt_partition (G : FftData) (XH : FftData * FftData) : FftData :=
  let '(X, H) := XH in
  {| re := map (fun k => at_ (re H) k
                         + (at_ (re X) k * at_ (re G) k
                            + at_ (im X) k * at_ (im G) k)) bins;
     im := map (fun k => at_ (im H) k
                         + (at_ (re X) k * at_ (im G) k
                            - at_ (im X) k * at_ (re G) k)) bins |}.

(** A partition that the render buffer has no spectrum for is kept. *)
Fixpoint adapt_partitions (G : FftData) (rb : RenderBuffer)
    (H : list FftData) : list FftData :=
  match H, rb with
  | [], _ => []
  | Hp :: H', [] => Hp :: H'
  | Hp :: H', X :: rb' => adapt_partition G (X, Hp) :: adapt_partitions G rb' H'
  end.

(** The gradual change of size: one partition per call towards the
    target. *)
Definition update_size (f : AdaptiveFirFilter) : list FftData :=
  if Nat.ltb (length (H_ f)) (target_size_partitions_ f)
  then H_ f ++ [zero_fft]
  else if Nat.ltb (target_size_partitions_ f) (length (H_ f))
  then removelast (H_ f)
  else H_ f.

Definition Adapt (f : AdaptiveFirFilter) (rb : RenderBuffer) (G : FftData)
    : AdaptiveFirFilter :=
  {| H_ := adapt_partitions G rb (update_size f);
     target_size_partitions_ := target_size_partitions_ f |}.

Definition impulse_response (H : list FftData) : list float :=
  concat (map (fun Hp => firstn kFftLengthBy2 (Ifft Hp)) H).

Definition AdaptImpulseResponse (f : AdaptiveFirFilter) (rb : RenderBuffer)
    (G : FftData) (h : list float) : AdaptiveFirFilter * list float :=
  let f' := Adapt f rb G in
  (f', impulse_response (H_ f')).

Definition scale_fft (factor : float) (H : FftData) : FftData :=
  {| re := map (fun x => x * factor) (re H);
     im := map (fun x => x * factor) (im H) |}.

Definition ScaleFilter (f : AdaptiveFirFilter) (factor : float)
    : AdaptiveFirFilter :=
  {| H_ := map (scale_fft factor) (H_ f);
     target_size_partitions_ := target_size_partitions_ f |}.

Definition SizePartitions (f : AdaptiveFirFilter) : nat := length (H_ f).

Definition resize (n : nat) (H : list FftData) : list FftData :=
  firstn n H ++ repeat zero_fft (n - length H).

Definition SetSizePartitions (f : AdaptiveFirFilter) (size : nat)
    (immediate_effect : bool) : AdaptiveFirFilter :=
  {| H_ := if immediate_effect then resize size (H_ f) else H_ f;
     target_size_partitions_ := size |}.

Definition Filter_HandleEchoPathChange (f : AdaptiveFirFilter)
    : AdaptiveFirFilter :=
  {| H_ := map (fun _ => zero_fft) (H_ f);
     target_size_partitions_ := target_size_partitions_ f |}.

Definition GetFilter (f : AdaptiveFirFilter) : list FftData := H_ f.

Definition SetFilter (f : AdaptiveFirFilter) (H : list FftData)
    : AdaptiveFirFilter :=
  {| H_ := H; target_size_partitions_ := target_size_partitions_ f |}.

Definition ComputeFrequencyResponse (f : AdaptiveFirFilter)
    (H2 : list (list float)) : list (list float) :=
  map power (H_ f).

Definition ComputeErl (H2 : list (list float)) : list float :=
  fold_left (fun erl H2_j => map (fun k => at_ erl k + at_ H2_j k) bins)
            H2 zero_bins.

(** *** Update gains: a normalised step, none on a saturated block *)
Record GainState := {
  length_blocks : nat;
  initial_state : bool;
  echo_path_changes : nat
}.

Definition step (mu : float) (X2 : list float) (E : FftData)
    (saturated : bool) : FftData :=
  if saturated then zero_fft
  else
    {| re := map (fun k => mu / (F32.of_Z 1 + at_ X2 k) * at_ (re E) k) bins;
       im := map (fun k => mu / (F32.of_Z 1 + at_ X2 k) * at_ (im E) k) bins |}.

Definition Gain_HandleEchoPathChange (g : GainState) : GainState :=
  {| length_blocks := length_blocks g; initial_state := initial_state g;
     echo_path_changes := S (echo_path_changes g) |}.

Definition Gain_SetConfig (g : GainState) (config : nat) (immediate : bool)
    : GainState :=
  {| length_blocks := config; initial_state := immediate;
     echo_path_changes := echo_path_changes g |}.

Definition MainGain_Compute (g : GainState) (X2 : list float) (rsa : unit)
    (output : SubtractorOutput) (erl : list float) (size_partitions : nat)
    (saturated : bool) : GainState * FftData :=
  (g, step (F32.of_Z 1) X2 (E_main output) saturated).

Definition ShadowGain_Compute (g : GainState) (X2 : list float) (rsa : unit)
    (E : FftData) (size_partitions : nat) (saturated : bool)
    : GainState * FftData :=
  (g, step (F32.of_Z 1 / F32.of_Z 2) X2 E saturated).

(** *** Misadjustment: rescale once the smoothed ratio exceeds 10 *)
Definition adjustment_needed (inv : float) : bool := inv >? F32.of_Z 10.
Definition misadjustment (inv : float) : float :=
  F32.of_Z 2 / F32.sqrt inv.

End Reference.

Definition reference_collaborators : Collaborators := {|
  RenderBuffer := Reference.RenderBuffer;
  RenderSignalAnalyzer := unit;
  AecState := bool;
  SpectralSum := Reference.SpectralSum;
  SpectralSums := Reference.SpectralSums;
  SaturatedCapture := fun saturated => saturated;
  Ifft := Reference.Ifft;
  ZeroPaddedFft := Reference.ZeroPaddedFft;
  Spectrum := Reference.Spectrum;
  AdaptiveFirFilter := Reference.AdaptiveFirFilter;
  FilterCoefficients := list FftData;
  Filter := Reference.Filter;
  Adapt := Reference.Adapt;
  AdaptImpulseResponse := Reference.AdaptImpulseResponse;
  ScaleFilter := Reference.ScaleFilter;
  SizePartitions := Reference.SizePartitions;
  SetSizePartitions := Reference.SetSizePartitions;
  Filter_HandleEchoPathChange := Reference.Filter_HandleEchoPathChange;
  GetFilter := Reference.GetFilter;
  SetFilter := Reference.SetFilter;
  ComputeFrequencyResponse := Reference.ComputeFrequencyResponse;
  ComputeErl := Reference.ComputeErl;
  MainConfiguration := nat;
  ShadowConfiguration := nat;
  main_length_blocks := fun n => n;
  shadow_length_blocks := fun n => n;
  MainFilterUpdateGain := Reference.GainState;
  MainGain_HandleEchoPathChange := fun g _ => Reference.Gain_HandleEchoPathChange g;
  MainGain_SetConfig := Reference.Gain_SetConfig;
  MainGain_Compute := Reference.MainGain_Compute;
  ShadowFilterUpdateGain := Reference.GainState;
  ShadowGain_HandleEchoPathChange := Reference.Gain_HandleEchoPathChange;
  ShadowGain_SetConfig := Reference.Gain_SetConfig;
  ShadowGain_Compute := Reference.ShadowGain_Compute;
  adjustment_needed := Reference.adjustment_needed;
  misadjustment := Reference.misadjustment
|}.

(** ** Concrete blocks

    Inputs on which the model is run with the reference collaborators. *)
Module Blocks.
Local Open Scope f32_scope.
#[local] Existing Instance Reference.common.

(** An output of which only the energies matter. *)
Definition energies (e2 y2 : Z) : SubtractorOutput :=
  {| s_main := []; s_shadow := []; e_main := []; e_shadow := [];
     E_main := {| re := []; im := [] |}; E2_main := []; E2_shadow := [];
     e2_main := F32.of_Z e2; e2_shadow := F32.zero; y2 := F32.of_Z y2 |}.

(** The estimator as [Reset] leaves it. *)
Definition fresh_estimator : FilterMisadjustmentEstimator :=
  {| n_blocks_acum_ := 0; e2_acum_ := F32.zero; y2_acum_ := F32.zero;
     inv_misadjustment_ := F32.zero; overhang_ := 0 |}.

(** Four blocks whose residual energy is above the divergence threshold,
    with as much capture energy. *)
Definition diverged_window : list SubtractorOutput :=
  repeat (energies 10000000000 10000000000) 4.

(** Four silent blocks. *)
Definition silent_window : list SubtractorOutput := repeat (energies 0 0) 4.

(** The estimator after a diverged window and two more blocks that carry
    capture energy: it is half way through its second window. *)
Definition mid_window_estimator : FilterMisadjustmentEstimator :=
  UpdateAll fresh_estimator
            (diverged_window ++ [energies 0 10000000; energies 0 10000000]).

(** The estimator after one window in which the residual energy is far
    above the capture energy. *)
Definition alarmed_estimator : FilterMisadjustmentEstimator :=
  UpdateAll fresh_estimator (repeat (energies 10000000000000 10000000) 4).

(** *** One channel, one partition *)
#[local] Existing Instance reference_collaborators.

Definition constant_spectrum (r i : Z) : FftData :=
  {| re := fill kFftLengthBy2Plus1 (F32.of_Z r);
     im := fill kFftLengthBy2Plus1 (F32.of_Z i) |}.

(** The render buffer holds one spectrum, 1 in every bin. *)
Definition render : RenderBuffer := [constant_spectrum 1 0].

(** A filter of one partition; with [render] it predicts the echo
    [i / 64] in every sample. *)
Definition filter_with (i : Z) : AdaptiveFirFilter :=
  {| Reference.H_ := [constant_spectrum 0 i];
     Reference.target_size_partitions_ := 1 |}.

Definition gain_state : Reference.GainState :=
  {| Reference.length_blocks := 1; Reference.initial_state := true;
     Reference.echo_path_changes := 0 |}.

(** The main filter predicts 29000 and the shadow filter -10000; the
    shadow filter has been the worse one for 4 blocks. *)
Definition channel_with (est : FilterMisadjustmentEstimator)
    : ChannelState :=
  {| main_filter_ := filter_with (64 * 29000);
     shadow_filter_ := filter_with (-640000);
     G_main_ := gain_state; G_shadow_ := gain_state;
     filter_misadjustment_estimator_ := est;
     poor_shadow_filter_counter_ := 4;
     main_frequency_response_ := [Reference.zero_bins];
     main_impulse_response_ := fill kFftLengthBy2 (F32.of_Z 1) |}.

Definition subtractor_with (cs : list ChannelState) : Subtractor :=
  {| config_ := {| main := 1%nat; main_initial := 1%nat;
                   shadow := 1%nat; shadow_initial := 1%nat |};
     channels := cs |}.

Definition subtractor_A : Subtractor :=
  subtractor_with [channel_with fresh_estimator].

(** An estimator one block before the end of a window in which the
    residual energy is far above the capture energy. *)
Definition diverging_estimator : FilterMisadjustmentEstimator :=
  {| n_blocks_acum_ := 3; e2_acum_ := F32.of_Z 100000000000000;
     y2_acum_ := F32.zero; inv_misadjustment_ := F32.zero; overhang_ := 0 |}.

Definition subtractor_diverging : Subtractor :=
  subtractor_with [channel_with diverging_estimator].

(** A capture block of 64 samples of amplitude 30000, and one whose
    first sample is a NaN. *)
Definition capture_A : list (list float) :=
  [fill kBlockSize (F32.of_Z 30000)].
Definition capture_nan : list (list float) :=
  [F32.nan :: fill (kBlockSize - 1) (F32.of_Z 30000)].

(** Two output arrays with different previous contents. *)
Definition output_filled (v : Z) : SubtractorOutput :=
  {| s_main := fill kBlockSize (F32.of_Z v);
     s_shadow := fill kBlockSize (F32.of_Z v);
     e_main := fill kBlockSize (F32.of_Z v);
     e_shadow := fill kBlockSize (F32.of_Z v);
     E_main := constant_spectrum v v;
     E2_main := fill kFftLengthBy2Plus1 (F32.of_Z v);
     E2_shadow := fill kFftLengthBy2Plus1 (F32.of_Z v);
     e2_main := F32.of_Z v; e2_shadow := F32.of_Z v; y2 := F32.of_Z v |}.

Definition blank_output : SubtractorOutput := output_filled 0.

(** The results of a call: the state and the outputs, and channel 0 of
    both. *)
Definition state_after (st : Subtractor)
    (r : option (Subtractor * list SubtractorOutput)) : Subtractor :=
  match r with Some (st', _) => st' | None => st end.

Definition outputs_after (r : option (Subtractor * list SubtractorOutput))
    : list SubtractorOutput :=
  match r with Some (_, outputs') => outputs' | None => [] end.

Definition channel0 (st : Subtractor) : ChannelState :=
  hd (channel_with fresh_estimator) (channels st).

Definition output0 (outputs : list SubtractorOutput) : SubtractorOutput :=
  hd blank_output outputs.

(** An echo path event that reports a delay change and no gain
    change. *)
Definition delay_changed : EchoPathVariability :=
  {| gain_change := false; delay_change := kAdjusted 0 |}.

(** A subtractor whose main filter has two partitions and whose shadow
    filter has one, and a render buffer with two spectra. *)
Definition subtractor_long_main : Subtractor :=
  subtractor_with
    [ {| main_filter_ :=
           {| Reference.H_ :=
                [constant_spectrum 0 (64 * 29000); constant_spectrum 0 64];
              Reference.target_size_partitions_ := 2 |};
         shadow_filter_ := filter_with (-640000);
         G_main_ := gain_state; G_shadow_ := gain_state;
         filter_misadjustment_estimator_ := fresh_estimator;
         poor_shadow_filter_counter_ := 0;
         main_frequency_response_ := [Reference.zero_bins; Reference.zero_bins];
         main_impulse_response_ := fill (2 * kFftLengthBy2) F32.zero |} ].

Definition render_two : RenderBuffer :=
  [constant_spectrum 1 0; constant_spectrum 2 1].

(** Two blocks, as two callers pass them: the same signals, output arrays
    with different previous contents. *)
Definition block_with (previous : Z) : BlockInput :=
  {| bi_render_buffer := render; bi_capture := capture_A;
     bi_render_signal_analyzer := tt; bi_aec_state := false;
     bi_outputs := [output_filled previous] |}.

Definition blocks_first_run : list BlockInput := [block_with 0; block_with 0].
Definition blocks_second_run : list BlockInput := [block_with 7; block_with 9].

Definition run_A : option (Subtractor * list SubtractorOutput) :=
  Process subtractor_A render capture_A tt false [blank_output].

Definition run_diverging : option (Subtractor * list SubtractorOutput) :=
  Process subtractor_diverging render capture_A tt false [blank_output].

Definition run_nan : option (Subtractor * list SubtractorOutput) :=
  Process subtractor_A render capture_nan tt false [blank_output].

End Blocks.

(** ** States the estimator can be in *)

(** Not a negative number: a NaN, a zero of either sign, a positive number
    or [+inf]. *)
Definition F32_not_negative (x : float) : bool :=
  match x with
  | S754_finite true _ _ | S754_infinity true => false
  | _ => true
  end.

(** What [Update] and [Reset] keep: the block counter is inside the
    window, the overhang counter is between 0 and 4, and the accumulators
    are [+0] whenever a window starts. *)
Definition estimator_ok (est : FilterMisadjustmentEstimator) : Prop :=
  (0 <= n_blocks_acum_ est < n_blocks_)%Z
  /\ (0 <= overhang_ est <= 4)%Z
  /\ (n_blocks_acum_ est = 0%Z ->
      e2_acum_ est = F32.zero /\ y2_acum_ est = F32.zero).

(** The estimate and the overhang counter as [Reset] leaves them. *)
Definition estimate_at_rest (est : FilterMisadjustmentEstimator) : Prop :=
  inv_misadjustment_ est = F32.zero /\ overhang_ est = 0%Z.

(** No call of the sequence sees the accumulated residual energy above
    the divergence threshold. *)
Fixpoint never_diverges {K : Aec3Common} (est : FilterMisadjustmentEstimator)
    (outputs : list SubtractorOutput) : Prop :=
  match outputs with
  | [] => True
  | o :: outputs' =>
      ((e2_acum_ est + e2_main o)%f32 >? e2_divergence)%f32 = false
      /\ never_diverges (Update est o) outputs'
  end.

(** ** Sequences of calls on a subtractor *)

Section Operations.
Context {K : Aec3Common} {C : Collaborators}.

(** What holds of every channel between two calls: the counter of poor
    shadow blocks is below 5 and the estimator is in one of its states. *)
Definition channel_ok (c : ChannelState) : Prop :=
  (poor_shadow_filter_counter_ c < 5)%nat
  /\ estimator_ok (filter_misadjustment_estimator_ c).

(** A call of one of the three public member functions. *)
Inductive Operation :=
| CallProcess (b : BlockInput)
| CallHandleEchoPathChange (echo_path_variability : EchoPathVariability)
| CallExitInitialState.

Definition apply_operation (st : Subtractor) (op : Operation)
    : option Subtractor :=
  match op with
  | CallProcess b =>
      match Process st (bi_render_buffer b) (bi_capture b)
                    (bi_render_signal_analyzer b) (bi_aec_state b)
                    (bi_outputs b) with
      | Some (st', _) => Some st'
      | None => None
      end
  | CallHandleEchoPathChange v => Some (HandleEchoPathChange st v)
  | CallExitInitialState => Some (ExitInitialState st)
  end.

(** The calls one after the other; [None] as soon as a [Process] fails. *)
Fixpoint apply_operations (st : Subtractor) (ops : list Operation)
    : option Subtractor :=
  match ops with
  | [] => Some st
  | op :: ops' =>
      match apply_operation st op with
      | Some st' => apply_operations st' ops'
      | None => None
      end
  end.

End Operations.

(** ** More concrete blocks *)

Module Scenarios.
Local Open Scope f32_scope.
#[local] Existing Instance Reference.common.
#[local] Existing Instance reference_collaborators.

(** Nine blocks: two windows and one block of a third. *)
Definition nine_blocks : list SubtractorOutput :=
  Blocks.diverged_window ++ Blocks.silent_window ++ [Blocks.energies 0 0].

(** Six blocks of a converged filter: the capture energy is above the
    floor, the residual energy a hundredth of it. *)
Definition converged_blocks : list SubtractorOutput :=
  repeat (Blocks.energies 100000 10000000) 6.

(** An output array with one entry more than there are channels. *)
Definition outputs_spare : list SubtractorOutput :=
  [Blocks.blank_output; Blocks.output_filled 7].

Definition run_spare : option (Subtractor * list SubtractorOutput) :=
  Process Blocks.subtractor_A Blocks.render Blocks.capture_A tt false
          outputs_spare.

(** Two subtractors of two channels each: they differ in channel 0 (in
    the coefficients of the main filter, not in its size) and agree on
    channel 1; and two capture signals that differ in channel 0 only. *)
Definition second_channel : ChannelState :=
  {| main_filter_ := Blocks.filter_with (64 * 50);
     shadow_filter_ := Blocks.filter_with (64 * 70);
     G_main_ := Blocks.gain_state; G_shadow_ := Blocks.gain_state;
     filter_misadjustment_estimator_ := Blocks.diverging_estimator;
     poor_shadow_filter_counter_ := 2;
     main_frequency_response_ := [Reference.zero_bins];
     main_impulse_response_ := fill kFftLengthBy2 F32.zero |}.

Definition first_channel_other : ChannelState :=
  {| main_filter_ := Blocks.filter_with (64 * 12);
     shadow_filter_ := Blocks.filter_with 64;
     G_main_ := Blocks.gain_state; G_shadow_ := Blocks.gain_state;
     filter_misadjustment_estimator_ := Blocks.fresh_estimator;
     poor_shadow_filter_counter_ := 0;
     main_frequency_response_ := [Reference.zero_bins];
     main_impulse_response_ := fill kFftLengthBy2 F32.zero |}.

Definition subtractor_two : Subtractor :=
  Blocks.subtractor_with
    [Blocks.channel_with Blocks.fresh_estimator; second_channel].

Definition subtractor_two_other : Subtractor :=
  Blocks.subtractor_with [first_channel_other; second_channel].

Definition capture_two : list (list float) :=
  [fill kBlockSize (F32.of_Z 30000); fill kBlockSize (F32.of_Z 100)].

Definition capture_two_other : list (list float) :=
  [fill kBlockSize (F32.of_Z (-5)); fill kBlockSize (F32.of_Z 100)].

Definition outputs_two : list SubtractorOutput :=
  [Blocks.blank_output; Blocks.blank_output].

Definition run_two : option (Subtractor * list SubtractorOutput) :=
  Process subtractor_two Blocks.render capture_two tt false outputs_two.

Definition run_two_other : option (Subtractor * list SubtractorOutput) :=
  Process subtractor_two_other Blocks.render capture_two_other tt false
          outputs_two.

(** A block on the subtractor whose main filter is longer than its shadow
    filter. *)
Definition run_long_main : option (Subtractor * list SubtractorOutput) :=
  Process Blocks.subtractor_long_main Blocks.render_two Blocks.capture_A
          tt false [Blocks.blank_output].

(** An event that reports nothing. *)
Definition nothing_changed : EchoPathVariability :=
  {| gain_change := false; delay_change := kNone |}.

(** A delay change, the end of the initial state, a block, and a delay
    change again. *)
Definition calls : list Operation :=
  [CallHandleEchoPathChange Blocks.delay_changed;
   CallExitInitialState;
   CallProcess (Blocks.block_with 7);
   CallHandleEchoPathChange Blocks.delay_changed].

Definition state_after_calls : Subtractor :=
  match apply_operations Blocks.subtractor_A calls with
  | Some st' => st'
  | None => Blocks.subtractor_A
  end.

End Scenarios.

(** ** VCMEncodedFrame (modules/video_coding/encoded_frame.cc)

    The second translation unit of the source: the frame of the video
    jitter buffer, the codec specific information it gathers from the RTP
    header of each packet, and its buffer.  The types it works on are
    declared in headers that are not among the sources modelled here; each
    is modelled with the members that encoded_frame.cc accesses. *)

Module EncodedFrame.

(** [VideoCodecType], [VideoFrameType], [VideoRotation] and
    [VideoContentType]: the enumerators the file names, and one
    constructor for every other enumerator. *)
Inductive VideoCodecType :=
| kVideoCodecGeneric
| kVideoCodecVP8
| kVideoCodecVP9
| kVideoCodecH264
| kVideoCodecOther (n : nat).

Definition VideoCodecType_eqb (a b : VideoCodecType) : bool :=
  match a, b with
  | kVideoCodecGeneric, kVideoCodecGeneric => true
  | kVideoCodecVP8, kVideoCodecVP8 => true
  | kVideoCodecVP9, kVideoCodecVP9 => true
  | kVideoCodecH264, kVideoCodecH264 => true
  | kVideoCodecOther n, kVideoCodecOther m => Nat.eqb n m
  | _, _ => false
  end.

Inductive VideoFrameType := kVideoFrameDelta | kVideoFrameOther (n : nat).
Inductive VideoRotation := kVideoRotation_0 | kVideoRotationOther (n : nat).
Inductive VideoContentType := UNSPECIFIED | VideoContentTypeOther (n : nat).

(** [GofInfoVP9] and its member function [CopyGofInfoVP9] are defined in
    vp9_globals.h: [CopyGofInfoVP9 dst src] is [dst] after
    [dst.CopyGofInfoVP9(src)]. *)
Class Vp9Globals := {
  GofInfoVP9 : Type;
  CopyGofInfoVP9 : GofInfoVP9 -> GofInfoVP9 -> GofInfoVP9
}.

(** *** The RTP video header *)

Module RTPVideoHeaderVP8.
Record t := {
  nonReference : bool;
  temporalIdx : Z;
  layerSync : bool;
  keyIdx : Z
}.
End RTPVideoHeaderVP8.

Module RTPVideoHeaderVP9.
Record t {G : Vp9Globals} := {
  inter_pic_predicted : bool;
  flexible_mode : bool;
  num_ref_pics : nat;
  pid_diff : list Z;
  ss_data_available : bool;
  temporal_idx : Z;
  temporal_up_switch : bool;
  spatial_idx : Z;
  inter_layer_predicted : bool;
  gof_idx : Z;
  num_spatial_layers : nat;
  spatial_layer_resolution_present : bool;
  width : list Z;
  height : list Z;
  gof : GofInfoVP9
}.
End RTPVideoHeaderVP9.

Module FrameMarking.
Record t := {
  temporal_id : Z;
  base_layer_sync : bool;
  independent_frame : bool
}.
End FrameMarking.

(** [video_type_header] is an [absl::variant]; [HeaderOther] stands for
    the alternatives that the file never extracts. *)
Inductive RTPVideoTypeHeader {G : Vp9Globals} :=
| monostate
| HeaderVP8 (vp8_header : RTPVideoHeaderVP8.t)
| HeaderVP9 (vp9_header : RTPVideoHeaderVP9.t)
| HeaderOther (n : nat).

Record RTPVideoHeader {G : Vp9Globals} := {
  codec : VideoCodecType;
  video_type_header : RTPVideoTypeHeader;
  frame_marking : FrameMarking.t
}.

(** *** The codec specific information of the frame *)

Module CodecSpecificInfoVP8.
Record t := {
  nonReference : bool;
  temporalIdx : Z;
  layerSync : bool;
  keyIdx : Z
}.
End CodecSpecificInfoVP8.

Module CodecSpecificInfoVP9.
Record t {G : Vp9Globals} := {
  inter_pic_predicted : bool;
  flexible_mode : bool;
  num_ref_pics : nat;
  p_diff : list Z;
  ss_data_available : bool;
  temporal_idx : Z;
  temporal_up_switch : bool;
  inter_layer_predicted : bool;
  gof_idx : Z;
  num_spatial_layers : nat;
  spatial_layer_resolution_present : bool;
  width : list Z;
  height : list Z;
  gof : GofInfoVP9
}.

Section Setters.
Context {G : Vp9Globals}.

Definition set_inter_pic_predicted (v : t) (x : bool) : t :=
  {| inter_pic_predicted := x; flexible_mode := flexible_mode v;
     num_ref_pics := num_ref_pics v; p_diff := p_diff v;
     ss_data_available := ss_data_available v;
     temporal_idx := temporal_idx v;
     temporal_up_switch := temporal_up_switch v;
     inter_layer_predicted := inter_layer_predicted v; gof_idx := gof_idx v;
     num_spatial_layers := num_spatial_layers v;
     spatial_layer_resolution_present := spatial_layer_resolution_present v;
     width := width v; height := height v; gof := gof v |}.

Definition set_flexible_mode (v : t) (x : bool) : t :=
  {| inter_pic_predicted := inter_pic_predicted v; flexible_mode := x;
     num_ref_pics := num_ref_pics v; p_diff := p_diff v;
     ss_data_available := ss_data_available v;
     temporal_idx := temporal_idx v;
     temporal_up_switch := temporal_up_switch v;
     inter_layer_predicted := inter_layer_predicted v; gof_idx := gof_idx v;
     num_spatial_layers := num_spatial_layers v;
     spatial_layer_resolution_present := spatial_layer_resolution_present v;
     width := width v; height := height v; gof := gof v |}.

Definition set_num_ref_pics (v : t) (x : nat) : t :=
  {| inter_pic_predicted := inter_pic_predicted v;
     flexible_mode := flexible_mode v; num_ref_pics := x; p_diff := p_diff v;
     ss_data_available := ss_data_available v;
     temporal_idx := temporal_idx v;
     temporal_up_switch := temporal_up_switch v;
     inter_layer_predicted := inter_layer_predicted v; gof_idx := gof_idx v;
     num_spatial_layers := num_spatial_layers v;
     spatial_layer_resolution_present := spatial_layer_resolution_present v;
     width := width v; height := height v; gof := gof v |}.

Definition set_p_diff (v : t) (x : list Z) : t :=
  {| inter_pic_predicted := inter_pic_predicted v;
     flexible_mode := flexible_mode v; num_ref_pics := num_ref_pics v;
     p_diff := x; ss_data_available := ss_data_available v;
     temporal_idx := temporal_idx v;
     temporal_up_switch := temporal_up_switch v;
     inter_layer_predicted := inter_layer_predicted v; gof_idx := gof_idx v;
     num_spatial_layers := num_spatial_layers v;
     spatial_layer_resolution_present := spatial_layer_resolution_present v;
     width := width v; height := height v; gof := gof v |}.

Definition set_ss_data_available (v : t) (x : bool) : t :=
  {| inter_pic_predicted := inter_pic_predicted v;
     flexible_mode := flexible_mode v; num_ref_pics := num_ref_pics v;
     p_diff := p_diff v; ss_data_available := x;
     temporal_idx := temporal_idx v;
     temporal_up_switch := temporal_up_switch v;
     inter_layer_predicted := inter_layer_predicted v; gof_idx := gof_idx v;
     num_spatial_layers := num_spatial_layers v;
     spatial_layer_resolution_present := spatial_layer_resolution_present v;
     width := width v; height := height v; gof := gof v |}.

Definition set_temporal_idx (v : t) (x : Z) : t :=
  {| inter_pic_predicted := inter_pic_predicted v;
     flexible_mode := flexible_mode v; num_ref_pics := num_ref_pics v;
     p_diff := p_diff v; ss_data_available := ss_data_available v;
     temporal_idx := x; temporal_up_switch := temporal_up_switch v;
     inter_layer_predicted := inter_layer_predicted v; gof_idx := gof_idx v;
     num_spatial_layers := num_spatial_layers v;
     spatial_layer_resolution_present := spatial_layer_resolution_present v;
     width := width v; height := height v; gof := gof v |}.

Definition set_temporal_up_switch (v : t) (x : bool) : t :=
  {| inter_pic_predicted := inter_pic_predicted v;
     flexible_mode := flexible_mode v; num_ref_pics := num_ref_pics v;
     p_diff := p_diff v; ss_data_available := ss_data_available v;
     temporal_idx := temporal_idx v; temporal_up_switch := x;
     inter_layer_predicted := inter_layer_predicted v; gof_idx := gof_idx v;
     num_spatial_layers := num_spatial_layers v;
     spatial_layer_resolution_present := spatial_layer_resolution_present v;
     width := width v; height := height v; gof := gof v |}.

Definition set_inter_layer_predicted (v : t) (x : bool) : t :=
  {| inter_pic_predicted := inter_pic_predicted v;
     flexible_mode := flexible_mode v; num_ref_pics := num_ref_pics v;
     p_diff := p_diff v; ss_data_available := ss_data_available v;
     temporal_idx := temporal_idx v;
     temporal_up_switch := temporal_up_switch v; inter_layer_predicted := x;
     gof_idx := gof_idx v; num_spatial_layers := num_spatial_layers v;
     spatial_layer_resolution_present := spatial_layer_resolution_present v;
     width := width v; height := height v; gof := gof v |}.

Definition set_gof_idx (v : t) (x : Z) : t :=
  {| inter_pic_predicted := inter_pic_predicted v;
     flexible_mode := flexible_mode v; num_ref_pics := num_ref_pics v;
     p_diff := p_diff v; ss_data_available := ss_data_available v;
     temporal_idx := temporal_idx v;
     temporal_up_switch := temporal_up_switch v;
     inter_layer_predicted := inter_layer_predicted v; gof_idx := x;
     num_spatial_layers := num_spatial_layers v;
     spatial_layer_resolution_present := spatial_layer_resolution_present v;
     width := width v; height := height v; gof := gof v |}.

Definition set_num_spatial_layers (v : t) (x : nat) : t :=
  {| inter_pic_predicted := inter_pic_predicted v;
     flexible_mode := flexible_mode v; num_ref_pics := num_ref_pics v;
     p_diff := p_diff v; ss_data_available := ss_data_available v;
     temporal_idx := temporal_idx v;
     temporal_up_switch := temporal_up_switch v;
     inter_layer_predicted := inter_layer_predicted v; gof_idx := gof_idx v;
     num_spatial_layers := x;
     spatial_layer_resolution_present := spatial_layer_resolution_present v;
     width := width v; height := height v; gof := gof v |}.

Definition set_spatial_layer_resolution_present (v : t) (x : bool) : t :=
  {| inter_pic_predicted := inter_pic_predicted v;
     flexible_mode := flexible_mode v; num_ref_pics := num_ref_pics v;
     p_diff := p_diff v; ss_data_available := ss_data_available v;
     temporal_idx := temporal_idx v;
     temporal_up_switch := temporal_up_switch v;
     inter_layer_predicted := inter_layer_predicted v; gof_idx := gof_idx v;
     num_spatial_layers := num_spatial_layers v;
     spatial_layer_resolution_present := x; width := width v;
     height := height v; gof := gof v |}.

Definition set_width (v : t) (x : list Z) : t :=
  {| inter_pic_predicted := inter_pic_predicted v;
     flexible_mode := flexible_mode v; num_ref_pics := num_ref_pics v;
     p_diff := p_diff v; ss_data_available := ss_data_available v;
     temporal_idx := temporal_idx v;
     temporal_up_switch := temporal_up_switch v;
     inter_layer_predicted := inter_layer_predicted v; gof_idx := gof_idx v;
     num_spatial_layers := num_spatial_layers v;
     spatial_layer_resolution_present := spatial_layer_resolution_present v;
     width := x; height := height v; gof := gof v |}.

Definition set_height (v : t) (x : list Z) : t :=
  {| inter_pic_predicted := inter_pic_predicted v;
     flexible_mode := flexible_mode v; num_ref_pics := num_ref_pics v;
     p_diff := p_diff v; ss_data_available := ss_data_available v;
     temporal_idx := temporal_idx v;
     temporal_up_switch := temporal_up_switch v;
     inter_layer_predicted := inter_layer_predicted v; gof_idx := gof_idx v;
     num_spatial_layers := num_spatial_layers v;
     spatial_layer_resolution_present := spatial_layer_resolution_present v;
     width := width v; height := x; gof := gof v |}.

Definition set_gof (v : t) (x : GofInfoVP9) : t :=
  {| inter_pic_predicted := inter_pic_predicted v;
     flexible_mode := flexible_mode v; num_ref_pics := num_ref_pics v;
     p_diff := p_diff v; ss_data_available := ss_data_available v;
     temporal_idx := temporal_idx v;
     temporal_up_switch := temporal_up_switch v;
     inter_layer_predicted := inter_layer_predicted v; gof_idx := gof_idx v;
     num_spatial_layers := num_spatial_layers v;
     spatial_layer_resolution_present := spatial_layer_resolution_present v;
     width := width v; height := height v; gof := x |}.
End Setters.
End CodecSpecificInfoVP9.

Module CodecSpecificInfoH264.
Record t := {
  temporal_idx : Z;
  base_layer_sync : bool;
  idr_frame : bool
}.
End CodecSpecificInfoH264.

(** [codecSpecific] is a union: it holds the member that was written
    last. *)
Inductive CodecSpecificInfoUnion {G : Vp9Globals} :=
| VP8 (v : CodecSpecificInfoVP8.t)
| VP9 (v : CodecSpecificInfoVP9.t)
| H264 (v : CodecSpecificInfoH264.t).

(** What the headers declare and encoded_frame.cc uses: the constants
    that mark an index as absent and the invalid timing flags; what the
    storage of the union reads as through a member that was not the last
    one written; the buffer of [EncodedImage] with its [capacity()] and
    [Allocate()]. *)
Class Declarations {G : Vp9Globals} := {
  kNoTemporalIdx : Z;
  kNoKeyIdx : Z;
  kNoSpatialIdx : Z;
  kNoGofIdx : Z;
  kInvalid : Z;
  reinterpret_VP8 : CodecSpecificInfoUnion -> CodecSpecificInfoVP8.t;
  reinterpret_VP9 : CodecSpecificInfoUnion -> CodecSpecificInfoVP9.t;
  reinterpret_H264 : CodecSpecificInfoUnion -> CodecSpecificInfoH264.t;
  EncodedImageBuffer : Type;
  capacity : EncodedImageBuffer -> nat;
  Allocate : EncodedImageBuffer -> nat -> EncodedImageBuffer
}.

Section Frame.
Context {G : Vp9Globals} {D : Declarations}.

Record CodecSpecificInfo := {
  codecType : VideoCodecType;
  codecSpecific : CodecSpecificInfoUnion
}.

(** The members of [webrtc::EncodedImage] that the file accesses, then
    those of [VCMEncodedFrame]. *)
Record VCMEncodedFrame := {
  timestamp_rtp_ : Z;
  spatial_index_ : option Z;
  _frameType : VideoFrameType;
  _encodedWidth : Z;
  _encodedHeight : Z;
  _completeFrame : bool;
  size_ : nat;
  encoded_data_ : EncodedImageBuffer;
  rotation_ : VideoRotation;
  content_type_ : VideoContentType;
  timing_flags : Z;
  _renderTimeMs : Z;
  _payloadType : Z;
  _missingFrame : bool;
  _codecSpecificInfo : CodecSpecificInfo;
  _codec : VideoCodecType
}.

Definition set_codecSpecificInfo (f : VCMEncodedFrame) (info : CodecSpecificInfo)
    : VCMEncodedFrame :=
  {| timestamp_rtp_ := timestamp_rtp_ f; spatial_index_ := spatial_index_ f;
     _frameType := _frameType f; _encodedWidth := _encodedWidth f;
     _encodedHeight := _encodedHeight f; _completeFrame := _completeFrame f;
     size_ := size_ f; encoded_data_ := encoded_data_ f;
     rotation_ := rotation_ f; content_type_ := content_type_ f;
     timing_flags := timing_flags f; _renderTimeMs := _renderTimeMs f;
     _payloadType := _payloadType f; _missingFrame := _missingFrame f;
     _codecSpecificInfo := info; _codec := _codec f |}.

Definition SetSpatialIndex (f : VCMEncodedFrame) (spatial_index : option Z)
    : VCMEncodedFrame :=
  {| timestamp_rtp_ := timestamp_rtp_ f; spatial_index_ := spatial_index;
     _frameType := _frameType f; _encodedWidth := _encodedWidth f;
     _encodedHeight := _encodedHeight f; _completeFrame := _completeFrame f;
     size_ := size_ f; encoded_data_ := encoded_data_ f;
     rotation_ := rotation_ f; content_type_ := content_type_ f;
     timing_flags := timing_flags f; _renderTimeMs := _renderTimeMs f;
     _payloadType := _payloadType f; _missingFrame := _missingFrame f;
     _codecSpecificInfo := _codecSpecificInfo f; _codec := _codec f |}.

Definition set_encoded_data (f : VCMEncodedFrame) (b : EncodedImageBuffer)
    : VCMEncodedFrame :=
  {| timestamp_rtp_ := timestamp_rtp_ f; spatial_index_ := spatial_index_ f;
     _frameType := _frameType f; _encodedWidth := _encodedWidth f;
     _encodedHeight := _encodedHeight f; _completeFrame := _completeFrame f;
     size_ := size_ f; encoded_data_ := b;
     rotation_ := rotation_ f; content_type_ := content_type_ f;
     timing_flags := timing_flags f; _renderTimeMs := _renderTimeMs f;
     _payloadType := _payloadType f; _missingFrame := _missingFrame f;
     _codecSpecificInfo := _codecSpecificInfo f; _codec := _codec f |}.

(** The members of the union as the code reads them. *)
Definition view_VP8 (u : CodecSpecificInfoUnion) : CodecSpecificInfoVP8.t :=
  match u with VP8 v => v | _ => reinterpret_VP8 u end.

Definition view_VP9 (u : CodecSpecificInfoUnion) : CodecSpecificInfoVP9.t :=
  match u with VP9 v => v | _ => reinterpret_VP9 u end.

Definition view_H264 (u : CodecSpecificInfoUnion) : CodecSpecificInfoH264.t :=
  match u with H264 v => v | _ => reinterpret_H264 u end.

(** *** Reset *)

(** The union and the buffer are not touched. *)
Definition Reset (f : VCMEncodedFrame) : VCMEncodedFrame :=
  {| timestamp_rtp_ := 0; spatial_index_ := None;
     _renderTimeMs := -1; _payloadType := 0;
     _frameType := kVideoFrameDelta;
     _encodedWidth := 0; _encodedHeight := 0;
     _completeFrame := false; _missingFrame := false;
     size_ := 0;
     _codecSpecificInfo :=
       {| codecType := kVideoCodecGeneric;
          codecSpecific := codecSpecific (_codecSpecificInfo f) |};
     _codec := kVideoCodecGeneric;
     rotation_ := kVideoRotation_0;
     content_type_ := UNSPECIFIED;
     timing_flags := kInvalid;
     encoded_data_ := encoded_data_ f |}.

(** *** CopyCodecSpecific *)

(** [a[i] = v] on an array of [length a] elements; an index outside the
    array has no result. *)
Definition store {A} (a : list A) (i : nat) (v : A) : option (list A) :=
  if Nat.ltb i (length a) then Some (firstn i a ++ v :: skipn (S i) a)
  else None.

(** [for (i = from; i < from + count; ++i) body], where the body can
    fail. *)
Fixpoint for_loop {S} (count from : nat) (body : nat -> S -> option S) (s : S)
    : option S :=
  match count with
  | O => Some s
  | Datatypes.S count' =>
      match body from s with
      | Some s' => for_loop count' (Datatypes.S from) body s'
      | None => None
      end
  end.

(** Whether the loop from [from] over [count] indices visits [i]. *)
Definition in_loop (from count i : nat) : bool :=
  Nat.leb from i && Nat.ltb i (from + count).

(** [dst[i] = src[i]] *)
Definition copy_element (src : list Z) (i : nat) (dst : list Z)
    : option (list Z) :=
  match nth_error src i with
  | Some v => store dst i v
  | None => None
  end.

(** [width[i] = src_width[i]; height[i] = src_height[i]] *)
Definition copy_sizes (src_width src_height : list Z) (i : nat)
    (dst : list Z * list Z) : option (list Z * list Z) :=
  let '(width, height) := dst in
  match copy_element src_width i width with
  | Some width' =>
      match copy_element src_height i height with
      | Some height' => Some (width', height')
      | None => None
      end
  | None => None
  end.

(** [case kVideoCodecVP8], once [vp8_header] has been extracted. *)
Definition CopyVP8 (f : VCMEncodedFrame) (vp8_header : RTPVideoHeaderVP8.t)
    : VCMEncodedFrame :=
  let info := _codecSpecificInfo f in
  let vp8 := view_VP8 (codecSpecific info) in
  (* This is the first packet for this frame. *)
  let first_packet := negb (VideoCodecType_eqb (codecType info) kVideoCodecVP8) in
  let vp8 :=
    if first_packet
    then {| CodecSpecificInfoVP8.nonReference := CodecSpecificInfoVP8.nonReference vp8;
            CodecSpecificInfoVP8.temporalIdx := 0;
            CodecSpecificInfoVP8.layerSync := false;
            CodecSpecificInfoVP8.keyIdx := -1 |}
    else vp8 in
  let type := if first_packet then kVideoCodecVP8 else codecType info in
  let vp8 :=
    {| CodecSpecificInfoVP8.nonReference := RTPVideoHeaderVP8.nonReference vp8_header;
       CodecSpecificInfoVP8.temporalIdx := CodecSpecificInfoVP8.temporalIdx vp8;
       CodecSpecificInfoVP8.layerSync := CodecSpecificInfoVP8.layerSync vp8;
       CodecSpecificInfoVP8.keyIdx := CodecSpecificInfoVP8.keyIdx vp8 |} in
  let vp8 :=
    if negb (RTPVideoHeaderVP8.temporalIdx vp8_header =? kNoTemporalIdx)
    then {| CodecSpecificInfoVP8.nonReference := CodecSpecificInfoVP8.nonReference vp8;
            CodecSpecificInfoVP8.temporalIdx := RTPVideoHeaderVP8.temporalIdx vp8_header;
            CodecSpecificInfoVP8.layerSync := RTPVideoHeaderVP8.layerSync vp8_header;
            CodecSpecificInfoVP8.keyIdx := CodecSpecificInfoVP8.keyIdx vp8 |}
    else vp8 in
  let vp8 :=
    if negb (RTPVideoHeaderVP8.keyIdx vp8_header =? kNoKeyIdx)
    then {| CodecSpecificInfoVP8.nonReference := CodecSpecificInfoVP8.nonReference vp8;
            CodecSpecificInfoVP8.temporalIdx := CodecSpecificInfoVP8.temporalIdx vp8;
            CodecSpecificInfoVP8.layerSync := CodecSpecificInfoVP8.layerSync vp8;
            CodecSpecificInfoVP8.keyIdx := RTPVideoHeaderVP8.keyIdx vp8_header |}
    else vp8 in
  set_codecSpecificInfo f {| codecType := type; codecSpecific := VP8 vp8 |}.

(** [case kVideoCodecVP9], once [vp9_header] has been extracted. *)
Definition CopyVP9 (f : VCMEncodedFrame) (vp9_header : RTPVideoHeaderVP9.t)
    : option VCMEncodedFrame :=
  let info := _codecSpecificInfo f in
  let vp9 := view_VP9 (codecSpecific info) in
  (* This is the first packet for this frame. *)
  let first_packet := negb (VideoCodecType_eqb (codecType info) kVideoCodecVP9) in
  let vp9 :=
    if first_packet
    then CodecSpecificInfoVP9.set_inter_layer_predicted
           (CodecSpecificInfoVP9.set_gof_idx
              (CodecSpecificInfoVP9.set_temporal_idx vp9 0) 0) false
    else vp9 in
  let type := if first_packet then kVideoCodecVP9 else codecType info in
  let vp9 :=
    CodecSpecificInfoVP9.set_inter_pic_predicted vp9
      (RTPVideoHeaderVP9.inter_pic_predicted vp9_header) in
  let vp9 :=
    CodecSpecificInfoVP9.set_flexible_mode vp9
      (RTPVideoHeaderVP9.flexible_mode vp9_header) in
  let vp9 :=
    CodecSpecificInfoVP9.set_num_ref_pics vp9
      (RTPVideoHeaderVP9.num_ref_pics vp9_header) in
  match for_loop (RTPVideoHeaderVP9.num_ref_pics vp9_header) 0
                 (copy_element (RTPVideoHeaderVP9.pid_diff vp9_header))
                 (CodecSpecificInfoVP9.p_diff vp9) with
  | None => None
  | Some p_diff' =>
      let vp9 := CodecSpecificInfoVP9.set_p_diff vp9 p_diff' in
      let vp9 :=
        CodecSpecificInfoVP9.set_ss_data_available vp9
          (RTPVideoHeaderVP9.ss_data_available vp9_header) in
      let vp9 :=
        if negb (RTPVideoHeaderVP9.temporal_idx vp9_header =? kNoTemporalIdx)
        then CodecSpecificInfoVP9.set_temporal_up_switch
               (CodecSpecificInfoVP9.set_temporal_idx vp9
                  (RTPVideoHeaderVP9.temporal_idx vp9_header))
               (RTPVideoHeaderVP9.temporal_up_switch vp9_header)
        else vp9 in
      let '(vp9, f) :=
        if negb (RTPVideoHeaderVP9.spatial_idx vp9_header =? kNoSpatialIdx)
        then (CodecSpecificInfoVP9.set_inter_layer_predicted vp9
                (RTPVideoHeaderVP9.inter_layer_predicted vp9_header),
              SetSpatialIndex f (Some (RTPVideoHeaderVP9.spatial_idx vp9_header)))
        else (vp9, f) in
      let vp9 :=
        if negb (RTPVideoHeaderVP9.gof_idx vp9_header =? kNoGofIdx)
        then CodecSpecificInfoVP9.set_gof_idx vp9
               (RTPVideoHeaderVP9.gof_idx vp9_header)
        else vp9 in
      let vp9' :=
        if RTPVideoHeaderVP9.ss_data_available vp9_header then
          let vp9 :=
            CodecSpecificInfoVP9.set_num_spatial_layers vp9
              (RTPVideoHeaderVP9.num_spatial_layers vp9_header) in
          let vp9 :=
            CodecSpecificInfoVP9.set_spatial_layer_resolution_present vp9
              (RTPVideoHeaderVP9.spatial_layer_resolution_present vp9_header) in
          let sizes :=
            if RTPVideoHeaderVP9.spatial_layer_resolution_present vp9_header
            then
              for_loop (RTPVideoHeaderVP9.num_spatial_layers vp9_header) 0
                (copy_sizes (RTPVideoHeaderVP9.width vp9_header)
                            (RTPVideoHeaderVP9.height vp9_header))
                (CodecSpecificInfoVP9.width vp9,
                 CodecSpecificInfoVP9.height vp9)
            else Some (CodecSpecificInfoVP9.width vp9,
                       CodecSpecificInfoVP9.height vp9) in
          match sizes with
          | Some (w, h) =>
              let vp9 :=
                CodecSpecificInfoVP9.set_height
                  (CodecSpecificInfoVP9.set_width vp9 w) h in
              Some (CodecSpecificInfoVP9.set_gof vp9
                      (CopyGofInfoVP9 (CodecSpecificInfoVP9.gof vp9)
                                      (RTPVideoHeaderVP9.gof vp9_header)))
          | None => None
          end
        else Some vp9 in
      match vp9' with
      | Some vp9 =>
          Some (set_codecSpecificInfo f
                  {| codecType := type; codecSpecific := VP9 vp9 |})
      | None => None
      end
  end.

(** [case kVideoCodecH264] *)
Definition CopyH264 (f : VCMEncodedFrame) (frame_marking : FrameMarking.t)
    : VCMEncodedFrame :=
  let info := _codecSpecificInfo f in
  let h264 := view_H264 (codecSpecific info) in
  let h264 :=
    {| CodecSpecificInfoH264.temporal_idx := kNoTemporalIdx;
       CodecSpecificInfoH264.base_layer_sync :=
         CodecSpecificInfoH264.base_layer_sync h264;
       CodecSpecificInfoH264.idr_frame := CodecSpecificInfoH264.idr_frame h264 |} in
  let h264 :=
    if negb (FrameMarking.temporal_id frame_marking =? kNoTemporalIdx)
    then {| CodecSpecificInfoH264.temporal_idx :=
              FrameMarking.temporal_id frame_marking;
            CodecSpecificInfoH264.base_layer_sync :=
              FrameMarking.base_layer_sync frame_marking;
            CodecSpecificInfoH264.idr_frame :=
              FrameMarking.independent_frame frame_marking |}
    else h264 in
  set_codecSpecificInfo f
    {| codecType := kVideoCodecH264; codecSpecific := H264 h264 |}.

(** [header] is a pointer, [None] is the null pointer.  [absl::get] does
    not return when the variant holds another alternative than the one
    asked for, and an access outside an array has no defined result: the
    call has no result then. *)
Definition CopyCodecSpecific (f : VCMEncodedFrame)
    (header : option RTPVideoHeader) : option VCMEncodedFrame :=
  match header with
  | None => Some f
  | Some header =>
      match codec header with
      | kVideoCodecVP8 =>
          match video_type_header header with
          | HeaderVP8 vp8_header => Some (CopyVP8 f vp8_header)
          | _ => None
          end
      | kVideoCodecVP9 =>
          match video_type_header header with
          | HeaderVP9 vp9_header => CopyVP9 f vp9_header
          | _ => None
          end
      | kVideoCodecH264 => Some (CopyH264 f (frame_marking header))
      | _ =>
          Some (set_codecSpecificInfo f
                  {| codecType := kVideoCodecGeneric;
                     codecSpecific := codecSpecific (_codecSpecificInfo f) |})
      end
  end.

(** The packets of a frame, one after the other. *)
Fixpoint CopyCodecSpecifics (f : VCMEncodedFrame)
    (headers : list RTPVideoHeader) : option VCMEncodedFrame :=
  match headers with
  | [] => Some f
  | header :: headers' =>
      match CopyCodecSpecific f (Some header) with
      | Some f' => CopyCodecSpecifics f' headers'
      | None => None
      end
  end.

(** *** VerifyAndAllocate *)

Definition VerifyAndAllocate (f : VCMEncodedFrame) (minimumSize : nat)
    : VCMEncodedFrame :=
  let old_capacity := capacity (encoded_data_ f) in
  if Nat.ltb old_capacity minimumSize
  then set_encoded_data f (Allocate (encoded_data_ f) minimumSize)
  else f.

Definition VerifyAndAllocates (f : VCMEncodedFrame) (sizes : list nat)
    : VCMEncodedFrame :=
  fold_left VerifyAndAllocate sizes f.

(** *** What the properties are stated with *)

(** Every member but [_codecSpecificInfo] and the spatial index is the
    same in [f] and [f']. *)
Definition same_outside_codec_info (f f' : VCMEncodedFrame) : Prop :=
  timestamp_rtp_ f' = timestamp_rtp_ f
  /\ _frameType f' = _frameType f
  /\ _encodedWidth f' = _encodedWidth f
  /\ _encodedHeight f' = _encodedHeight f
  /\ _completeFrame f' = _completeFrame f
  /\ size_ f' = size_ f
  /\ encoded_data_ f' = encoded_data_ f
  /\ rotation_ f' = rotation_ f
  /\ content_type_ f' = content_type_ f
  /\ timing_flags f' = timing_flags f
  /\ _renderTimeMs f' = _renderTimeMs f
  /\ _payloadType f' = _payloadType f
  /\ _missingFrame f' = _missingFrame f
  /\ _codec f' = _codec f.

(** The codec type that a header of codec [c] leaves in the frame. *)
Definition codecType_for (c : VideoCodecType) : VideoCodecType :=
  match c with
  | kVideoCodecVP8 => kVideoCodecVP8
  | kVideoCodecVP9 => kVideoCodecVP9
  | kVideoCodecH264 => kVideoCodecH264
  | _ => kVideoCodecGeneric
  end.

(** The spatial index that a header carries: it is a VP9 header whose
    [spatial_idx] is not [kNoSpatialIdx]. *)
Definition carried_spatial_index (header : option RTPVideoHeader)
    : option Z :=
  match header with
  | Some header =>
      match codec header, video_type_header header with
      | kVideoCodecVP9, HeaderVP9 vp9_header =>
          if RTPVideoHeaderVP9.spatial_idx vp9_header =? kNoSpatialIdx
          then None
          else Some (RTPVideoHeaderVP9.spatial_idx vp9_header)
      | _, _ => None
      end
  | None => None
  end.

(** The arrays that a VP9 header makes the code copy fit in their source
    and in their destination. *)
Definition VP9_copies_in_range (old : CodecSpecificInfoVP9.t)
    (vp9_header : RTPVideoHeaderVP9.t) : Prop :=
  (RTPVideoHeaderVP9.num_ref_pics vp9_header = 0
   \/ RTPVideoHeaderVP9.num_ref_pics vp9_header
       <= length (RTPVideoHeaderVP9.pid_diff vp9_header)
      /\ RTPVideoHeaderVP9.num_ref_pics vp9_header
         <= length (CodecSpecificInfoVP9.p_diff old))%nat
  /\ (RTPVideoHeaderVP9.ss_data_available vp9_header = true ->
      RTPVideoHeaderVP9.spatial_layer_resolution_present vp9_header = true ->
      let n := RTPVideoHeaderVP9.num_spatial_layers vp9_header in
      (n = 0
       \/ (n <= length (RTPVideoHeaderVP9.width vp9_header)
           /\ n <= length (CodecSpecificInfoVP9.width old))
          /\ (n <= length (RTPVideoHeaderVP9.height vp9_header)
              /\ n <= length (CodecSpecificInfoVP9.height old)))%nat).

(** The last header of [vs], in the order of arrival, whose member [get]
    is not the constant [absent]. *)
Definition last_present {V} (absent : Z) (get : V -> Z) (vs : list V)
    : option V :=
  find (fun v => negb (get v =? absent)) (rev vs).

(** The packets of a frame of codec [c] with the headers [vs]. *)
Definition packets_of {V} (c : VideoCodecType)
    (alternative : V -> RTPVideoTypeHeader)
    (headers : list RTPVideoHeader) (vs : list V) : Prop :=
  Forall2 (fun header v => codec header = c
                           /\ video_type_header header = alternative v)
          headers vs.

End Frame.

End EncodedFrame.

(** ** Concrete frames

    Frames and packets on which the model of the encoded frame is run.
    The group of frames is a list that [CopyGofInfoVP9] copies as a
    whole, an index is absent when it is 255 (a key index when it is -1),
    a member of the union that was not the last one written reads as
    zeros, and a buffer is its capacity. *)
Module Frames.
Import EncodedFrame.

Definition reference_gof : Vp9Globals :=
  {| GofInfoVP9 := list Z; CopyGofInfoVP9 := fun dst src => src |}.
#[local] Existing Instance reference_gof.

Definition zero_VP9 : CodecSpecificInfoVP9.t :=
  {| CodecSpecificInfoVP9.inter_pic_predicted := false;
     CodecSpecificInfoVP9.flexible_mode := false;
     CodecSpecificInfoVP9.num_ref_pics := 0;
     CodecSpecificInfoVP9.p_diff := [0; 0; 0];
     CodecSpecificInfoVP9.ss_data_available := false;
     CodecSpecificInfoVP9.temporal_idx := 0;
     CodecSpecificInfoVP9.temporal_up_switch := false;
     CodecSpecificInfoVP9.inter_layer_predicted := false;
     CodecSpecificInfoVP9.gof_idx := 0;
     CodecSpecificInfoVP9.num_spatial_layers := 0;
     CodecSpecificInfoVP9.spatial_layer_resolution_present := false;
     CodecSpecificInfoVP9.width := [0; 0];
     CodecSpecificInfoVP9.height := [0; 0];
     CodecSpecificInfoVP9.gof := [] |}.

Definition reference_declarations : Declarations :=
  {| kNoTemporalIdx := 255;
     kNoKeyIdx := -1;
     kNoSpatialIdx := 255;
     kNoGofIdx := 255;
     kInvalid := 255;
     reinterpret_VP8 := fun _ =>
       {| CodecSpecificInfoVP8.nonReference := false;
          CodecSpecificInfoVP8.temporalIdx := 0;
          CodecSpecificInfoVP8.layerSync := false;
          CodecSpecificInfoVP8.keyIdx := 0 |};
     reinterpret_VP9 := fun _ => zero_VP9;
     reinterpret_H264 := fun _ =>
       {| CodecSpecificInfoH264.temporal_idx := 0;
          CodecSpecificInfoH264.base_layer_sync := false;
          CodecSpecificInfoH264.idr_frame := false |};
     EncodedImageBuffer := nat;
     capacity := fun b => b;
     Allocate := fun _ n => n |}.
#[local] Existing Instance reference_declarations.

(** A frame that holds the last packet of a VP9 frame: temporal layer 2,
    spatial layer 1, reference differences 4, 5 and 6. *)
Definition used_VP9 : CodecSpecificInfoVP9.t :=
  {| CodecSpecificInfoVP9.inter_pic_predicted := true;
     CodecSpecificInfoVP9.flexible_mode := true;
     CodecSpecificInfoVP9.num_ref_pics := 3;
     CodecSpecificInfoVP9.p_diff := [4; 5; 6];
     CodecSpecificInfoVP9.ss_data_available := false;
     CodecSpecificInfoVP9.temporal_idx := 2;
     CodecSpecificInfoVP9.temporal_up_switch := true;
     CodecSpecificInfoVP9.inter_layer_predicted := true;
     CodecSpecificInfoVP9.gof_idx := 3;
     CodecSpecificInfoVP9.num_spatial_layers := 2;
     CodecSpecificInfoVP9.spatial_layer_resolution_present := true;
     CodecSpecificInfoVP9.width := [640; 1280];
     CodecSpecificInfoVP9.height := [360; 720];
     CodecSpecificInfoVP9.gof := [0; 1] |}.

Definition used_frame : VCMEncodedFrame :=
  {| timestamp_rtp_ := 90000; spatial_index_ := Some 1;
     _frameType := kVideoFrameOther 0;
     _encodedWidth := 1280; _encodedHeight := 720;
     _completeFrame := true; size_ := 12; encoded_data_ := 15%nat;
     rotation_ := kVideoRotation_0; content_type_ := UNSPECIFIED;
     timing_flags := 0; _renderTimeMs := 17; _payloadType := 98;
     _missingFrame := false;
     _codecSpecificInfo :=
       {| codecType := kVideoCodecVP9; codecSpecific := VP9 used_VP9 |};
     _codec := kVideoCodecVP9 |}.

Definition no_marking : FrameMarking.t :=
  {| FrameMarking.temporal_id := 255;
     FrameMarking.base_layer_sync := false;
     FrameMarking.independent_frame := false |}.

(** Three packets of a VP8 frame: the first carries the temporal index 2,
    the second the key index 5, the third neither. *)
Definition vp8_headers : list RTPVideoHeaderVP8.t :=
  [ {| RTPVideoHeaderVP8.nonReference := false;
       RTPVideoHeaderVP8.temporalIdx := 2;
       RTPVideoHeaderVP8.layerSync := true;
       RTPVideoHeaderVP8.keyIdx := -1 |};
    {| RTPVideoHeaderVP8.nonReference := false;
       RTPVideoHeaderVP8.temporalIdx := 255;
       RTPVideoHeaderVP8.layerSync := false;
       RTPVideoHeaderVP8.keyIdx := 5 |};
    {| RTPVideoHeaderVP8.nonReference := true;
       RTPVideoHeaderVP8.temporalIdx := 255;
       RTPVideoHeaderVP8.layerSync := false;
       RTPVideoHeaderVP8.keyIdx := -1 |} ].

Definition first_vp8_header : RTPVideoHeaderVP8.t :=
  match vp8_headers with
  | v :: _ => v
  | [] =>
      {| RTPVideoHeaderVP8.nonReference := false;
         RTPVideoHeaderVP8.temporalIdx := 0;
         RTPVideoHeaderVP8.layerSync := false;
         RTPVideoHeaderVP8.keyIdx := 0 |}
  end.

Definition vp8_packet (v : RTPVideoHeaderVP8.t) : RTPVideoHeader :=
  {| codec := kVideoCodecVP8; video_type_header := HeaderVP8 v;
     frame_marking := no_marking |}.

Definition vp8_packets : list RTPVideoHeader := map vp8_packet vp8_headers.

(** A packet that announces VP8 and carries no VP8 header. *)
Definition mismatched_packet : RTPVideoHeader :=
  {| codec := kVideoCodecVP8; video_type_header := monostate;
     frame_marking := no_marking |}.

(** Two packets of a VP9 frame: the first carries the spatial index 1,
    two reference differences and the resolution of one spatial layer,
    the second the temporal index 1 and one reference difference. *)
Definition vp9_headers : list RTPVideoHeaderVP9.t :=
  [ {| RTPVideoHeaderVP9.inter_pic_predicted := true;
       RTPVideoHeaderVP9.flexible_mode := false;
       RTPVideoHeaderVP9.num_ref_pics := 2;
       RTPVideoHeaderVP9.pid_diff := [1; 2; 3];
       RTPVideoHeaderVP9.ss_data_available := true;
       RTPVideoHeaderVP9.temporal_idx := 255;
       RTPVideoHeaderVP9.temporal_up_switch := false;
       RTPVideoHeaderVP9.spatial_idx := 1;
       RTPVideoHeaderVP9.inter_layer_predicted := true;
       RTPVideoHeaderVP9.gof_idx := 255;
       RTPVideoHeaderVP9.num_spatial_layers := 1;
       RTPVideoHeaderVP9.spatial_layer_resolution_present := true;
       RTPVideoHeaderVP9.width := [320; 0];
       RTPVideoHeaderVP9.height := [180; 0];
       RTPVideoHeaderVP9.gof := [7] |};
    {| RTPVideoHeaderVP9.inter_pic_predicted := false;
       RTPVideoHeaderVP9.flexible_mode := false;
       RTPVideoHeaderVP9.num_ref_pics := 1;
       RTPVideoHeaderVP9.pid_diff := [9; 0; 0];
       RTPVideoHeaderVP9.ss_data_available := false;
       RTPVideoHeaderVP9.temporal_idx := 1;
       RTPVideoHeaderVP9.temporal_up_switch := false;
       RTPVideoHeaderVP9.spatial_idx := 255;
       RTPVideoHeaderVP9.inter_layer_predicted := false;
       RTPVideoHeaderVP9.gof_idx := 255;
       RTPVideoHeaderVP9.num_spatial_layers := 0;
       RTPVideoHeaderVP9.spatial_layer_resolution_present := false;
       RTPVideoHeaderVP9.width := [0; 0];
       RTPVideoHeaderVP9.height := [0; 0];
       RTPVideoHeaderVP9.gof := [] |} ].

Definition vp9_packet (v : RTPVideoHeaderVP9.t) : RTPVideoHeader :=
  {| codec := kVideoCodecVP9; video_type_header := HeaderVP9 v;
     frame_marking := no_marking |}.

Definition vp9_packets : list RTPVideoHeader := map vp9_packet vp9_headers.

Definition first_vp9_header : RTPVideoHeaderVP9.t :=
  match vp9_headers with
  | v :: _ => v
  | [] =>
      {| RTPVideoHeaderVP9.inter_pic_predicted := false;
         RTPVideoHeaderVP9.flexible_mode := false;
         RTPVideoHeaderVP9.num_ref_pics := 0;
         RTPVideoHeaderVP9.pid_diff := [];
         RTPVideoHeaderVP9.ss_data_available := false;
         RTPVideoHeaderVP9.temporal_idx := 0;
         RTPVideoHeaderVP9.temporal_up_switch := false;
         RTPVideoHeaderVP9.spatial_idx := 0;
         RTPVideoHeaderVP9.inter_layer_predicted := false;
         RTPVideoHeaderVP9.gof_idx := 0;
         RTPVideoHeaderVP9.num_spatial_layers := 0;
         RTPVideoHeaderVP9.spatial_layer_resolution_present := false;
         RTPVideoHeaderVP9.width := [];
         RTPVideoHeaderVP9.height := [];
         RTPVideoHeaderVP9.gof := [] |}
  end.

(** A packet of an H264 frame whose frame marking carries the temporal
    layer 1. *)
Definition h264_packet : RTPVideoHeader :=
  {| codec := kVideoCodecH264; video_type_header := HeaderOther 0;
     frame_marking :=
       {| FrameMarking.temporal_id := 1;
          FrameMarking.base_layer_sync := true;
          FrameMarking.independent_frame := false |} |}.

(** The frame of a call that returns. *)
Definition frame_after (f : VCMEncodedFrame)
    (r : option VCMEncodedFrame) : VCMEncodedFrame :=
  match r with Some f' => f' | None => f end.

End Frames.

(* ===================================================================== *)
(** * Part II: properties                                                 *)
(* ===================================================================== *)

(** ** binary32 facts *)

Lemma SFcompare_antisym (a b : float) (c : comparison) :
  SFcompare a b = Some c -> SFcompare b a = Some (CompOpp c).
Proof.
  destruct a as [sa | sa | | sa ma ea], b as [sb | sb | | sb mb eb];
    cbn; try discriminate; intros [= <-]; f_equal;
    try reflexivity;
    try (destruct sa; reflexivity);
    try (destruct sb; reflexivity);
    try (destruct sa, sb; reflexivity).
  rewrite (Z.compare_antisym ea eb).
  change PosDef.Pos.compare_cont with Pos.compare_cont.
  destruct sa, sb; cbn; try reflexivity;
    destruct (ea ?= eb)%Z; cbn; try reflexivity;
    rewrite (Pos.compare_cont_antisym ma mb Eq); reflexivity.
Qed.

Lemma SFcompare_None (a b : float) :
  SFcompare a b = None -> F32.is_nan a = true \/ F32.is_nan b = true.
Proof.
  destruct a as [sa | sa | | sa ma ea], b as [sb | sb | | sb mb eb];
    cbn; intros H; try discriminate; auto.
Qed.

Lemma F32_not_leb_geb (a b : float) :
  F32.is_nan a = false -> F32.is_nan b = false ->
  F32.leb a b = false -> F32.leb b a = true.
Proof.
  intros Ha Hb. unfold F32.leb.
  destruct (SFcompare a b) as [c |] eqn:E.
  - rewrite (SFcompare_antisym _ _ _ E). destruct c; cbn; congruence.
  - apply SFcompare_None in E. destruct E; congruence.
Qed.

Lemma F32_not_geb_leb (a b : float) :
  F32.is_nan a = false -> F32.is_nan b = false ->
  F32.geb a b = false -> F32.leb a b = true.
Proof.
  intros Ha Hb. unfold F32.geb, F32.leb.
  destruct (SFcompare a b) as [c |] eqn:E.
  - destruct c; cbn; congruence.
  - apply SFcompare_None in E. destruct E; congruence.
Qed.


(** Subtracting a zero of either sign changes nothing but, possibly, the
    sign of a zero. *)
Lemma F32_sub_zero (a z : float) :
  F32.is_zero z = true -> F32_same (F32.sub a z) a.
Proof.
  destruct z as [sz | | |]; try discriminate. intros _. unfold F32.sub.
  destruct a as [sa | sa | | sa ma ea]; cbn.
  - destruct sa, sz; cbn; (left; reflexivity) || (right; split; reflexivity).
  - left; reflexivity.
  - left; reflexivity.
  - left; reflexivity.
Qed.

Lemma F32_sub_pos_zero (a : float) : F32.sub a F32.zero = a.
Proof. destruct a as [[|] | | |]; reflexivity. Qed.

Lemma F32_mul_zero_l (z k : float) :
  F32.is_zero z = true -> F32.is_finite_nonneg k = true ->
  F32.is_zero (F32.mul z k) = true.
Proof.
  destruct z as [sz | | |]; try discriminate. intros _.
  destruct k as [[|] | | | [|] mk ek]; try discriminate; reflexivity.
Qed.

Lemma F32_mul_zero_r (z k : float) :
  F32.is_zero z = true -> F32.is_finite_nonneg k = true ->
  F32.is_zero (F32.mul k z) = true.
Proof.
  destruct z as [sz | | |]; try discriminate. intros _.
  destruct k as [[|] | | | [|] mk ek]; try discriminate; reflexivity.
Qed.

Lemma F32_mul_comm (a b : float) : F32.mul a b = F32.mul b a.
Proof.
  unfold F32.mul.
  destruct a as [sa | sa | | sa ma ea], b as [sb | sb | | sb mb eb];
    cbn; try reflexivity; try (rewrite xorb_comm; reflexivity).
  rewrite xorb_comm, Pos.mul_comm, Z.add_comm. reflexivity.
Qed.

(** ** The misadjustment estimator *)

Lemma wrap32_small (z : Z) : INT_MIN <= z <= INT_MAX -> wrap32 z = z.
Proof.
  unfold INT_MIN, INT_MAX, wrap32. intros H.
  rewrite Z.mod_small; lia.
Qed.

Section EstimatorProperties.
Context {K : Aec3Common}.
Local Open Scope f32_scope.

(** A call that does not complete the window only accumulates. *)
Lemma Update_accumulates (est : FilterMisadjustmentEstimator)
    (output : SubtractorOutput) :
  wrap32 (n_blocks_acum_ est + 1) <> n_blocks_ ->
  Update est output =
    {| n_blocks_acum_ := wrap32 (n_blocks_acum_ est + 1);
       e2_acum_ := e2_acum_ est + e2_main output;
       y2_acum_ := y2_acum_ est + y2 output;
       inv_misadjustment_ := inv_misadjustment_ est;
       overhang_ := overhang_ est |}.
Proof.
  intros H. unfold Update.
  destruct (Z.eqb_spec (wrap32 (n_blocks_acum_ est + 1)) n_blocks_) as [E | E];
    [contradiction | reflexivity].
Qed.

(** The state three calls after the start of a window. *)
Lemma UpdateAll_three (est : FilterMisadjustmentEstimator)
    (o1 o2 o3 : SubtractorOutput) :
  n_blocks_acum_ est = 0%Z ->
  UpdateAll est [o1; o2; o3] =
    {| n_blocks_acum_ := 3;
       e2_acum_ := accumulated_e2 est [o1; o2; o3];
       y2_acum_ := accumulated_y2 est [o1; o2; o3];
       inv_misadjustment_ := inv_misadjustment_ est;
       overhang_ := overhang_ est |}.
Proof.
  intros H0. unfold UpdateAll, accumulated_e2, accumulated_y2. cbn [fold_left].
  rewrite (Update_accumulates est o1) by (rewrite H0; discriminate).
  rewrite H0.
  rewrite Update_accumulates by (cbn; discriminate). cbn [n_blocks_acum_].
  rewrite Update_accumulates by (cbn; discriminate). reflexivity.
Qed.

Lemma UpdateAll_snoc (est : FilterMisadjustmentEstimator)
    (outputs : list SubtractorOutput) (o : SubtractorOutput) :
  UpdateAll est (outputs ++ [o]) = Update (UpdateAll est outputs) o.
Proof. unfold UpdateAll. rewrite fold_left_app. reflexivity. Qed.

Lemma length_4 {A} (l : list A) :
  length l = 4%nat -> exists a b c d, l = [a; b; c; d].
Proof.
  destruct l as [| a [| b [| c [| d [| ? ?]]]]]; try discriminate.
  intros _. exists a, b, c, d. reflexivity.
Qed.

(** The fourth call evaluates the window on what the four calls have
    accumulated, and clears the accumulators. *)
Lemma UpdateAll_window (est : FilterMisadjustmentEstimator)
    (window : list SubtractorOutput) :
  n_blocks_acum_ est = 0%Z -> length window = 4%nat ->
  let e2 := accumulated_e2 est window in
  let y2a := accumulated_y2 est window in
  let overhang :=
    if e2 >? e2_divergence then 4%Z
    else Z.max (wrap32 (overhang_ est - 1)) 0 in
  UpdateAll est window =
    {| n_blocks_acum_ := 0; e2_acum_ := F32.zero; y2_acum_ := F32.zero;
       inv_misadjustment_ :=
         if y2a >? y2_floor then
           if (e2 / y2a <? inv_misadjustment_ est) || (overhang >? 0)%Z
           then inv_misadjustment_ est
                + F32.lit_0_1 * (e2 / y2a - inv_misadjustment_ est)
           else inv_misadjustment_ est
         else inv_misadjustment_ est;
       overhang_ := if y2a >? y2_floor then overhang else overhang_ est |}.
Proof.
  intros H0 H4. destruct (length_4 _ H4) as (o1 & o2 & o3 & o4 & ->).
  rewrite (UpdateAll_snoc est [o1; o2; o3] o4 : UpdateAll est [o1; o2; o3; o4] = _).
  rewrite (UpdateAll_three est o1 o2 o3 H0).
  unfold Update. cbn -[F32.add F32.div F32.mul F32.sub F32.ltb F32.gtb
                        y2_floor e2_divergence wrap32 Z.max].
  change (wrap32 4 =? n_blocks_)%Z with true. cbn iota.
  destruct (_ >? y2_floor); [| reflexivity].
  destruct (_ || _); reflexivity.
Qed.

(** The overhang counter stays in the range [0..4]. *)
Lemma Update_overhang_range (est : FilterMisadjustmentEstimator)
    (output : SubtractorOutput) :
  (0 <= overhang_ est <= 4)%Z -> (0 <= overhang_ (Update est output) <= 4)%Z.
Proof.
  intros H. unfold Update.
  destruct (_ =? _)%Z; [| exact H].
  destruct (_ >? y2_floor); [| exact H].
  rewrite wrap32_small by (unfold INT_MIN, INT_MAX; lia).
  destruct (_ >? e2_divergence);
    destruct (_ || _); cbn [overhang_]; lia.
Qed.

End EstimatorProperties.

Section EstimatorClaims.
Context {K : Aec3Common} {C : Collaborators}.
Local Open Scope f32_scope.

(** C3.  At the end of a 4-block accumulation window whose accumulated
    [y2] is above the floor [4 * 200^2 * kBlockSize]: the overhang
    counter is 4 if the accumulated [e2] exceeds
    [4 * 7500^2 * kBlockSize], and otherwise one less than before but not
    below 0; the smoothed estimate becomes
    [inv + 0.1 * (ratio - inv)], with [ratio = e2_acum / y2_acum], exactly
    when [ratio] is below the estimate or the new overhang counter is
    positive, and is left as it was otherwise. *)
Theorem estimator_window_overhang_and_smoothing
    (est : FilterMisadjustmentEstimator) (window : list SubtractorOutput) :
  n_blocks_acum_ est = 0%Z -> length window = 4%nat ->
  (INT_MIN < overhang_ est <= INT_MAX)%Z ->
  let e2 := accumulated_e2 est window in
  let y2a := accumulated_y2 est window in
  let ratio := e2 / y2a in
  let est' := UpdateAll est window in
  (y2a >? y2_floor) = true ->
  overhang_ est' =
    (if e2 >? e2_divergence then 4%Z else Z.max (overhang_ est - 1)%Z 0%Z)
  /\ inv_misadjustment_ est' =
       (if (ratio <? inv_misadjustment_ est) || (overhang_ est' >? 0)%Z
        then inv_misadjustment_ est
             + F32.lit_0_1 * (ratio - inv_misadjustment_ est)
        else inv_misadjustment_ est).
Proof.
  intros H0 H4 Hov e2 y2a ratio est' Hfloor.
  unfold est'. rewrite (UpdateAll_window est window H0 H4).
  fold e2 y2a. rewrite Hfloor. cbn [overhang_ inv_misadjustment_].
  rewrite wrap32_small by (unfold INT_MIN, INT_MAX in *; lia).
  split; reflexivity.
Qed.

(** C4, amended.  From a state at the start of an accumulation window,
    4 calls of [Update] whose accumulated [y2] does not exceed the floor
    [4 * 200^2 * kBlockSize] leave the smoothed estimate as it was, so an
    adjustment is signalled afterwards exactly if one was signalled
    before; the accumulators and the block counter are zero after the
    fourth call. *)
Theorem estimator_quiet_window_aligned
    (est : FilterMisadjustmentEstimator) (window : list SubtractorOutput) :
  n_blocks_acum_ est = 0%Z -> length window = 4%nat ->
  (accumulated_y2 est window >? y2_floor) = false ->
  let est' := UpdateAll est window in
  inv_misadjustment_ est' = inv_misadjustment_ est
  /\ IsAdjustmentNeeded est' = IsAdjustmentNeeded est
  /\ e2_acum_ est' = F32.zero
  /\ y2_acum_ est' = F32.zero
  /\ n_blocks_acum_ est' = 0%Z.
Proof.
  intros H0 H4 Hfloor est'.
  unfold est', IsAdjustmentNeeded.
  rewrite (UpdateAll_window est window H0 H4), Hfloor.
  cbn. repeat split; reflexivity.
Qed.

End EstimatorClaims.

Lemma estimator_window_overhang_and_smoothing_witness :
  overhang_ (UpdateAll (K := Reference.common) Blocks.fresh_estimator
                       Blocks.diverged_window) = 4%Z
  /\ inv_misadjustment_
       (UpdateAll (K := Reference.common) Blocks.fresh_estimator
                  Blocks.diverged_window) = F32.lit_0_1.
Proof.
  apply (estimator_window_overhang_and_smoothing
           (K := Reference.common) Blocks.fresh_estimator
           Blocks.diverged_window).
  - reflexivity.
  - reflexivity.
  - split; [reflexivity | discriminate].
  - reflexivity.
Defined.

Lemma estimator_quiet_window_aligned_witness :
  let est' :=
    UpdateAll (K := Reference.common) Blocks.fresh_estimator
              Blocks.silent_window in
  inv_misadjustment_ est' = F32.zero
  /\ IsAdjustmentNeeded (C := reference_collaborators) est' = false
  /\ e2_acum_ est' = F32.zero
  /\ y2_acum_ est' = F32.zero
  /\ n_blocks_acum_ est' = 0%Z.
Proof.
  apply (estimator_quiet_window_aligned
           (K := Reference.common) (C := reference_collaborators)
           Blocks.fresh_estimator Blocks.silent_window);
    reflexivity.
Defined.

(** C4 as it is stated fails for a starting state in the middle of a
    window.  [Blocks.mid_window_estimator] has accumulated two blocks; the
    four silent blocks that follow add no [y2] at all, but the second of
    them completes the window the earlier blocks began, above the floor,
    and the smoothed estimate moves from [0.1] to [0.09]; after the fourth
    call the block counter is 2.  And from the start of a window, a state
    whose estimate asks for an adjustment ([Blocks.alarmed_estimator], with
    the reference threshold) still asks for it after four silent blocks. *)
Lemma estimator_quiet_window_any_start_fails :
  let K := Reference.common in
  let C := reference_collaborators in
  let est := Blocks.mid_window_estimator in
  let est' := UpdateAll est Blocks.silent_window in
  (fold_left (fun a o => a + y2 o)%f32 Blocks.silent_window F32.zero
     >? y2_floor)%f32 = false
  /\ n_blocks_acum_ est = 2%Z
  /\ inv_misadjustment_ est = F32.lit_0_1
  /\ inv_misadjustment_ est' <> inv_misadjustment_ est
  /\ n_blocks_acum_ est' <> 0%Z
  /\ n_blocks_acum_ Blocks.alarmed_estimator = 0%Z
  /\ IsAdjustmentNeeded
       (UpdateAll Blocks.alarmed_estimator Blocks.silent_window) = true.
Proof.
  cbv zeta. repeat split; try reflexivity; vm_compute; discriminate.
Qed.

(** ** The loop over the channels *)

Section ProcessStructure.
Context {K : Aec3Common} {C : Collaborators}.

Variables (X2_main X2_shadow : list float) (render_buffer : RenderBuffer)
          (render_signal_analyzer : RenderSignalAnalyzer) (aec_state : AecState).

Local Abbreviation channel :=
  (ProcessChannel X2_main X2_shadow render_buffer render_signal_analyzer
                  aec_state).
Local Abbreviation loop :=
  (ProcessChannels X2_main X2_shadow render_buffer render_signal_analyzer
                   aec_state).

(** Every channel is processed by the loop body, on its own capture
    block and output entry. *)
Lemma ProcessChannels_nth (cs : list ChannelState) :
  forall capture outputs cs' outputs' ch c,
    loop cs capture outputs = Some (cs', outputs') ->
    nth_error cs ch = Some c ->
    exists y output,
      nth_error capture ch = Some y /\ nth_error outputs ch = Some output
      /\ length y = kBlockSize
      /\ nth_error cs' ch = Some (fst (channel c y output))
      /\ nth_error outputs' ch = Some (snd (channel c y output)).
Proof.
  induction cs as [| c1 cs IH]; intros capture outputs cs' outputs' ch c Hloop Hch.
  - destruct ch; discriminate.
  - destruct capture as [| y1 capture]; [discriminate |].
    destruct outputs as [| o1 outputs]; [discriminate |].
    cbn [ProcessChannels] in Hloop.
    destruct (Nat.eqb_spec kBlockSize (length y1)) as [Hlen | Hlen];
      [| discriminate].
    destruct (channel c1 y1 o1) as [c1' o1'] eqn:E1.
    destruct (loop cs capture outputs) as [[cs2 outs2] |] eqn:E2;
      [| discriminate].
    injection Hloop as <- <-.
    destruct ch as [| ch].
    + injection Hch as <-. exists y1, o1. rewrite E1. cbn. auto.
    + cbn in Hch. destruct (IH _ _ _ _ _ _ E2 Hch) as (y & o & H).
      exists y, o. exact H.
Qed.

Lemma ProcessChannels_length (cs : list ChannelState) :
  forall capture outputs cs' outputs',
    loop cs capture outputs = Some (cs', outputs') ->
    length cs' = length cs /\ length outputs' = length outputs.
Proof.
  induction cs as [| c1 cs IH]; intros capture outputs cs' outputs' Hloop.
  - injection Hloop as <- <-. auto.
  - destruct capture as [| y1 capture]; [discriminate |].
    destruct outputs as [| o1 outputs]; [discriminate |].
    cbn [ProcessChannels] in Hloop.
    destruct (Nat.eqb kBlockSize (length y1)); [| discriminate].
    destruct (channel c1 y1 o1) as [c1' o1'].
    destruct (loop cs capture outputs) as [[cs2 outs2] |] eqn:E2;
      [| discriminate].
    injection Hloop as <- <-. destruct (IH _ _ _ _ E2). cbn. auto.
Qed.

(** The loop runs to its end when every channel has a capture block of
    [kBlockSize] samples and an output entry. *)
Lemma ProcessChannels_returns (cs : list ChannelState) :
  forall capture outputs,
    length capture = length cs -> (length cs <= length outputs)%nat ->
    Forall (fun y => length y = kBlockSize) capture ->
    exists r, loop cs capture outputs = Some r.
Proof.
  induction cs as [| c1 cs IH]; intros capture outputs Hcap Hout Hy.
  - eexists. reflexivity.
  - destruct capture as [| y1 capture]; [discriminate |].
    destruct outputs as [| o1 outputs]; [cbn in Hout; lia |].
    inversion Hy as [| ? ? Hy1 Hy']; subst.
    cbn [ProcessChannels]. rewrite Hy1, Nat.eqb_refl.
    destruct (channel c1 y1 o1) as [c1' o1'].
    destruct (IH capture outputs) as [[cs2 outs2] ->]; auto.
    + cbn in Hout. lia.
    + eexists. reflexivity.
Qed.

End ProcessStructure.

Section ProcessProperties.
Context {K : Aec3Common} {C : Collaborators}.


Lemma Process_channel (st st' : Subtractor) render_buffer capture
    render_signal_analyzer aec_state outputs outputs' ch c :
  Process st render_buffer capture render_signal_analyzer aec_state outputs
    = Some (st', outputs') ->
  nth_error (channels st) ch = Some c ->
  exists y output,
    nth_error capture ch = Some y /\ nth_error outputs ch = Some output
    /\ length y = kBlockSize
    /\ let r := ProcessChannel (fst (X2_of st render_buffer))
                               (snd (X2_of st render_buffer))
                               render_buffer render_signal_analyzer
                               aec_state c y output in
       nth_error (channels st') ch = Some (fst r)
       /\ nth_error outputs' ch = Some (snd r).
Proof.
  unfold Process, X2_of. intros HP Hch.
  destruct (negb _); [discriminate |].
  destruct (channels st) as [| c0 cs] eqn:Ecs; [discriminate |].
  destruct (RenderPowers _ _ _) as [X2_main X2_shadow].
  destruct (ProcessChannels _ _ _ _ _ _ _ _) as [[cs' outs] |] eqn:EL;
    [| discriminate].
  injection HP as <- <-. cbn [channels fst snd].
  exact (ProcessChannels_nth _ _ _ _ _ _ _ _ _ _ _ _ EL Hch).
Qed.

(** [Process] returns when its preconditions hold. *)
Lemma Process_returns (st : Subtractor) render_buffer capture
    render_signal_analyzer aec_state outputs :
  channels st <> [] ->
  length capture = num_capture_channels_ st ->
  (num_capture_channels_ st <= length outputs)%nat ->
  Forall (fun y => length y = kBlockSize) capture ->
  exists r,
    Process st render_buffer capture render_signal_analyzer aec_state outputs
      = Some r.
Proof.
  unfold Process, num_capture_channels_. intros Hne Hcap Hout Hy.
  rewrite Hcap, Nat.eqb_refl. cbn [negb].
  destruct (channels st) as [| c0 cs] eqn:Ecs; [contradiction |].
  destruct (RenderPowers _ _ _) as [X2_main X2_shadow].
  destruct (ProcessChannels_returns X2_main X2_shadow render_buffer
              render_signal_analyzer aec_state (c0 :: cs) capture outputs)
    as [[cs' outs] ->]; auto.
  eexists. reflexivity.
Qed.

End ProcessProperties.

(** ** The two paths of the main filter and of the shadow filter *)

Section ChannelPaths.
Context {K : Aec3Common} {C : Collaborators}.
Local Open Scope f32_scope.

Variables (X2_main X2_shadow : list float) (render_buffer : RenderBuffer)
          (render_signal_analyzer : RenderSignalAnalyzer) (aec_state : AecState).
Variables (c : ChannelState) (y : list float) (output : SubtractorOutput).

Local Abbreviation output2 := (FormOutputs render_buffer c y output).
Local Abbreviation est1 :=
  (Update (filter_misadjustment_estimator_ c) output2).
Local Abbreviation zero_gain :=
  {| re := fill kFftLengthBy2Plus1 F32.zero;
     im := fill kFftLengthBy2Plus1 F32.zero |}.

(** The correction path: the estimator asks for an adjustment. *)
Lemma ProcessMain_adjusted :
  IsAdjustmentNeeded est1 = true ->
  let scale := GetMisadjustment est1 in
  let scaled :=
    ScaleFilterOutput y scale (e_main output2) (s_main output2) in
  let adapted :=
    AdaptImpulseResponse (ScaleFilter (main_filter_ c) scale) render_buffer
      zero_gain
      (map (fun h_k => h_k * scale) (main_impulse_response_ c)) in
  let E_main' := ZeroPaddedFft (fst scaled) in
  let E_shadow := ZeroPaddedFft (e_shadow output2) in
  ProcessMain X2_main render_buffer render_signal_analyzer aec_state c y output
  = {| ms_main_filter := fst adapted; ms_G_main := G_main_ c;
       ms_estimator := Reset est1;
       ms_frequency_response :=
         ComputeFrequencyResponse (fst adapted) (main_frequency_response_ c);
       ms_impulse_response := snd adapted;
       ms_adjusted := true; ms_G := zero_gain; ms_E_shadow := E_shadow;
       ms_output :=
         {| s_main := snd scaled; s_shadow := s_shadow output2;
            e_main := fst scaled; e_shadow := e_shadow output2;
            E_main := E_main';
            E2_main := Spectrum E_main'; E2_shadow := Spectrum E_shadow;
            e2_main := e2_main output2; e2_shadow := e2_shadow output2;
            y2 := y2 output2 |} |}.
Proof.
  intros Hneeded. unfold ProcessMain.
  rewrite Hneeded. cbv zeta.
  destruct (ScaleFilterOutput _ _ _ _) as [e' s']. cbn [negb fst snd].
  destruct (AdaptImpulseResponse _ _ _ _) as [main2 h2]. reflexivity.
Qed.

(** The regular path: the gain of the main filter is computed. *)
Lemma ProcessMain_regular :
  IsAdjustmentNeeded est1 = false ->
  let E_main' := ZeroPaddedFft (e_main output2) in
  let E_shadow := ZeroPaddedFft (e_shadow output2) in
  let output3 :=
    {| s_main := s_main output2; s_shadow := s_shadow output2;
       e_main := e_main output2; e_shadow := e_shadow output2;
       E_main := E_main';
       E2_main := Spectrum E_main'; E2_shadow := Spectrum E_shadow;
       e2_main := e2_main output2; e2_shadow := e2_shadow output2;
       y2 := y2 output2 |} in
  let gain :=
    MainGain_Compute (G_main_ c) X2_main render_signal_analyzer output3
      (ComputeErl (main_frequency_response_ c))
      (SizePartitions (main_filter_ c)) (SaturatedCapture aec_state) in
  let adapted :=
    AdaptImpulseResponse (main_filter_ c) render_buffer (snd gain)
      (main_impulse_response_ c) in
  ProcessMain X2_main render_buffer render_signal_analyzer aec_state c y output
  = {| ms_main_filter := fst adapted; ms_G_main := fst gain;
       ms_estimator := est1;
       ms_frequency_response :=
         ComputeFrequencyResponse (fst adapted) (main_frequency_response_ c);
       ms_impulse_response := snd adapted;
       ms_adjusted := false; ms_G := snd gain; ms_E_shadow := E_shadow;
       ms_output := output3 |}.
Proof.
  intros Hneeded. unfold ProcessMain.
  rewrite Hneeded. cbv zeta. cbn [negb].
  destruct (MainGain_Compute _ _ _ _ _ _ _) as [gm G]. cbn [fst snd].
  destruct (AdaptImpulseResponse _ _ _ _) as [main2 h2]. reflexivity.
Qed.

(** Whatever the path, the energies and the shadow residual of the
    output are those of [FormOutputs]. *)
Lemma ProcessMain_output_kept :
  let m := ProcessMain X2_main render_buffer render_signal_analyzer
                       aec_state c y output in
  e2_main (ms_output m) = e2_main output2
  /\ e2_shadow (ms_output m) = e2_shadow output2
  /\ y2 (ms_output m) = y2 output2
  /\ e_shadow (ms_output m) = e_shadow output2
  /\ s_shadow (ms_output m) = s_shadow output2
  /\ E_main (ms_output m) = ZeroPaddedFft (e_main (ms_output m))
  /\ ms_E_shadow m = ZeroPaddedFft (e_shadow output2).
Proof.
  cbv zeta. destruct (IsAdjustmentNeeded est1) eqn:E.
  - rewrite (ProcessMain_adjusted E). cbn. repeat split; reflexivity.
  - rewrite (ProcessMain_regular E). cbn. repeat split; reflexivity.
Qed.

(** The estimator that [Process] leaves behind never asks for an
    adjustment, as long as the reset estimate does not: an adjustment is
    applied, and the estimator reset, in the block that asks for it. *)
Lemma ProcessMain_estimator_quiet :
  adjustment_needed F32.zero = false ->
  IsAdjustmentNeeded
    (ms_estimator
       (ProcessMain X2_main render_buffer render_signal_analyzer aec_state
                    c y output)) = false.
Proof.
  intros Hzero. destruct (IsAdjustmentNeeded est1) eqn:E.
  - rewrite (ProcessMain_adjusted E). exact Hzero.
  - rewrite (ProcessMain_regular E). exact E.
Qed.

End ChannelPaths.

Section ShadowPaths.
Context {K : Aec3Common} {C : Collaborators}.
Local Open Scope f32_scope.

Variables (X2_shadow : list float) (render_buffer : RenderBuffer)
          (render_signal_analyzer : RenderSignalAnalyzer) (aec_state : AecState).
Variables (c : ChannelState) (m : MainStage).


Lemma ProcessShadow_regular :
  (counted c (ms_output m) < 5)%nat ->
  let gain :=
    ShadowGain_Compute (G_shadow_ c) X2_shadow render_signal_analyzer
      (ms_E_shadow m) (SizePartitions (shadow_filter_ c))
      (SaturatedCapture aec_state) in
  ProcessShadow X2_shadow render_buffer render_signal_analyzer aec_state c m
  = {| ss_counter := counted c (ms_output m);
       ss_filter_before_adapt := shadow_filter_ c;
       ss_G_shadow := fst gain; ss_G := snd gain;
       ss_shadow_filter := Adapt (shadow_filter_ c) render_buffer (snd gain) |}.
Proof.
  intros Hlt. unfold ProcessShadow. fold (counted c (ms_output m)).
  apply Nat.ltb_lt in Hlt. rewrite Hlt. cbv zeta.
  destruct (ShadowGain_Compute _ _ _ _ _ _) as [gs G]. reflexivity.
Qed.

Lemma ProcessShadow_reseed :
  (5 <= counted c (ms_output m))%nat ->
  let seeded := SetFilter (shadow_filter_ c) (GetFilter (ms_main_filter m)) in
  let gain :=
    ShadowGain_Compute (G_shadow_ c) X2_shadow render_signal_analyzer
      (E_main (ms_output m)) (SizePartitions seeded)
      (SaturatedCapture aec_state) in
  ProcessShadow X2_shadow render_buffer render_signal_analyzer aec_state c m
  = {| ss_counter := 0;
       ss_filter_before_adapt := seeded;
       ss_G_shadow := fst gain; ss_G := snd gain;
       ss_shadow_filter := Adapt seeded render_buffer (snd gain) |}.
Proof.
  intros Hge. unfold ProcessShadow. fold (counted c (ms_output m)).
  apply Nat.ltb_ge in Hge. rewrite Hge. cbv zeta.
  destruct (ShadowGain_Compute _ _ _ _ _ _) as [gs G]. reflexivity.
Qed.

(** Between blocks the counter is below 5. *)
Lemma ProcessShadow_counter_bound :
  (ss_counter (ProcessShadow X2_shadow render_buffer render_signal_analyzer
                             aec_state c m) < 5)%nat.
Proof.
  destruct (Nat.lt_ge_cases (counted c (ms_output m)) 5) as [H | H].
  - rewrite (ProcessShadow_regular H). exact H.
  - rewrite (ProcessShadow_reseed H). cbn. lia.
Qed.

End ShadowPaths.

Lemma ProcessChannel_counter_bound {K : Aec3Common} {C : Collaborators}
    X2_main X2_shadow render_buffer render_signal_analyzer aec_state c y output :
  (poor_shadow_filter_counter_
     (fst (ProcessChannel X2_main X2_shadow render_buffer
                          render_signal_analyzer aec_state c y output)) < 5)%nat.
Proof. apply ProcessShadow_counter_bound. Qed.

(** ** Claims on [Process] *)

Section ProcessClaims.
Context {K : Aec3Common} {C : Collaborators}.
Local Open Scope f32_scope.

Variables (st st' : Subtractor) (render_buffer : RenderBuffer)
          (capture : list (list float))
          (render_signal_analyzer : RenderSignalAnalyzer)
          (aec_state : AecState) (outputs outputs' : list SubtractorOutput).

Hypothesis Process_returned :
  Process st render_buffer capture render_signal_analyzer aec_state outputs
    = Some (st', outputs').

(** C1, amended.  For every channel, the counter of consecutive blocks
    with [e2_main < e2_shadow] goes up by 1 on such a block and to 0 on
    any other.  While it stays below 5 the shadow gain is computed from
    the shadow filter's own error spectrum.  On the block where it
    reaches 5 it is reset to 0, the coefficient state of the shadow
    filter is overwritten with that of the main filter by
    [SetFilter(GetFilter())] (right after the overwrite the coefficients
    are equal), the shadow gain is computed from [E_main], and the
    overwritten shadow filter is then adapted with that gain: when the
    block completes, the shadow filter is the main filter's coefficient
    state after one adaptation step. *)
Theorem shadow_filter_resynchronisation (ch : nat) (c c' : ChannelState)
    (o' : SubtractorOutput) :
  nth_error (channels st) ch = Some c ->
  nth_error (channels st') ch = Some c' ->
  nth_error outputs' ch = Some o' ->
  let X2_shadow := snd (X2_of st render_buffer) in
  let saturated := SaturatedCapture aec_state in
  let counter :=
    if e2_main o' <? e2_shadow o'
    then (poor_shadow_filter_counter_ c + 1)%nat else 0%nat in
  ((counter < 5)%nat ->
   let gain :=
     ShadowGain_Compute (G_shadow_ c) X2_shadow render_signal_analyzer
       (ZeroPaddedFft (e_shadow o')) (SizePartitions (shadow_filter_ c))
       saturated in
   poor_shadow_filter_counter_ c' = counter
   /\ G_shadow_ c' = fst gain
   /\ shadow_filter_ c' = Adapt (shadow_filter_ c) render_buffer (snd gain))
  /\
  ((5 <= counter)%nat ->
   let seeded := SetFilter (shadow_filter_ c) (GetFilter (main_filter_ c')) in
   let gain :=
     ShadowGain_Compute (G_shadow_ c) X2_shadow render_signal_analyzer
       (E_main o') (SizePartitions seeded) saturated in
   poor_shadow_filter_counter_ c' = 0%nat
   /\ G_shadow_ c' = fst gain
   /\ shadow_filter_ c' = Adapt seeded render_buffer (snd gain)
   /\ ((forall f H, GetFilter (SetFilter f H) = H) ->
       GetFilter seeded = GetFilter (main_filter_ c'))).
Proof.
  intros Hc Hc' Ho'.
  destruct (Process_channel _ _ _ _ _ _ _ _ _ _ Process_returned Hc)
    as (y & output & _ & _ & _ & Hr).
  cbv zeta in Hr. destruct Hr as [Hc2 Ho2].
  rewrite Hc' in Hc2. rewrite Ho' in Ho2.
  injection Hc2 as ->. injection Ho2 as ->.
  unfold ProcessChannel. cbn [fst snd].
  set (m := ProcessMain _ _ _ _ c y output).
  destruct (ProcessMain_output_kept (fst (X2_of st render_buffer))
              render_buffer render_signal_analyzer aec_state c y output)
    as (_ & _ & _ & Hes & _ & _ & HEs).
  fold m in Hes, HEs.
  cbn [clamp_e_main e2_main e2_shadow e_shadow E_main
       main_filter_ shadow_filter_ G_shadow_ poor_shadow_filter_counter_].
  fold (counted c (ms_output m)).
  split; intros Hcount.
  - rewrite (ProcessShadow_regular _ render_buffer render_signal_analyzer
               aec_state c m Hcount).
    cbn [ss_counter ss_G_shadow ss_shadow_filter].
    rewrite Hes, <- HEs. repeat split; reflexivity.
  - rewrite (ProcessShadow_reseed _ render_buffer render_signal_analyzer
               aec_state c m Hcount).
    cbn [ss_counter ss_G_shadow ss_shadow_filter].
    repeat split; try reflexivity.
    intros Hlaw. apply Hlaw.
Qed.

End ProcessClaims.

Lemma shadow_filter_resynchronisation_witness :
  let c := Blocks.channel0 Blocks.subtractor_A in
  let c' := Blocks.channel0 (Blocks.state_after Blocks.subtractor_A Blocks.run_A) in
  let o' := Blocks.output0 (Blocks.outputs_after Blocks.run_A) in
  let seeded :=
    @SetFilter reference_collaborators
               (shadow_filter_ c) (GetFilter (main_filter_ c')) in
  poor_shadow_filter_counter_ c' = 0%nat
  /\ shadow_filter_ c' =
       Adapt seeded Blocks.render
             (snd (ShadowGain_Compute (G_shadow_ c)
                     (snd (X2_of Blocks.subtractor_A Blocks.render))
                     tt (E_main o') (SizePartitions seeded) false))
  /\ GetFilter seeded = GetFilter (main_filter_ c').
Proof.
  cbv zeta.
  destruct (shadow_filter_resynchronisation
              (K := Reference.common) (C := reference_collaborators)
              Blocks.subtractor_A
              (Blocks.state_after Blocks.subtractor_A Blocks.run_A)
              Blocks.render Blocks.capture_A tt false [Blocks.blank_output]
              (Blocks.outputs_after Blocks.run_A)
              ltac:(reflexivity)
              0%nat
              (Blocks.channel0 Blocks.subtractor_A)
              (Blocks.channel0
                 (Blocks.state_after Blocks.subtractor_A Blocks.run_A))
              (Blocks.output0 (Blocks.outputs_after Blocks.run_A))
              ltac:(reflexivity) ltac:(reflexivity) ltac:(reflexivity))
    as [_ Hreseed].
  destruct (Hreseed ltac:(vm_compute; apply le_n))
    as (Hcounter & _ & Hshadow & Hsame).
  split; [exact Hcounter | split; [exact Hshadow | apply Hsame; reflexivity]].
Defined.

(** C1 as it is stated fails in its last clause.  In [Blocks.run_A] the
    counter of channel 0 stands at 4 and the main residual has less energy
    than the shadow residual, so this is the block where the counter
    reaches 5: it is reset and the shadow filter is overwritten with the
    main filter; the gain computed from [E_main] is not zero, the shadow
    filter is adapted with it, and when the block completes its
    coefficients differ from those of the main filter (750 against 500 in
    the real part of bin 0). *)
Lemma shadow_equals_main_after_block_fails :
  let c := Blocks.channel0 Blocks.subtractor_A in
  let c' := Blocks.channel0 (Blocks.state_after Blocks.subtractor_A Blocks.run_A) in
  let o' := Blocks.output0 (Blocks.outputs_after Blocks.run_A) in
  length (Blocks.outputs_after Blocks.run_A) = 1%nat
  /\ poor_shadow_filter_counter_ c = 4%nat
  /\ (e2_main o' <? e2_shadow o')%f32 = true
  /\ poor_shadow_filter_counter_ c' = 0%nat
  /\ map (fun Hp => hd F32.zero (re Hp))
         (@GetFilter reference_collaborators (main_filter_ c'))
     = [F32.of_Z 500]
  /\ map (fun Hp => hd F32.zero (re Hp))
         (@GetFilter reference_collaborators (shadow_filter_ c'))
     = [F32.of_Z 750]
  /\ @GetFilter reference_collaborators (shadow_filter_ c')
     <> GetFilter (main_filter_ c').
Proof.
  cbv zeta.
  split; [vm_compute; reflexivity |].
  split; [vm_compute; reflexivity |].
  split; [vm_compute; reflexivity |].
  split; [vm_compute; reflexivity |].
  split; [vm_compute; reflexivity |].
  split; [vm_compute; reflexivity |].
  intros H.
  apply (f_equal (map (fun Hp => hd F32.zero (re Hp)))) in H.
  vm_compute in H. discriminate.
Qed.

(** ** The correction path of [Process] *)

Section CorrectionClaim.
Context {K : Aec3Common} {C : Collaborators}.
Local Open Scope f32_scope.

Lemma FormOutputs_lengths (render_buffer : RenderBuffer) (c : ChannelState)
    (y : list float) (o : SubtractorOutput) :
  length y = kBlockSize -> output_sized o ->
  length (s_main (FormOutputs render_buffer c y o)) = length y
  /\ (length (e_main (FormOutputs render_buffer c y o)) <= length y)%nat.
Proof.
  intros Hy (He & _ & Hs & _). unfold FormOutputs, PredictionError.
  cbn [ComputeMetrics s_main e_main fst snd].
  split.
  - rewrite length_map, length_seq. congruence.
  - unfold transform2, zip_with.
    rewrite length_app, length_map, length_combine, !length_skipn.
    rewrite He, Hy. lia.
Qed.

Lemma ScaleFilterOutput_sized (y e s : list float) (factor : float) :
  length s = length y -> (length e <= length y)%nat ->
  ScaleFilterOutput y factor e s
  = (zip_with F32.sub y (map (fun x => F32.mul factor x) s),
     map (fun x => F32.mul factor x) s).
Proof.
  intros Hs He. unfold ScaleFilterOutput, transform2.
  rewrite <- Hs, firstn_all, skipn_all, app_nil_r.
  rewrite (skipn_all2 e) by lia. rewrite app_nil_r.
  f_equal.
  - f_equal. apply map_ext. intros x. apply F32_mul_comm.
  - apply map_ext. intros x. apply F32_mul_comm.
Qed.

Variables (st st' : Subtractor) (render_buffer : RenderBuffer)
          (capture : list (list float))
          (render_signal_analyzer : RenderSignalAnalyzer)
          (aec_state : AecState) (outputs outputs' : list SubtractorOutput).

Hypothesis Process_returned :
  Process st render_buffer capture render_signal_analyzer aec_state outputs
    = Some (st', outputs').

(** C2.  For every block and channel on which the misadjustment estimator,
    updated with the output of the block, signals that an adjustment is
    needed, with factor [k]: the main filter is [ScaleFilter]ed by [k] and
    every sample of the cached impulse response is multiplied by [k];
    [s_main[i]] becomes [k * s_main[i]] and [e_main[i]] becomes
    [y[i] - s_main[i]] (clamped when the block ends); the estimator is
    reset; no gain is computed by the main gain computer, and the scaled
    main filter is adapted with the gain whose real and imaginary parts
    are all zero. *)
Theorem misadjustment_correction (ch : nat) (c c' : ChannelState)
    (y : list float) (o o' : SubtractorOutput) :
  nth_error (channels st) ch = Some c ->
  nth_error capture ch = Some y ->
  nth_error outputs ch = Some o ->
  output_sized o ->
  nth_error (channels st') ch = Some c' ->
  nth_error outputs' ch = Some o' ->
  let formed := FormOutputs render_buffer c y o in
  let est1 := Update (filter_misadjustment_estimator_ c) formed in
  IsAdjustmentNeeded est1 = true ->
  let k := GetMisadjustment est1 in
  let zero_gain :=
    {| re := fill kFftLengthBy2Plus1 F32.zero;
       im := fill kFftLengthBy2Plus1 F32.zero |} in
  (main_filter_ c', main_impulse_response_ c')
    = AdaptImpulseResponse (ScaleFilter (main_filter_ c) k) render_buffer
        zero_gain (map (fun h_k => h_k * k) (main_impulse_response_ c))
  /\ s_main o' = map (fun s => k * s) (s_main formed)
  /\ e_main o' =
       map (fun a => SafeClamp a (F32.of_Z (-32768)) (F32.of_Z 32767))
           (zip_with F32.sub y (s_main o'))
  /\ filter_misadjustment_estimator_ c' = Reset est1
  /\ G_main_ c' = G_main_ c
  /\ Forall (fun g => g = F32.zero) (re zero_gain ++ im zero_gain).
Proof.
  intros Hc Hy Ho Hsized Hc' Ho' formed est1 Hneeded k zero_gain.
  destruct (Process_channel _ _ _ _ _ _ _ _ _ _ Process_returned Hc)
    as (y0 & o0 & Hy0 & Ho0 & Hlen & Hr).
  rewrite Hy in Hy0. rewrite Ho in Ho0.
  injection Hy0 as <-. injection Ho0 as <-.
  cbv zeta in Hr. destruct Hr as [Hc2 Ho2].
  rewrite Hc' in Hc2. rewrite Ho' in Ho2.
  injection Hc2 as ->. injection Ho2 as ->.
  unfold ProcessChannel. cbn [fst snd].
  rewrite (ProcessMain_adjusted (fst (X2_of st render_buffer)) render_buffer
             render_signal_analyzer aec_state c y o Hneeded).
  fold formed. fold est1. fold k. fold zero_gain.
  destruct (FormOutputs_lengths render_buffer c y o Hlen Hsized)
    as [Hs He]. fold formed in Hs, He.
  rewrite (ScaleFilterOutput_sized y (e_main formed) (s_main formed) k Hs He).
  cbn [ms_main_filter ms_impulse_response ms_estimator ms_G_main ms_output
       clamp_e_main s_main e_main main_filter_ main_impulse_response_
       filter_misadjustment_estimator_ G_main_ fst snd].
  repeat split.
  - destruct (AdaptImpulseResponse _ _ _ _); reflexivity.
  - cbn [zero_gain re im]. apply Forall_app. split;
      apply Forall_forall; intros g Hg; apply repeat_spec in Hg; exact Hg.
Qed.

End CorrectionClaim.

Section CorrectionRun.
#[local] Existing Instance Reference.common.
#[local] Existing Instance reference_collaborators.

Lemma misadjustment_correction_witness :
  let c := Blocks.channel0 Blocks.subtractor_diverging in
  let c' :=
    Blocks.channel0 (Blocks.state_after Blocks.subtractor_diverging
                                        Blocks.run_diverging) in
  let o' := Blocks.output0 (Blocks.outputs_after Blocks.run_diverging) in
  let formed :=
    FormOutputs Blocks.render c (hd [] Blocks.capture_A)
                Blocks.blank_output in
  let est1 := Update (filter_misadjustment_estimator_ c) formed in
  let k := GetMisadjustment est1 in
  IsAdjustmentNeeded est1 = true
  /\ s_main o' = map (fun s => k * s)%f32 (s_main formed)
  /\ filter_misadjustment_estimator_ c' = Reset est1
  /\ G_main_ c' = G_main_ c.
Proof.
  cbv zeta.
  assert (Hneeded :
            IsAdjustmentNeeded (C := reference_collaborators)
              (Update (K := Reference.common)
                 (filter_misadjustment_estimator_
                    (Blocks.channel0 Blocks.subtractor_diverging))
                 (FormOutputs (K := Reference.common)
                    (C := reference_collaborators) Blocks.render
                    (Blocks.channel0 Blocks.subtractor_diverging)
                    (hd [] Blocks.capture_A) Blocks.blank_output)) = true)
    by (vm_compute; reflexivity).
  destruct (misadjustment_correction
              (K := Reference.common) (C := reference_collaborators)
              Blocks.subtractor_diverging
              (Blocks.state_after Blocks.subtractor_diverging
                                  Blocks.run_diverging)
              Blocks.render Blocks.capture_A tt false [Blocks.blank_output]
              (Blocks.outputs_after Blocks.run_diverging)
              ltac:(reflexivity)
              0%nat
              (Blocks.channel0 Blocks.subtractor_diverging)
              (Blocks.channel0
                 (Blocks.state_after Blocks.subtractor_diverging
                                     Blocks.run_diverging))
              (hd [] Blocks.capture_A) Blocks.blank_output
              (Blocks.output0 (Blocks.outputs_after Blocks.run_diverging))
              ltac:(reflexivity) ltac:(reflexivity) ltac:(reflexivity)
              ltac:(repeat split; reflexivity)
              ltac:(reflexivity) ltac:(reflexivity) Hneeded)
    as (_ & Hs & _ & Hest & HG & _).
  split; [exact Hneeded | split; [exact Hs | split; [exact Hest | exact HG]]].
Defined.

End CorrectionRun.

(** ** HandleEchoPathChange *)

Section EchoPathChangeClaim.
Context {K : Aec3Common} {C : Collaborators}.

Lemma DelayAdjustment_eqb_eq (a b : DelayAdjustment) :
  DelayAdjustment_eqb a b = true <-> a = b.
Proof.
  destruct a as [| i], b as [| j]; cbn; split; try discriminate; auto.
  - intros H. apply Nat.eqb_eq in H. congruence.
  - intros [= ->]. apply Nat.eqb_refl.
Qed.

(** C5.  For every event and every channel: if the event reports a delay
    change, both filters get [HandleEchoPathChange()] (which zeroes them)
    followed by [SetSizePartitions] with the initial length and immediate
    effect, and both gain computers are notified and then configured with
    the initial configuration; if it reports a gain change and no delay
    change, the main gain computer is notified and both filters and the
    shadow gain computer are left as they are.  The estimator, the counter
    and the cached responses are never touched. *)
Theorem echo_path_change_effect (st : Subtractor)
    (echo_path_variability : EchoPathVariability) (ch : nat)
    (c : ChannelState) :
  nth_error (channels st) ch = Some c ->
  let cfg := config_ st in
  exists c',
    nth_error (channels (HandleEchoPathChange st echo_path_variability)) ch
      = Some c'
    /\ (delay_change echo_path_variability <> kNone ->
        main_filter_ c' =
          SetSizePartitions (Filter_HandleEchoPathChange (main_filter_ c))
                            (main_length_blocks (main_initial cfg)) true
        /\ shadow_filter_ c' =
             SetSizePartitions (Filter_HandleEchoPathChange (shadow_filter_ c))
                               (shadow_length_blocks (shadow_initial cfg)) true
        /\ G_shadow_ c' =
             ShadowGain_SetConfig
               (ShadowGain_HandleEchoPathChange (G_shadow_ c))
               (shadow_initial cfg) true
        /\ G_main_ c' =
             let gm :=
               MainGain_SetConfig
                 (MainGain_HandleEchoPathChange (G_main_ c)
                                                echo_path_variability)
                 (main_initial cfg) true in
             if gain_change echo_path_variability
             then MainGain_HandleEchoPathChange gm echo_path_variability
             else gm)
    /\ (delay_change echo_path_variability = kNone ->
        gain_change echo_path_variability = true ->
        main_filter_ c' = main_filter_ c
        /\ shadow_filter_ c' = shadow_filter_ c
        /\ G_shadow_ c' = G_shadow_ c
        /\ G_main_ c' =
             MainGain_HandleEchoPathChange (G_main_ c) echo_path_variability)
    /\ filter_misadjustment_estimator_ c' = filter_misadjustment_estimator_ c
    /\ poor_shadow_filter_counter_ c' = poor_shadow_filter_counter_ c
    /\ main_frequency_response_ c' = main_frequency_response_ c
    /\ main_impulse_response_ c' = main_impulse_response_ c.
Proof.
  intros Hc cfg. unfold HandleEchoPathChange. cbn [channels].
  destruct (DelayAdjustment_eqb (delay_change echo_path_variability) kNone)
    eqn:Ed; cbn [negb];
    destruct (gain_change echo_path_variability) eqn:Eg;
    rewrite ?nth_error_map, ?Hc; cbn [option_map];
    eexists; (split; [reflexivity |]);
    cbn [full_reset_channel gain_change_channel main_filter_ shadow_filter_
         G_main_ G_shadow_ filter_misadjustment_estimator_
         poor_shadow_filter_counter_ main_frequency_response_
         main_impulse_response_];
    repeat split; try reflexivity; try discriminate;
    try (apply DelayAdjustment_eqb_eq in Ed; intros; contradiction);
    match goal with
    | H : delay_change _ = kNone |- _ => rewrite H in Ed; discriminate
    end.
Qed.

End EchoPathChangeClaim.

Section EchoPathChangeRun.
#[local] Existing Instance Reference.common.
#[local] Existing Instance reference_collaborators.

Lemma echo_path_change_effect_witness :
  exists c',
    nth_error
      (channels (HandleEchoPathChange Blocks.subtractor_A Blocks.delay_changed))
      0 = Some c'
    /\ SizePartitions (main_filter_ c') = 1%nat
    /\ GetFilter (main_filter_ c') = [Reference.zero_fft]
    /\ SizePartitions (shadow_filter_ c') = 1%nat
    /\ GetFilter (shadow_filter_ c') = [Reference.zero_fft].
Proof.
  destruct (echo_path_change_effect Blocks.subtractor_A Blocks.delay_changed
              0%nat (Blocks.channel0 Blocks.subtractor_A) eq_refl)
    as (c' & Hnth & Hdelay & _).
  destruct (Hdelay ltac:(discriminate)) as (Hmain & Hshadow & _).
  exists c'. rewrite Hmain, Hshadow.
  split; [exact Hnth |].
  split; [vm_compute; reflexivity |].
  split; [vm_compute; reflexivity |].
  split; vm_compute; reflexivity.
Defined.

End EchoPathChangeRun.

(** ** The clamp of the main residual *)

Section ClampClaims.
Context {K : Aec3Common} {C : Collaborators}.
Local Open Scope f32_scope.

(** The clamp brings every number into the range; a NaN compares false
    with both bounds and is returned as it is. *)
Lemma SafeClamp_int16 (a : float) :
  let r := SafeClamp a (F32.of_Z (-32768)) (F32.of_Z 32767) in
  (F32.is_nan a = true /\ r = a)
  \/ (F32.is_nan a = false /\ in_int16_range r = true).
Proof.
  cbv zeta. unfold SafeClamp, in_int16_range.
  destruct (a <=? F32.of_Z (-32768)) eqn:Elo.
  - right. split; [| reflexivity].
    destruct a; try reflexivity. discriminate.
  - destruct (a >=? F32.of_Z 32767) eqn:Ehi.
    + right. split; [| reflexivity].
      destruct a; try reflexivity. discriminate.
    + destruct (F32.is_nan a) eqn:En.
      * left. auto.
      * right. split; [reflexivity |].
        rewrite (F32_not_leb_geb a (F32.of_Z (-32768)) En eq_refl Elo).
        rewrite (F32_not_geb_leb a (F32.of_Z 32767) En eq_refl Ehi).
        reflexivity.
Qed.

Lemma clamp_e_main_range (output : SubtractorOutput) :
  Forall (fun x => F32.is_nan x = true \/ in_int16_range x = true)
         (e_main (clamp_e_main output)).
Proof.
  cbn [clamp_e_main e_main]. apply Forall_forall. intros x Hx.
  apply in_map_iff in Hx. destruct Hx as (a & <- & _).
  destruct (SafeClamp_int16 a) as [[Hn ->] | [_ Hr]]; auto.
Qed.

Variables (st st' : Subtractor) (render_buffer : RenderBuffer)
          (capture : list (list float))
          (render_signal_analyzer : RenderSignalAnalyzer)
          (aec_state : AecState) (outputs outputs' : list SubtractorOutput).

Hypothesis Process_returned :
  Process st render_buffer capture render_signal_analyzer aec_state outputs
    = Some (st', outputs').

(** C6, amended.  After [Process] returns, every sample of the main
    residual [e_main] of every channel's output is a NaN or lies in the
    closed interval [-32768, 32767]. *)
Theorem main_residual_clamped (ch : nat) (o' : SubtractorOutput) :
  (ch < num_capture_channels_ st)%nat ->
  nth_error outputs' ch = Some o' ->
  Forall (fun x => F32.is_nan x = true \/ in_int16_range x = true)
         (e_main o').
Proof.
  intros Hch Ho'. unfold num_capture_channels_ in Hch.
  destruct (nth_error (channels st) ch) as [c |] eqn:Hc;
    [| apply nth_error_None in Hc; lia].
  destruct (Process_channel _ _ _ _ _ _ _ _ _ _ Process_returned Hc)
    as (y & o & _ & _ & _ & Hr).
  cbv zeta in Hr. destruct Hr as [_ Ho2].
  rewrite Ho' in Ho2. injection Ho2 as ->.
  apply clamp_e_main_range.
Qed.

(** The shadow residual leaves [Process] as [PredictionError] wrote it. *)
Lemma Process_e_shadow (ch : nat) (c : ChannelState)
    (y : list float) (o o' : SubtractorOutput) :
  nth_error (channels st) ch = Some c ->
  nth_error capture ch = Some y ->
  nth_error outputs ch = Some o ->
  nth_error outputs' ch = Some o' ->
  e_shadow o' =
    fst (PredictionError (Filter (shadow_filter_ c) render_buffer) y
                         (e_shadow o) (Some (s_shadow o))).
Proof.
  intros Hc Hy Ho Ho'.
  destruct (Process_channel _ _ _ _ _ _ _ _ _ _ Process_returned Hc)
    as (y0 & o0 & Hy0 & Ho0 & _ & Hr).
  rewrite Hy in Hy0. rewrite Ho in Ho0.
  injection Hy0 as <-. injection Ho0 as <-.
  cbv zeta in Hr. destruct Hr as [_ Ho2].
  rewrite Ho' in Ho2. injection Ho2 as ->.
  unfold ProcessChannel. cbn [snd clamp_e_main e_shadow].
  destruct (ProcessMain_output_kept (fst (X2_of st render_buffer))
              render_buffer render_signal_analyzer aec_state c y o)
    as (_ & _ & _ & Hes & _).
  rewrite Hes. reflexivity.
Qed.

End ClampClaims.

(** C10.  Only the main residual is clamped: for every call of [Process]
    that returns, the shadow residual [e_shadow] of each channel is what the
    prediction-error subtraction computed, with no clamp applied; and it
    can hold samples outside [-32768, 32767]: in [Blocks.run_A] the capture
    sample is 30000, the shadow filter predicts -10000 and the shadow
    residual is 40000. *)
Theorem shadow_residual_not_clamped :
  (forall (K : Aec3Common) (C : Collaborators) (st st' : Subtractor)
          render_buffer capture render_signal_analyzer aec_state
          outputs outputs' ch c y o o',
      Process st render_buffer capture render_signal_analyzer aec_state
              outputs = Some (st', outputs') ->
      nth_error (channels st) ch = Some c ->
      nth_error capture ch = Some y ->
      nth_error outputs ch = Some o ->
      nth_error outputs' ch = Some o' ->
      e_shadow o' =
        fst (PredictionError (Filter (shadow_filter_ c) render_buffer) y
                             (e_shadow o) (Some (s_shadow o))))
  /\ (exists (K : Aec3Common) (C : Collaborators) (st st' : Subtractor)
             render_buffer capture render_signal_analyzer aec_state
             outputs outputs' o' x,
        Process st render_buffer capture render_signal_analyzer aec_state
                outputs = Some (st', outputs')
        /\ nth_error outputs' 0 = Some o'
        /\ In x (e_shadow o')
        /\ F32.is_nan x = false
        /\ in_int16_range x = false).
Proof.
  split.
  - intros K C st st' render_buffer capture render_signal_analyzer aec_state
           outputs outputs' ch c y o o' HP.
    exact (Process_e_shadow st st' render_buffer capture
             render_signal_analyzer aec_state outputs outputs' HP ch c y o o').
  - exists Reference.common, reference_collaborators, Blocks.subtractor_A,
      (Blocks.state_after Blocks.subtractor_A Blocks.run_A),
      Blocks.render, Blocks.capture_A, tt, false, [Blocks.blank_output],
      (Blocks.outputs_after Blocks.run_A),
      (Blocks.output0 (Blocks.outputs_after Blocks.run_A)),
      (F32.of_Z 40000).
    split; [reflexivity |].
    split; [reflexivity |].
    split; [vm_compute; left; reflexivity |].
    split; reflexivity.
Qed.

Section ClampRuns.
#[local] Existing Instance Reference.common.
#[local] Existing Instance reference_collaborators.

Lemma shadow_residual_not_clamped_witness :
  e_shadow (Blocks.output0 (Blocks.outputs_after Blocks.run_A)) =
    fst (PredictionError
           (Filter (shadow_filter_ (Blocks.channel0 Blocks.subtractor_A))
                   Blocks.render)
           (hd [] Blocks.capture_A) (e_shadow Blocks.blank_output)
           (Some (s_shadow Blocks.blank_output))).
Proof.
  exact (proj1 shadow_residual_not_clamped
           Reference.common reference_collaborators Blocks.subtractor_A
           (Blocks.state_after Blocks.subtractor_A Blocks.run_A)
           Blocks.render Blocks.capture_A tt false [Blocks.blank_output]
           (Blocks.outputs_after Blocks.run_A) 0%nat
           (Blocks.channel0 Blocks.subtractor_A) (hd [] Blocks.capture_A)
           Blocks.blank_output
           (Blocks.output0 (Blocks.outputs_after Blocks.run_A))
           ltac:(reflexivity) ltac:(reflexivity) ltac:(reflexivity)
           ltac:(reflexivity) ltac:(reflexivity)).
Defined.

Lemma main_residual_clamped_witness :
  Forall (fun x => F32.is_nan x = true \/ in_int16_range x = true)
         (e_main (Blocks.output0 (Blocks.outputs_after Blocks.run_A))).
Proof.
  apply (main_residual_clamped
           (K := Reference.common) (C := reference_collaborators)
           Blocks.subtractor_A
           (Blocks.state_after Blocks.subtractor_A Blocks.run_A)
           Blocks.render Blocks.capture_A tt false [Blocks.blank_output]
           (Blocks.outputs_after Blocks.run_A) ltac:(reflexivity) 0%nat).
  - vm_compute. apply le_n.
  - reflexivity.
Defined.

(** C6 as it is stated fails on a capture block that holds a NaN.  In
    [Blocks.run_nan] the first capture sample is a NaN: the residual
    [y[0] - s[0]] is a NaN, the clamp compares it with the two bounds,
    both comparisons are false, and the NaN is what [e_main[0]] holds
    when [Process] returns; it is not in the interval. *)
Lemma main_residual_nan_escapes_clamp :
  let o' := Blocks.output0 (Blocks.outputs_after Blocks.run_nan) in
  length (Blocks.outputs_after Blocks.run_nan) = 1%nat
  /\ hd F32.zero (e_main o') = F32.nan
  /\ in_int16_range (hd F32.zero (e_main o')) = false
  /\ ~ Forall (fun x => in_int16_range x = true) (e_main o').
Proof.
  cbv zeta.
  assert (Hhd : hd F32.zero
                   (e_main (Blocks.output0
                              (Blocks.outputs_after Blocks.run_nan)))
                = F32.nan) by (vm_compute; reflexivity).
  split; [vm_compute; reflexivity |].
  split; [exact Hhd |].
  split; [rewrite Hhd; reflexivity |].
  intros Hall.
  destruct (e_main (Blocks.output0 (Blocks.outputs_after Blocks.run_nan)))
    as [| x l]; [discriminate |].
  cbn in Hhd. subst x. inversion Hall as [| ? ? Hx _]. discriminate.
Qed.

End ClampRuns.

(** ** PredictionError on a zero echo *)

Lemma F32_mul_pos_zero (k : float) :
  F32.is_finite_nonneg k = true ->
  F32.mul F32.zero k = F32.zero /\ F32.mul k F32.zero = F32.zero.
Proof.
  destruct k as [[|] | | | [|] mk ek]; try discriminate; split; reflexivity.
Qed.

Lemma F32_same_refl (a : float) : F32_same a a.
Proof. left; reflexivity. Qed.

Lemma nth_Forall {A} (P : A -> Prop) (l : list A) (d : A) (n : nat) :
  Forall P l -> P d -> P (nth n l d).
Proof.
  intros Hl Hd. revert n. induction Hl as [| x l Hx Hl IH]; intros [| n];
    cbn; auto.
Qed.

Lemma skipn_repeat_all {A} (a : A) (n m : nat) :
  skipn n (repeat a m) = repeat a (m - n).
Proof.
  revert m. induction n as [| n IH]; intros [| m]; cbn; auto.
Qed.

Section PredictionErrorClaim.
Context {K : Aec3Common} {C : Collaborators}.
Local Open Scope f32_scope.


Lemma subtract_zero_echo (y tail : list float) :
  F32.is_finite_nonneg kScale = true ->
  length tail = length y ->
  Forall (fun x => F32.is_zero x = true) tail ->
  Forall2 F32_same (zip_with (fun a b => a - b * kScale) y tail) y.
Proof.
  intros Hk. revert tail.
  induction y as [| a y IH]; intros [| b tail] Hlen Hz;
    try discriminate; cbn.
  - constructor.
  - inversion Hz as [| ? ? Hb Hz']; subst.
    constructor.
    + apply F32_sub_zero. apply F32_mul_zero_l; assumption.
    + apply IH; [injection Hlen; auto | assumption].
Qed.

Lemma subtract_positive_zero_echo (y : list float) (n : nat) :
  F32.is_finite_nonneg kScale = true ->
  n = length y ->
  zip_with (fun a b => a - b * kScale) y (repeat F32.zero n) = y.
Proof.
  intros Hk ->. induction y as [| a y IH]; cbn; [reflexivity |].
  unfold zip_with in IH. rewrite IH.
  rewrite (proj1 (F32_mul_pos_zero kScale Hk)), F32_sub_pos_zero.
  reflexivity.
Qed.

(** What the FFT is assumed to do: the inverse transform has
    [kFftLength] samples, and that of a zero spectrum is a zero signal. *)
Hypothesis Ifft_length : forall S, length (Ifft S) = kFftLength.
Hypothesis Ifft_zero :
  forall S, zero_spectrum S -> Forall (fun x => F32.is_zero x = true) (Ifft S).

(** C8.  For every capture block [y]: if the predicted echo spectrum is
    identically zero, [PredictionError] yields an [e] equal to [y] sample
    for sample and an [s] whose samples are all zero; in particular, when
    the main filter predicts a zero spectrum, [e_main] equals the capture
    block and [s_main] is all zero.  Equal is meant as numbers (a zero
    sample of [y] may come out with the other sign when the inverse
    transform produces negative zeros); when the inverse transform is
    [+0] throughout, [e] is [y] itself and [s] is [+0] throughout. *)
Theorem PredictionError_zero_spectrum (S : FftData) (y e s : list float) :
  F32.is_finite_nonneg kScale = true ->
  zero_spectrum S ->
  length y = kBlockSize -> length e = kBlockSize -> length s = kBlockSize ->
  let r := PredictionError S y e (Some s) in
  Forall2 F32_same (fst r) y
  /\ (exists s', snd r = Some s' /\ length s' = kBlockSize
                 /\ Forall (fun x => F32.is_zero x = true) s')
  /\ (Ifft S = fill kFftLength F32.zero ->
      r = (y, Some (fill kBlockSize F32.zero)))
  /\ (forall render_buffer c o,
        S = Filter (main_filter_ c) render_buffer -> output_sized o ->
        Forall2 F32_same (e_main (FormOutputs render_buffer c y o)) y
        /\ Forall (fun x => F32.is_zero x = true)
                  (s_main (FormOutputs render_buffer c y o))).
Proof.
  intros Hk HS Hy He Hs r.
  assert (Htail : length (skipn kFftLengthBy2 (Ifft S)) = length y).
  { rewrite length_skipn, Ifft_length, Hy. unfold kFftLength, kBlockSize. lia. }
  assert (Hztail : Forall (fun x => F32.is_zero x = true)
                          (skipn kFftLengthBy2 (Ifft S))).
  { apply Forall_forall. intros x Hx.
    pose proof (Ifft_zero S HS) as Hz. rewrite Forall_forall in Hz.
    apply Hz. rewrite <- (firstn_skipn kFftLengthBy2 (Ifft S)).
    apply in_or_app. right. exact Hx. }
  assert (Hzs : forall n : nat,
             Forall (fun x => F32.is_zero x = true)
               (map (fun k => kScale * nth (k + kFftLengthBy2) (Ifft S) F32.zero)
                    (seq 0 n))).
  { intros n. apply Forall_forall. intros x Hx.
    apply in_map_iff in Hx. destruct Hx as (k & <- & _).
    apply F32_mul_zero_r; [| exact Hk].
    apply nth_Forall; [apply Ifft_zero; exact HS | reflexivity]. }
  assert (He1 : forall e0, length e0 = kBlockSize ->
             Forall2 F32_same
               (transform2 (fun a b => a - b * kScale) y
                           (skipn kFftLengthBy2 (Ifft S)) e0) y).
  { intros e0 He0. unfold transform2.
    rewrite (skipn_all2 e0) by lia. rewrite app_nil_r.
    apply subtract_zero_echo; assumption. }
  unfold r, PredictionError. cbn [fst snd].
  split; [apply He1; exact He |].
  split.
  { eexists. split; [reflexivity |]. split; [| apply Hzs].
    rewrite length_map, length_seq. exact Hs. }
  split.
  { intros Hpos. rewrite Hpos. unfold transform2, fill.
    rewrite (skipn_all2 e) by lia. rewrite app_nil_r.
    rewrite skipn_repeat_all.
    rewrite subtract_positive_zero_echo;
      [| exact Hk | unfold kFftLength, kBlockSize in *; lia].
    f_equal. f_equal. rewrite Hs.
    rewrite <- (length_seq kBlockSize 0) at 2.
    rewrite <- map_const. apply map_ext_in. intros k Hk'.
    apply in_seq in Hk'.
    rewrite nth_repeat.
    apply (proj2 (F32_mul_pos_zero kScale Hk)). }
  intros render_buffer c o -> (Heo & _ & Hso & _).
  unfold FormOutputs, PredictionError.
  cbn [ComputeMetrics e_main s_main fst snd].
  split; [apply He1; exact Heo | apply Hzs].
Qed.

End PredictionErrorClaim.

(** ** The render powers *)

Section RenderPowersClaim.
Context {K : Aec3Common} {C : Collaborators}.

(** What the render buffer is assumed to do: [SpectralSums] delivers the
    spectral sums over its two window lengths. *)
Hypothesis SpectralSums_sums :
  forall render_buffer shorter longer,
    (shorter < longer)%nat ->
    SpectralSums render_buffer shorter longer
    = (SpectralSum render_buffer shorter, SpectralSum render_buffer longer).

Lemma RenderPowers_sums (render_buffer : RenderBuffer) (m s : nat) :
  RenderPowers render_buffer m s
  = (SpectralSum render_buffer m, SpectralSum render_buffer s).
Proof.
  unfold RenderPowers.
  destruct (Nat.eqb_spec m s) as [-> | Hne]; [reflexivity |].
  destruct (Nat.ltb_spec s m) as [Hlt | Hge].
  - rewrite (SpectralSums_sums render_buffer s m Hlt). reflexivity.
  - rewrite (SpectralSums_sums render_buffer m s) by lia. reflexivity.
Qed.

(** C9.  With equal partition counts one spectral sum is computed and the
    same buffer serves both gain computations; with different counts the
    two sums come from one [SpectralSums] query, the shorter window first.
    In either case the buffers are the spectral sums over the partition
    count of the main and of the shadow filter: [Process] is
    [ProcessSeparateSums], which queries the two sums separately, and the
    shadow gain computation of a channel whose filters are as long as
    those of channel 0 (where the counts are read) works on the spectral
    sum over exactly that channel's shadow partition count.

    The gain computations themselves, for every channel: when the main
    gain is computed (the estimator asks for no adjustment),
    [MainGain_Compute] receives the spectral sum over the partition count
    of the main filter, and the main filter is adapted with the gain it
    returns; [ShadowGain_Compute], on the regular branch and on the
    branch that re-seeds the shadow filter alike, receives the spectral
    sum over the partition count of the shadow filter, and the shadow
    filter is adapted with the gain it returns.  The counts are those
    that [main_filter_[0]] and [shadow_filter_[0]] report when [Process]
    starts; when they are equal the two computations receive the one
    sum. *)
Theorem render_powers_shared_or_separate (st : Subtractor)
    (render_buffer : RenderBuffer) (capture : list (list float))
    (render_signal_analyzer : RenderSignalAnalyzer) (aec_state : AecState)
    (outputs : list SubtractorOutput) :
  (forall m,
      RenderPowers render_buffer m m
      = (SpectralSum render_buffer m, SpectralSum render_buffer m))
  /\ (forall m s, (s < m)%nat ->
        RenderPowers render_buffer m s
        = (snd (SpectralSums render_buffer s m),
           fst (SpectralSums render_buffer s m)))
  /\ (forall m s, (m < s)%nat ->
        RenderPowers render_buffer m s = SpectralSums render_buffer m s)
  /\ Process st render_buffer capture render_signal_analyzer aec_state outputs
     = ProcessSeparateSums st render_buffer capture render_signal_analyzer
                           aec_state outputs
  /\ (forall st' outputs' c0 ch c,
        Process st render_buffer capture render_signal_analyzer aec_state
                outputs = Some (st', outputs') ->
        nth_error (channels st) 0 = Some c0 ->
        nth_error (channels st) ch = Some c ->
        SizePartitions (main_filter_ c) = SizePartitions (main_filter_ c0) ->
        SizePartitions (shadow_filter_ c) = SizePartitions (shadow_filter_ c0) ->
        exists y o,
          nth_error capture ch = Some y /\ nth_error outputs ch = Some o
          /\ let r :=
               ProcessChannel
                 (SpectralSum render_buffer (SizePartitions (main_filter_ c)))
                 (SpectralSum render_buffer (SizePartitions (shadow_filter_ c)))
                 render_buffer render_signal_analyzer aec_state c y o in
             nth_error (channels st') ch = Some (fst r)
             /\ nth_error outputs' ch = Some (snd r))
  /\ (forall st' outputs' c0 ch c c' y o o',
        Process st render_buffer capture render_signal_analyzer aec_state
                outputs = Some (st', outputs') ->
        nth_error (channels st) 0 = Some c0 ->
        nth_error (channels st) ch = Some c ->
        nth_error capture ch = Some y ->
        nth_error outputs ch = Some o ->
        nth_error (channels st') ch = Some c' ->
        nth_error outputs' ch = Some o' ->
        let n_main := SizePartitions (main_filter_ c0) in
        let n_shadow := SizePartitions (shadow_filter_ c0) in
        let X2_main := SpectralSum render_buffer n_main in
        let X2_shadow := SpectralSum render_buffer n_shadow in
        let saturated := SaturatedCapture aec_state in
        let formed := FormOutputs render_buffer c y o in
        let counter :=
          if F32.ltb (e2_main o') (e2_shadow o')
          then (poor_shadow_filter_counter_ c + 1)%nat else 0%nat in
        (* the buffers that Process computed *)
        X2_of st render_buffer = (X2_main, X2_shadow)
        /\ (n_main = n_shadow -> X2_shadow = X2_main)
        (* the main gain computation *)
        /\ (IsAdjustmentNeeded
              (Update (filter_misadjustment_estimator_ c) formed) = false ->
            let unclamped :=
              {| s_main := s_main formed; s_shadow := s_shadow formed;
                 e_main := e_main formed; e_shadow := e_shadow formed;
                 E_main := E_main o';
                 E2_main := E2_main o'; E2_shadow := E2_shadow o';
                 e2_main := e2_main formed; e2_shadow := e2_shadow formed;
                 y2 := y2 formed |} in
            let gain :=
              MainGain_Compute (G_main_ c) X2_main render_signal_analyzer
                unclamped (ComputeErl (main_frequency_response_ c))
                (SizePartitions (main_filter_ c)) saturated in
            G_main_ c' = fst gain
            /\ (main_filter_ c', main_impulse_response_ c')
               = AdaptImpulseResponse (main_filter_ c) render_buffer
                   (snd gain) (main_impulse_response_ c))
        (* the shadow gain computation, regular branch *)
        /\ ((counter < 5)%nat ->
            let gain :=
              ShadowGain_Compute (G_shadow_ c) X2_shadow
                render_signal_analyzer (ZeroPaddedFft (e_shadow o'))
                (SizePartitions (shadow_filter_ c)) saturated in
            G_shadow_ c' = fst gain
            /\ shadow_filter_ c'
               = Adapt (shadow_filter_ c) render_buffer (snd gain))
        (* the shadow gain computation, re-seeding branch *)
        /\ ((5 <= counter)%nat ->
            let seeded :=
              SetFilter (shadow_filter_ c) (GetFilter (main_filter_ c')) in
            let gain :=
              ShadowGain_Compute (G_shadow_ c) X2_shadow
                render_signal_analyzer (E_main o')
                (SizePartitions seeded) saturated in
            G_shadow_ c' = fst gain
            /\ shadow_filter_ c' = Adapt seeded render_buffer (snd gain))).
Proof.
  split; [| split; [| split; [| split; [| split]]]].
  - intros m. unfold RenderPowers. rewrite Nat.eqb_refl. reflexivity.
  - intros m s Hlt. unfold RenderPowers.
    destruct (Nat.eqb_spec m s) as [-> | _]; [lia |].
    apply Nat.ltb_lt in Hlt. rewrite Hlt.
    destruct (SpectralSums render_buffer s m). reflexivity.
  - intros m s Hlt. unfold RenderPowers.
    destruct (Nat.eqb_spec m s) as [-> | _]; [lia |].
    destruct (Nat.ltb_spec s m) as [Hsm | _]; [lia |].
    destruct (SpectralSums render_buffer m s). reflexivity.
  - unfold Process, ProcessSeparateSums.
    destruct (negb _); [reflexivity |].
    destruct (channels st) as [| c0 cs]; [reflexivity |].
    rewrite RenderPowers_sums. reflexivity.
  - intros st' outputs' c0 ch c HP Hc0 Hc Hm Hs.
    destruct (Process_channel _ _ _ _ _ _ _ _ _ _ HP Hc)
      as (y & o & Hy & Ho & _ & Hr).
    exists y, o. split; [exact Hy |]. split; [exact Ho |].
    unfold X2_of in Hr.
    destruct (channels st) as [| c0' cs]; [discriminate |].
    injection Hc0 as ->.
    rewrite RenderPowers_sums in Hr. cbn [fst snd] in Hr.
    rewrite Hm, Hs. exact Hr.
  - intros st' outputs' c0 ch c c' y o o' HP Hc0 Hc Hy Ho Hc' Ho'.
    cbv zeta.
    destruct (Process_channel _ _ _ _ _ _ _ _ _ _ HP Hc)
      as (y0 & o0 & Hy0 & Ho0 & _ & Hr).
    rewrite Hy in Hy0. rewrite Ho in Ho0.
    injection Hy0 as <-. injection Ho0 as <-.
    cbv zeta in Hr. destruct Hr as [Hc2 Ho2].
    rewrite Hc' in Hc2. rewrite Ho' in Ho2.
    injection Hc2 as ->. injection Ho2 as ->.
    assert (HX : X2_of st render_buffer
                 = (SpectralSum render_buffer
                      (SizePartitions (main_filter_ c0)),
                    SpectralSum render_buffer
                      (SizePartitions (shadow_filter_ c0)))).
    { unfold X2_of. destruct (channels st) as [| c0' cs]; [discriminate |].
      injection Hc0 as ->. apply RenderPowers_sums. }
    rewrite HX. cbn [fst snd]. clear HX HP.
    split; [reflexivity |].
    split; [intros ->; reflexivity |].
    unfold ProcessChannel. cbn [fst snd].
    split.
    + intros Hquiet.
      rewrite (ProcessMain_regular
                 (SpectralSum render_buffer
                    (SizePartitions (main_filter_ c0)))
                 render_buffer render_signal_analyzer aec_state c y o
                 Hquiet).
      cbn [ms_main_filter ms_impulse_response ms_G_main ms_output
           clamp_e_main s_main s_shadow e_main e_shadow
           E_main E2_main E2_shadow e2_main e2_shadow y2
           main_filter_ main_impulse_response_ G_main_].
      split; [reflexivity |].
      destruct (AdaptImpulseResponse _ _ _ _); reflexivity.
    + set (m := ProcessMain _ _ _ _ c y o).
      destruct (ProcessMain_output_kept
                  (SpectralSum render_buffer
                     (SizePartitions (main_filter_ c0)))
                  render_buffer render_signal_analyzer aec_state c y o)
        as (_ & _ & _ & Hes & _ & _ & HEs).
      fold m in Hes, HEs.
      cbn [clamp_e_main e2_main e2_shadow e_shadow E_main
           main_filter_ shadow_filter_ G_shadow_].
      fold (counted c (ms_output m)).
      split; intros Hcount.
      * rewrite (ProcessShadow_regular _ render_buffer
                   render_signal_analyzer aec_state c m Hcount).
        cbn [ss_G_shadow ss_shadow_filter].
        rewrite Hes, <- HEs. split; reflexivity.
      * rewrite (ProcessShadow_reseed _ render_buffer
                   render_signal_analyzer aec_state c m Hcount).
        cbn [ss_G_shadow ss_shadow_filter]. split; reflexivity.
Qed.

End RenderPowersClaim.

(** ** Determinism *)

Section DeterminismClaim.
Context {K : Aec3Common} {C : Collaborators}.
Local Open Scope f32_scope.

(** The estimator reads two members of the output. *)
Lemma Update_ext (est : FilterMisadjustmentEstimator)
    (o1 o2 : SubtractorOutput) :
  e2_main o1 = e2_main o2 -> y2 o1 = y2 o2 -> Update est o1 = Update est o2.
Proof. intros He Hy. unfold Update. rewrite He, Hy. reflexivity. Qed.

(** What [FormOutputs] has written does not depend on what the output
    entry held before. *)
Lemma FormOutputs_independent (render_buffer : RenderBuffer)
    (c : ChannelState) (y : list float) (o1 o2 : SubtractorOutput) :
  length y = kBlockSize -> output_sized o1 -> output_sized o2 ->
  let f1 := FormOutputs render_buffer c y o1 in
  let f2 := FormOutputs render_buffer c y o2 in
  s_main f1 = s_main f2 /\ s_shadow f1 = s_shadow f2
  /\ e_main f1 = e_main f2 /\ e_shadow f1 = e_shadow f2
  /\ e2_main f1 = e2_main f2 /\ e2_shadow f1 = e2_shadow f2
  /\ y2 f1 = y2 f2.
Proof.
  intros Hy (He1 & Hes1 & Hs1 & Hss1) (He2 & Hes2 & Hs2 & Hss2).
  unfold FormOutputs, PredictionError, transform2.
  cbn [ComputeMetrics s_main s_shadow e_main e_shadow e2_main e2_shadow y2
       fst snd].
  rewrite Hs1, Hs2, Hss1, Hss2.
  rewrite (skipn_all2 (e_main o1)), (skipn_all2 (e_main o2)),
    (skipn_all2 (e_shadow o1)), (skipn_all2 (e_shadow o2)) by lia.
  repeat split; reflexivity.
Qed.

Lemma ProcessMain_independent (X2_main : list float)
    (render_buffer : RenderBuffer) (render_signal_analyzer : RenderSignalAnalyzer)
    (aec_state : AecState) (c : ChannelState) (y : list float)
    (o1 o2 : SubtractorOutput) :
  length y = kBlockSize -> output_sized o1 -> output_sized o2 ->
  ProcessMain X2_main render_buffer render_signal_analyzer aec_state c y o1
  = ProcessMain X2_main render_buffer render_signal_analyzer aec_state c y o2.
Proof.
  intros Hy H1 H2.
  destruct (FormOutputs_independent render_buffer c y o1 o2 Hy H1 H2)
    as (Hs & Hss & He & Hes & He2 & Hes2 & Hy2).
  pose proof (Update_ext (filter_misadjustment_estimator_ c) _ _ He2 Hy2)
    as Hest.
  destruct (IsAdjustmentNeeded
              (Update (filter_misadjustment_estimator_ c)
                      (FormOutputs render_buffer c y o1))) eqn:E1.
  - rewrite (ProcessMain_adjusted X2_main render_buffer render_signal_analyzer
               aec_state c y o1 E1).
    rewrite Hest in E1.
    rewrite (ProcessMain_adjusted X2_main render_buffer render_signal_analyzer
               aec_state c y o2 E1).
    rewrite Hest, Hs, Hss, He, Hes, He2, Hes2, Hy2. reflexivity.
  - rewrite (ProcessMain_regular X2_main render_buffer render_signal_analyzer
               aec_state c y o1 E1).
    rewrite Hest in E1.
    rewrite (ProcessMain_regular X2_main render_buffer render_signal_analyzer
               aec_state c y o2 E1).
    rewrite Hest, Hs, Hss, He, Hes, He2, Hes2, Hy2. reflexivity.
Qed.

Lemma ProcessChannels_independent (X2_main X2_shadow : list float)
    (render_buffer : RenderBuffer) (render_signal_analyzer : RenderSignalAnalyzer)
    (aec_state : AecState) (cs : list ChannelState) :
  forall capture outputs1 outputs2,
    length capture = length cs ->
    length outputs1 = length capture -> length outputs2 = length capture ->
    Forall output_sized outputs1 -> Forall output_sized outputs2 ->
    ProcessChannels X2_main X2_shadow render_buffer render_signal_analyzer
                    aec_state cs capture outputs1
    = ProcessChannels X2_main X2_shadow render_buffer render_signal_analyzer
                      aec_state cs capture outputs2.
Proof.
  induction cs as [| c cs IH]; intros capture outputs1 outputs2 Hc H1 H2 F1 F2.
  - destruct capture; [| discriminate].
    destruct outputs1; [| discriminate]. destruct outputs2; [| discriminate].
    reflexivity.
  - destruct capture as [| y capture]; [discriminate |].
    destruct outputs1 as [| o1 outputs1]; [discriminate |].
    destruct outputs2 as [| o2 outputs2]; [discriminate |].
    inversion F1 as [| ? ? Ho1 F1']; subst.
    inversion F2 as [| ? ? Ho2 F2']; subst.
    cbn [ProcessChannels].
    destruct (Nat.eqb_spec kBlockSize (length y)) as [Hy | _];
      [| reflexivity].
    unfold ProcessChannel.
    rewrite (ProcessMain_independent X2_main render_buffer
               render_signal_analyzer aec_state c y o1 o2 (eq_sym Hy) Ho1 Ho2).
    rewrite (IH capture outputs1 outputs2); auto.
Qed.

Lemma Process_independent (st : Subtractor) (render_buffer : RenderBuffer)
    (capture : list (list float)) (render_signal_analyzer : RenderSignalAnalyzer)
    (aec_state : AecState) (outputs1 outputs2 : list SubtractorOutput) :
  length outputs1 = length capture -> length outputs2 = length capture ->
  Forall output_sized outputs1 -> Forall output_sized outputs2 ->
  Process st render_buffer capture render_signal_analyzer aec_state outputs1
  = Process st render_buffer capture render_signal_analyzer aec_state outputs2.
Proof.
  intros H1 H2 F1 F2. unfold Process, num_capture_channels_.
  destruct (Nat.eqb_spec (length (channels st)) (length capture)) as [Hn | _];
    [| reflexivity].
  cbn [negb]. destruct (channels st) as [| c0 cs] eqn:Ecs; [reflexivity |].
  destruct (RenderPowers _ _ _) as [X2_main X2_shadow].
  rewrite (ProcessChannels_independent X2_main X2_shadow render_buffer
             render_signal_analyzer aec_state (c0 :: cs) capture outputs1
             outputs2); auto.
Qed.

(** C7.  [Process] is deterministic: two runs that start from the same
    subtractor state and are fed the same sequence of render buffers,
    capture blocks, analyzers and echo states produce the same sequence of
    outputs and end in the same state, whatever the output arrays of the
    two runs held before each call. *)
Theorem Process_deterministic (st : Subtractor)
    (blocks1 blocks2 : list BlockInput) :
  Forall2 same_block_input blocks1 blocks2 ->
  ProcessBlocks st blocks1 = ProcessBlocks st blocks2.
Proof.
  intros Hsame. revert st.
  induction Hsame as [| b1 b2 blocks1 blocks2 Hb _ IH]; intros st;
    [reflexivity |].
  destruct Hb as (Hr & Hc & Ha & Hs & H1 & H2 & F1 & F2).
  cbn [ProcessBlocks]. rewrite <- Hr, <- Hc, <- Ha, <- Hs.
  rewrite <- Hc in H2.
  rewrite (Process_independent st (bi_render_buffer b1) (bi_capture b1)
             (bi_render_signal_analyzer b1) (bi_aec_state b1)
             (bi_outputs b1) (bi_outputs b2) H1 H2 F1 F2).
  destruct (Process _ _ _ _ _ _) as [[st1 outs] |]; [| reflexivity].
  rewrite IH. reflexivity.
Qed.

End DeterminismClaim.

(** ** The reference collaborators keep the assumed contracts *)

Lemma firstn_then_more {A} (l : list A) (a b : nat) :
  (a <= b)%nat -> firstn a l ++ firstn (b - a) (skipn a l) = firstn b l.
Proof.
  revert l b. induction a as [| a IH]; intros l b Hab.
  - cbn. rewrite Nat.sub_0_r. reflexivity.
  - destruct b as [| b]; [lia |]. destruct l as [| x l]; cbn.
    + rewrite firstn_nil. reflexivity.
    + f_equal. apply IH. lia.
Qed.

Lemma Reference_SpectralSums_sums (render_buffer : Reference.RenderBuffer)
    (shorter longer : nat) :
  (shorter < longer)%nat ->
  Reference.SpectralSums render_buffer shorter longer
  = (Reference.SpectralSum render_buffer shorter,
     Reference.SpectralSum render_buffer longer).
Proof.
  intros Hlt. unfold Reference.SpectralSums, Reference.SpectralSum.
  f_equal. rewrite <- fold_left_app. f_equal.
  apply firstn_then_more. lia.
Qed.

Lemma Reference_Ifft_length (S : FftData) :
  length (Reference.Ifft S) = @kFftLength Reference.common.
Proof.
  unfold Reference.Ifft. rewrite length_app, !length_map, !length_seq.
  reflexivity.
Qed.

Lemma Reference_Ifft_zero (S : FftData) :
  zero_spectrum S ->
  Forall (fun x => F32.is_zero x = true) (Reference.Ifft S).
Proof.
  intros [Hre Him]. unfold Reference.Ifft. apply Forall_app. split;
    apply Forall_forall; intros x Hx; apply in_map_iff in Hx;
    destruct Hx as (k & <- & _); unfold Reference.at_;
    apply nth_Forall; auto.
Qed.

Section ReferenceRuns.
#[local] Existing Instance Reference.common.
#[local] Existing Instance reference_collaborators.

Lemma PredictionError_zero_spectrum_witness :
  PredictionError Reference.zero_fft (hd [] Blocks.capture_A)
                  (e_main Blocks.blank_output)
                  (Some (s_main Blocks.blank_output))
  = (hd [] Blocks.capture_A, Some (fill kBlockSize F32.zero)).
Proof.
  apply (PredictionError_zero_spectrum
           (K := Reference.common) (C := reference_collaborators)
           Reference_Ifft_length Reference_Ifft_zero
           Reference.zero_fft (hd [] Blocks.capture_A)
           (e_main Blocks.blank_output) (s_main Blocks.blank_output)).
  - reflexivity.
  - split; apply Forall_forall; intros x Hx; apply repeat_spec in Hx;
      subst x; reflexivity.
  - reflexivity.
  - reflexivity.
  - reflexivity.
  - vm_compute. reflexivity.
Defined.

Lemma render_powers_shared_or_separate_witness :
  let st := Blocks.subtractor_long_main in
  let run := Scenarios.run_long_main in
  let c := Blocks.channel0 st in
  let c' := Blocks.channel0 (Blocks.state_after st run) in
  let o' := Blocks.output0 (Blocks.outputs_after run) in
  let formed :=
    FormOutputs Blocks.render_two c (hd [] Blocks.capture_A)
                Blocks.blank_output in
  let unclamped :=
    {| s_main := s_main formed; s_shadow := s_shadow formed;
       e_main := e_main formed; e_shadow := e_shadow formed;
       E_main := E_main o';
       E2_main := E2_main o'; E2_shadow := E2_shadow o';
       e2_main := e2_main formed; e2_shadow := e2_shadow formed;
       y2 := y2 formed |} in
  let main_gain :=
    MainGain_Compute (G_main_ c) (SpectralSum Blocks.render_two 2) tt
      unclamped (ComputeErl (main_frequency_response_ c)) 2 false in
  let shadow_gain :=
    ShadowGain_Compute (G_shadow_ c) (SpectralSum Blocks.render_two 1) tt
      (ZeroPaddedFft (e_shadow o')) 1 false in
  RenderPowers Blocks.render_two 2 1
  = (snd (SpectralSums Blocks.render_two 1 2),
     fst (SpectralSums Blocks.render_two 1 2))
  /\ run
     = ProcessSeparateSums st Blocks.render_two Blocks.capture_A tt false
                           [Blocks.blank_output]
  /\ X2_of st Blocks.render_two
     = (SpectralSum Blocks.render_two 2, SpectralSum Blocks.render_two 1)
  /\ (main_filter_ c', main_impulse_response_ c')
     = AdaptImpulseResponse (main_filter_ c) Blocks.render_two
         (snd main_gain) (main_impulse_response_ c)
  /\ shadow_filter_ c'
     = Adapt (shadow_filter_ c) Blocks.render_two (snd shadow_gain).
Proof.
  cbv zeta.
  assert (Hquiet :
            IsAdjustmentNeeded (C := reference_collaborators)
              (Update (K := Reference.common)
                 (filter_misadjustment_estimator_
                    (Blocks.channel0 Blocks.subtractor_long_main))
                 (FormOutputs (K := Reference.common)
                    (C := reference_collaborators) Blocks.render_two
                    (Blocks.channel0 Blocks.subtractor_long_main)
                    (hd [] Blocks.capture_A) Blocks.blank_output)) = false)
    by (vm_compute; reflexivity).
  assert (Hcount :
            ((if F32.ltb
                   (e2_main
                      (Blocks.output0
                         (Blocks.outputs_after Scenarios.run_long_main)))
                   (e2_shadow
                      (Blocks.output0
                         (Blocks.outputs_after Scenarios.run_long_main)))
              then (poor_shadow_filter_counter_
                      (Blocks.channel0 Blocks.subtractor_long_main) + 1)%nat
              else 0%nat) < 5)%nat)
    by (vm_compute; repeat constructor).
  destruct (render_powers_shared_or_separate
              (K := Reference.common) (C := reference_collaborators)
              Reference_SpectralSums_sums
              Blocks.subtractor_long_main Blocks.render_two Blocks.capture_A
              tt false [Blocks.blank_output])
    as (_ & Hshorter & _ & Hsame & _ & Hgains).
  destruct (Hgains
              (Blocks.state_after Blocks.subtractor_long_main
                                  Scenarios.run_long_main)
              (Blocks.outputs_after Scenarios.run_long_main)
              (Blocks.channel0 Blocks.subtractor_long_main) 0%nat
              (Blocks.channel0 Blocks.subtractor_long_main)
              (Blocks.channel0
                 (Blocks.state_after Blocks.subtractor_long_main
                                     Scenarios.run_long_main))
              (hd [] Blocks.capture_A) Blocks.blank_output
              (Blocks.output0 (Blocks.outputs_after Scenarios.run_long_main))
              ltac:(reflexivity) ltac:(reflexivity) ltac:(reflexivity)
              ltac:(reflexivity) ltac:(reflexivity) ltac:(reflexivity)
              ltac:(reflexivity))
    as (HX & _ & Hmain & Hshadow & _).
  split; [exact (Hshorter 2%nat 1%nat (le_n 2)) |].
  split; [exact Hsame |].
  split; [exact HX |].
  split; [exact (proj2 (Hmain Hquiet)) | exact (proj2 (Hshadow Hcount))].
Defined.

Lemma Process_deterministic_witness :
  ProcessBlocks Blocks.subtractor_A Blocks.blocks_first_run
  = ProcessBlocks Blocks.subtractor_A Blocks.blocks_second_run
  /\ ProcessBlocks Blocks.subtractor_A Blocks.blocks_first_run <> None.
Proof.
  split.
  - apply (Process_deterministic
             (K := Reference.common) (C := reference_collaborators)).
    repeat constructor.
  - intros H.
    apply (f_equal (fun r => match r with Some _ => true | None => false end))
      in H.
    vm_compute in H. discriminate.
Defined.

End ReferenceRuns.

(* ===================================================================== *)
(** * Part III: further properties of the estimator                       *)
(* ===================================================================== *)

Section EstimatorCycle.
Context {K : Aec3Common}.
Local Open Scope f32_scope.

Lemma Update_block_counter (est : FilterMisadjustmentEstimator)
    (output : SubtractorOutput) :
  (0 <= n_blocks_acum_ est < n_blocks_)%Z ->
  n_blocks_acum_ (Update est output)
  = ((n_blocks_acum_ est + 1) mod n_blocks_)%Z.
Proof.
  unfold n_blocks_. intros Hn. unfold Update.
  rewrite wrap32_small by (unfold INT_MIN, INT_MAX; lia).
  destruct (Z.eqb_spec (n_blocks_acum_ est + 1) n_blocks_) as [E | E];
    unfold n_blocks_ in E.
  - destruct (_ >? y2_floor); [destruct (_ || _) |];
      cbn [n_blocks_acum_]; rewrite E; reflexivity.
  - cbn [n_blocks_acum_]. rewrite Z.mod_small; lia.
Qed.

(** X1.  The window closes at every fourth call: after any number of calls the
    block counter is the number of calls made since the start of the
    running window, modulo 4. *)
Theorem block_counter_cycles (est : FilterMisadjustmentEstimator)
    (outputs : list SubtractorOutput) :
  (0 <= n_blocks_acum_ est < n_blocks_)%Z ->
  n_blocks_acum_ (UpdateAll est outputs)
  = ((n_blocks_acum_ est + Z.of_nat (length outputs)) mod n_blocks_)%Z.
Proof.
  revert est. induction outputs as [| o outputs IH]; intros est Hn.
  - cbn. rewrite Z.add_0_r, Z.mod_small; [reflexivity | exact Hn].
  - change (UpdateAll est (o :: outputs))
      with (UpdateAll (Update est o) outputs).
    rewrite IH; rewrite Update_block_counter by exact Hn.
    + rewrite Zplus_mod_idemp_l. f_equal. cbn [length]. lia.
    + apply Z.mod_pos_bound. reflexivity.
Qed.

Lemma Update_keeps_ok (est : FilterMisadjustmentEstimator)
    (output : SubtractorOutput) :
  estimator_ok est -> estimator_ok (Update est output).
Proof.
  intros (Hn & Hov & Hacc). split; [| split].
  - rewrite Update_block_counter by exact Hn.
    apply Z.mod_pos_bound. reflexivity.
  - apply Update_overhang_range. exact Hov.
  - unfold n_blocks_ in Hn. unfold Update.
    rewrite wrap32_small by (unfold INT_MIN, INT_MAX; lia).
    destruct (Z.eqb_spec (n_blocks_acum_ est + 1) n_blocks_) as [E | E].
    + destruct (_ >? y2_floor); [destruct (_ || _) |]; cbn; auto.
    + cbn [n_blocks_acum_]. lia.
Qed.

Lemma Reset_ok (est : FilterMisadjustmentEstimator) : estimator_ok (Reset est).
Proof. unfold estimator_ok, n_blocks_. cbn. repeat split; lia. Qed.

(** X2.  [Reset] establishes, and every sequence of [Update] calls keeps: the
    block counter inside the window, the overhang counter between 0 and 4,
    and both accumulators at [+0] whenever a window starts. *)
Theorem estimator_invariant (est : FilterMisadjustmentEstimator)
    (outputs : list SubtractorOutput) :
  estimator_ok (Reset est)
  /\ (estimator_ok est -> estimator_ok (UpdateAll est outputs)).
Proof.
  split.
  - apply Reset_ok.
  - revert est. induction outputs as [| o outputs IH]; intros est Hok;
      [exact Hok |].
    apply (IH (Update est o)). apply Update_keeps_ok. exact Hok.
Qed.

End EstimatorCycle.

(** ** Signs of binary32 results *)

Lemma binary_round_aux_sign (m e : Z) (l : location) :
  F32_not_negative (binary_round_aux F32.prec F32.emax false m e l) = true.
Proof.
  unfold binary_round_aux.
  destruct (shr_fexp F32.prec F32.emax m e l) as [mrs' e'].
  destruct (shr_fexp F32.prec F32.emax _ e' loc_Exact) as [mrs'' e''].
  destruct (shr_m mrs'') as [| p | p]; try reflexivity.
  destruct (Z.leb e'' _); reflexivity.
Qed.

Lemma binary_round_sign (m : positive) (e : Z) :
  F32_not_negative (binary_round F32.prec F32.emax false m e) = true.
Proof.
  unfold binary_round. destruct (shl_align m e _) as [mz ez].
  apply binary_round_aux_sign.
Qed.

Lemma F32_of_nat_sign (n : nat) : F32_not_negative (F32.of_nat n) = true.
Proof.
  unfold F32.of_nat, F32.of_Z, binary_normalize.
  destruct (Z.of_nat n) as [| p | p] eqn:E; try reflexivity.
  - apply binary_round_sign.
  - lia.
Qed.

Lemma F32_add_sign (a b : float) :
  F32_not_negative a = true -> F32_not_negative b = true ->
  F32_not_negative (F32.add a b) = true.
Proof.
  unfold F32.add.
  destruct a as [sa | [|] | | [|] ma ea], b as [sb | [|] | | [|] mb eb];
    try discriminate; intros _ _; try reflexivity.
  - destruct sa, sb; reflexivity.
  - cbn [SFadd cond_Zopp]. cbn [Z.add binary_normalize].
    apply binary_round_sign.
Qed.

Lemma F32_mul_sign (a b : float) :
  F32_not_negative a = true -> F32_not_negative b = true ->
  F32_not_negative (F32.mul a b) = true.
Proof.
  unfold F32.mul.
  destruct a as [sa | [|] | | [|] ma ea], b as [sb | [|] | | [|] mb eb];
    try discriminate; intros _ _; try reflexivity.
  cbn [SFmul xorb]. apply binary_round_aux_sign.
Qed.

(** A number above a number that is not negative is positive. *)
Lemma F32_gtb_positive (a b : float) :
  F32_not_negative b = true -> F32.gtb a b = true ->
  exists m e, a = S754_finite false m e \/ a = S754_infinity false.
Proof.
  unfold F32.gtb.
  destruct a as [sa | [|] | | [|] ma ea], b as [sb | [|] | | [|] mb eb];
    try discriminate; intros _ H; try discriminate H;
    try (exists ma, ea; left; reflexivity);
    try (exists 1%positive, 0%Z; right; reflexivity).
Qed.

Lemma F32_div_sign (a b : float) :
  F32_not_negative a = true ->
  (exists m e, b = S754_finite false m e \/ b = S754_infinity false) ->
  F32_not_negative (F32.div a b) = true.
Proof.
  unfold F32.div. intros Ha (m & e & [-> | ->]);
    destruct a as [sa | [|] | | [|] ma ea]; try discriminate;
    try reflexivity.
  cbn [SFdiv xorb].
  destruct (SFdiv_core_binary _ _ _ _ _ _) as [[mz ez] lz].
  apply binary_round_aux_sign.
Qed.

Lemma F32_not_negative_ltb_zero (a : float) :
  F32_not_negative a = true -> F32.ltb a F32.zero = false.
Proof. destruct a as [sa | [|] | | [|] ma ea]; try discriminate; reflexivity. Qed.

Section EstimatorAtRest.
Context {K : Aec3Common} {C : Collaborators}.
Local Open Scope f32_scope.

Lemma y2_floor_sign : F32_not_negative y2_floor = true.
Proof.
  unfold y2_floor. repeat apply F32_mul_sign; try reflexivity.
  apply F32_of_nat_sign.
Qed.

Lemma Update_at_rest (est : FilterMisadjustmentEstimator)
    (output : SubtractorOutput) :
  estimate_at_rest est ->
  F32_not_negative (e2_acum_ est) = true ->
  F32_not_negative (e2_main output) = true ->
  (e2_acum_ est + e2_main output >? e2_divergence) = false ->
  estimate_at_rest (Update est output)
  /\ F32_not_negative (e2_acum_ (Update est output)) = true.
Proof.
  intros [Hinv Hov] Ha He Hquiet. unfold estimate_at_rest, Update.
  rewrite Hquiet, Hinv, Hov.
  destruct (_ =? _)%Z; [| cbn; auto using F32_add_sign].
  destruct (y2_acum_ est + y2 output >? y2_floor) eqn:Efloor;
    [| cbn; auto].
  rewrite F32_not_negative_ltb_zero.
  - cbn. auto.
  - apply F32_div_sign; [apply F32_add_sign; assumption |].
    apply (F32_gtb_positive _ y2_floor y2_floor_sign Efloor).
Qed.

(** X3.  Without a diverged window no adjustment is asked for.  From an
    estimator at rest (as [Reset] leaves it), however many blocks are fed
    and whatever capture energy they carry: as long as the residual
    energies are not negative and their accumulated sum never exceeds
    [4 * 7500^2 * kBlockSize], the smoothed estimate stays at [+0] and the
    overhang counter at 0, so [IsAdjustmentNeeded] answers what it answers
    after [Reset]. *)
Theorem estimate_rests_without_divergence
    (est : FilterMisadjustmentEstimator) (outputs : list SubtractorOutput) :
  estimate_at_rest est ->
  F32_not_negative (e2_acum_ est) = true ->
  Forall (fun o => F32_not_negative (e2_main o) = true) outputs ->
  never_diverges est outputs ->
  estimate_at_rest (UpdateAll est outputs)
  /\ IsAdjustmentNeeded (UpdateAll est outputs)
     = IsAdjustmentNeeded (Reset est).
Proof.
  intros Hrest Ha Hall Hquiet.
  assert (H : estimate_at_rest (UpdateAll est outputs)).
  { revert est Hrest Ha Hquiet.
    induction Hall as [| o outputs Ho _ IH]; intros est Hrest Ha Hquiet;
      [exact Hrest |].
    destruct Hquiet as [Hq Hquiet].
    destruct (Update_at_rest est o Hrest Ha Ho Hq) as [Hrest' Ha'].
    exact (IH (Update est o) Hrest' Ha' Hquiet). }
  split; [exact H |].
  unfold IsAdjustmentNeeded. rewrite (proj1 H). reflexivity.
Qed.

End EstimatorAtRest.

(* ===================================================================== *)
(** * Part IV: further properties of the subtractor                       *)
(* ===================================================================== *)

Section ProcessShape.
Context {K : Aec3Common} {C : Collaborators}.

Lemma ProcessChannels_Some_inv (X2_main X2_shadow : list float)
    (render_buffer : RenderBuffer) (render_signal_analyzer : RenderSignalAnalyzer)
    (aec_state : AecState) (cs : list ChannelState) :
  forall capture outputs r,
    ProcessChannels X2_main X2_shadow render_buffer render_signal_analyzer
                    aec_state cs capture outputs = Some r ->
    (length cs <= length capture)%nat /\ (length cs <= length outputs)%nat
    /\ Forall (fun y => length y = kBlockSize) (firstn (length cs) capture)
    /\ skipn (length cs) (snd r) = skipn (length cs) outputs.
Proof.
  induction cs as [| c cs IH]; intros capture outputs r Hr.
  - injection Hr as <-. cbn. repeat split; auto; lia.
  - destruct capture as [| y capture]; [discriminate |].
    destruct outputs as [| o outputs]; [discriminate |].
    cbn [ProcessChannels] in Hr.
    destruct (Nat.eqb_spec kBlockSize (length y)) as [Hy | _];
      [| discriminate].
    destruct (ProcessChannel _ _ _ _ _ c y o) as [c' o'].
    destruct (ProcessChannels _ _ _ _ _ cs capture outputs)
      as [[cs2 outs2] |] eqn:E; [| discriminate].
    injection Hr as <-.
    destruct (IH _ _ _ E) as (H1 & H2 & H3 & H4).
    cbn. repeat split; try lia; auto.
Qed.

(** X4.  [Process] returns exactly when its preconditions hold: there is a
    channel 0, [capture] has one block per channel, every block has
    [kBlockSize] samples and [outputs] has an entry for every channel. *)
Theorem Process_returns_iff (st : Subtractor) render_buffer capture
    render_signal_analyzer aec_state outputs :
  (exists r,
      Process st render_buffer capture render_signal_analyzer aec_state
              outputs = Some r)
  <-> (channels st <> []
       /\ length capture = num_capture_channels_ st
       /\ (num_capture_channels_ st <= length outputs)%nat
       /\ Forall (fun y => length y = kBlockSize) capture).
Proof.
  split.
  - intros [r Hr]. unfold Process, num_capture_channels_ in *.
    destruct (Nat.eqb_spec (length (channels st)) (length capture))
      as [Hn | _]; [| discriminate].
    cbn [negb] in Hr.
    destruct (channels st) as [| c0 cs] eqn:Ecs; [discriminate |].
    destruct (RenderPowers _ _ _) as [X2_main X2_shadow].
    destruct (ProcessChannels _ _ _ _ _ _ _ _) as [r' |] eqn:E;
      [| discriminate].
    destruct (ProcessChannels_Some_inv _ _ _ _ _ _ _ _ _ E)
      as (_ & Hout & Hy & _).
    rewrite Hn, firstn_all in Hy.
    repeat split; auto. discriminate.
  - intros (Hne & Hcap & Hout & Hy).
    apply Process_returns; assumption.
Qed.

Lemma Process_shape (st st' : Subtractor) render_buffer capture
    render_signal_analyzer aec_state outputs outputs' :
  Process st render_buffer capture render_signal_analyzer aec_state outputs
    = Some (st', outputs') ->
  config_ st' = config_ st
  /\ length (channels st') = length (channels st)
  /\ length outputs' = length outputs
  /\ skipn (length (channels st)) outputs'
     = skipn (length (channels st)) outputs.
Proof.
  unfold Process. intros HP.
  destruct (negb _); [discriminate |].
  destruct (channels st) as [| c0 cs] eqn:Ecs; [discriminate |].
  destruct (RenderPowers _ _ _) as [X2_main X2_shadow].
  destruct (ProcessChannels _ _ _ _ _ _ _ _) as [[cs' outs] |] eqn:E;
    [| discriminate].
  injection HP as <- <-. cbn [config_ channels].
  destruct (ProcessChannels_length _ _ _ _ _ _ _ _ _ _ E) as [H1 H2].
  destruct (ProcessChannels_Some_inv _ _ _ _ _ _ _ _ _ E) as (_ & _ & _ & H4).
  repeat split; auto.
Qed.

(** X5.  [Process] changes neither the configuration nor the number of
    channels, keeps the length of the output array, and leaves the
    entries beyond the channels as they were. *)
Theorem Process_keeps_shape (st st' : Subtractor) render_buffer capture
    render_signal_analyzer aec_state outputs outputs' :
  Process st render_buffer capture render_signal_analyzer aec_state outputs
    = Some (st', outputs') ->
  config_ st' = config_ st
  /\ num_capture_channels_ st' = num_capture_channels_ st
  /\ length outputs' = length outputs
  /\ skipn (num_capture_channels_ st) outputs'
     = skipn (num_capture_channels_ st) outputs.
Proof.
  unfold Process, num_capture_channels_. intros HP.
  destruct (negb _); [discriminate |].
  destruct (channels st) as [| c0 cs] eqn:Ecs; [discriminate |].
  destruct (RenderPowers _ _ _) as [X2_main X2_shadow].
  destruct (ProcessChannels _ _ _ _ _ _ _ _) as [[cs' outs] |] eqn:E;
    [| discriminate].
  injection HP as <- <-. cbn [config_ channels].
  destruct (ProcessChannels_length _ _ _ _ _ _ _ _ _ _ E) as [H1 H2].
  destruct (ProcessChannels_Some_inv _ _ _ _ _ _ _ _ _ E) as (_ & _ & _ & H4).
  repeat split; auto.
Qed.

End ProcessShape.

Section ProcessInvariants.
Context {K : Aec3Common} {C : Collaborators}.
Local Open Scope f32_scope.

Lemma zip_with_length {A B D} (f : A -> B -> D) (a : list A) (b : list B) :
  length (zip_with f a b) = Nat.min (length a) (length b).
Proof. unfold zip_with. rewrite length_map, length_combine. reflexivity. Qed.

Section Sizes.
(** The inverse transform fills an array of [kFftLength] samples. *)
Hypothesis Ifft_length : forall S, length (Ifft S) = kFftLength.

Lemma FormOutputs_sized (render_buffer : RenderBuffer) (c : ChannelState)
    (y : list float) (o : SubtractorOutput) :
  length y = kBlockSize -> output_sized o ->
  output_sized (FormOutputs render_buffer c y o).
Proof.
  intros Hy (He & Hes & Hs & Hss).
  unfold output_sized, FormOutputs, PredictionError, transform2.
  cbn [ComputeMetrics e_main e_shadow s_main s_shadow fst snd].
  rewrite !length_app, !zip_with_length, !length_skipn, !length_map,
    !length_seq, !Ifft_length, He, Hes, Hy.
  unfold kFftLength, kBlockSize in *. repeat split; try assumption; lia.
Qed.

Lemma ProcessChannel_sized (X2_main X2_shadow : list float)
    (render_buffer : RenderBuffer) (render_signal_analyzer : RenderSignalAnalyzer)
    (aec_state : AecState) (c : ChannelState) (y : list float)
    (o : SubtractorOutput) :
  length y = kBlockSize -> output_sized o ->
  output_sized (snd (ProcessChannel X2_main X2_shadow render_buffer
                                    render_signal_analyzer aec_state c y o)).
Proof.
  intros Hy Ho.
  destruct (FormOutputs_sized render_buffer c y o Hy Ho)
    as (He & Hes & Hs & Hss).
  unfold ProcessChannel. cbn [snd]. unfold output_sized.
  cbn [clamp_e_main e_main e_shadow s_main s_shadow].
  rewrite length_map.
  destruct (IsAdjustmentNeeded
              (Update (filter_misadjustment_estimator_ c)
                      (FormOutputs render_buffer c y o))) eqn:E.
  - rewrite (ProcessMain_adjusted X2_main render_buffer
               render_signal_analyzer aec_state c y o E).
    cbn [ms_output e_main e_shadow s_main s_shadow].
    rewrite ScaleFilterOutput_sized by lia.
    cbn [fst snd]. rewrite zip_with_length, !length_map.
    repeat split; try assumption; lia.
  - rewrite (ProcessMain_regular X2_main render_buffer
               render_signal_analyzer aec_state c y o E).
    cbn [ms_output e_main e_shadow s_main s_shadow]. auto.
Qed.

(** X6.  The residual and echo-estimate arrays keep their size: when every
    entry of the output array comes in with [kBlockSize] samples in each
    of its four time-domain arrays, every entry leaves [Process] so. *)
Theorem Process_outputs_sized (st st' : Subtractor) render_buffer capture
    render_signal_analyzer aec_state outputs outputs' :
  Process st render_buffer capture render_signal_analyzer aec_state outputs
    = Some (st', outputs') ->
  Forall output_sized outputs -> Forall output_sized outputs'.
Proof.
  unfold Process. intros HP.
  destruct (negb _); [discriminate |].
  destruct (channels st) as [| c0 cs0]; [discriminate |].
  destruct (RenderPowers _ _ _) as [X2_main X2_shadow].
  destruct (ProcessChannels _ _ _ _ _ _ _ _) as [[cs' outs] |] eqn:E;
    [| discriminate].
  injection HP as _ <-. clear st st'.
  revert capture outputs cs' outs E.
  induction (c0 :: cs0) as [| c cs IH]; intros capture outputs cs' outs E Hall.
  - injection E as _ <-. exact Hall.
  - destruct capture as [| y capture]; [discriminate |].
    destruct outputs as [| o outputs]; [discriminate |].
    cbn [ProcessChannels] in E.
    destruct (Nat.eqb_spec kBlockSize (length y)) as [Hy | _];
      [| discriminate].
    pose proof (ProcessChannel_sized X2_main X2_shadow render_buffer
                  render_signal_analyzer aec_state c y o) as Hs.
    destruct (ProcessChannel _ _ _ _ _ c y o) as [c' o'].
    destruct (ProcessChannels _ _ _ _ _ cs capture outputs)
      as [[cs2 outs2] |] eqn:E2; [| discriminate].
    injection E as _ <-.
    inversion Hall as [| ? ? Ho Hall']; subst.
    constructor; [apply Hs; auto | exact (IH _ _ _ _ E2 Hall')].
Qed.

End Sizes.

Lemma ProcessMain_estimator_ok (X2_main : list float)
    (render_buffer : RenderBuffer) (render_signal_analyzer : RenderSignalAnalyzer)
    (aec_state : AecState) (c : ChannelState) (y : list float)
    (o : SubtractorOutput) :
  estimator_ok (filter_misadjustment_estimator_ c) ->
  estimator_ok
    (ms_estimator (ProcessMain X2_main render_buffer render_signal_analyzer
                               aec_state c y o)).
Proof.
  intros Hok.
  destruct (IsAdjustmentNeeded
              (Update (filter_misadjustment_estimator_ c)
                      (FormOutputs render_buffer c y o))) eqn:E.
  - rewrite (ProcessMain_adjusted X2_main render_buffer
               render_signal_analyzer aec_state c y o E).
    apply Reset_ok.
  - rewrite (ProcessMain_regular X2_main render_buffer
               render_signal_analyzer aec_state c y o E).
    apply Update_keeps_ok. exact Hok.
Qed.

(** X7.  After every call of [Process] that returns, whatever the state
    before: in every channel the counter of poor shadow blocks is below 5,
    and the estimator does not ask for an adjustment (the adjustment a
    block asks for is applied, and the estimator reset, within that block)
    provided the reset estimate does not ask for one. *)
Theorem Process_leaves_channels_settled (st st' : Subtractor) render_buffer
    capture render_signal_analyzer aec_state outputs outputs'
    (ch : nat) (c' : ChannelState) :
  Process st render_buffer capture render_signal_analyzer aec_state outputs
    = Some (st', outputs') ->
  nth_error (channels st') ch = Some c' ->
  (poor_shadow_filter_counter_ c' < 5)%nat
  /\ (adjustment_needed F32.zero = false ->
      IsAdjustmentNeeded (filter_misadjustment_estimator_ c') = false).
Proof.
  intros HP Hc'.
  destruct (Process_shape _ _ _ _ _ _ _ _ HP) as (_ & Hn & _).
  destruct (nth_error (channels st) ch) as [c |] eqn:Hc.
  - destruct (Process_channel _ _ _ _ _ _ _ _ _ _ HP Hc)
      as (y & o & _ & _ & _ & Hr).
    cbv zeta in Hr. destruct Hr as [Hc2 _].
    rewrite Hc' in Hc2. injection Hc2 as ->.
    split; [apply ProcessChannel_counter_bound |].
    intros Hzero. unfold ProcessChannel.
    cbn [fst filter_misadjustment_estimator_].
    apply ProcessMain_estimator_quiet. exact Hzero.
  - apply nth_error_None in Hc.
    assert (ch < length (channels st'))%nat
      by (apply nth_error_Some; congruence).
    lia.
Qed.

Lemma ProcessChannels_ok (X2_main X2_shadow : list float)
    (render_buffer : RenderBuffer) (render_signal_analyzer : RenderSignalAnalyzer)
    (aec_state : AecState) (cs : list ChannelState) :
  forall capture outputs cs' outputs',
    ProcessChannels X2_main X2_shadow render_buffer render_signal_analyzer
                    aec_state cs capture outputs = Some (cs', outputs') ->
    Forall channel_ok cs -> Forall channel_ok cs'.
Proof.
  induction cs as [| c cs IH]; intros capture outputs cs' outputs' E Hall.
  - injection E as <- _. constructor.
  - destruct capture as [| y capture]; [discriminate |].
    destruct outputs as [| o outputs]; [discriminate |].
    cbn [ProcessChannels] in E.
    destruct (Nat.eqb kBlockSize (length y)); [| discriminate].
    pose proof (ProcessChannel_counter_bound X2_main X2_shadow render_buffer
                  render_signal_analyzer aec_state c y o) as Hcount.
    pose proof (ProcessMain_estimator_ok X2_main render_buffer
                  render_signal_analyzer aec_state c y o) as Hest.
    unfold ProcessChannel in *. cbn [fst] in Hcount.
    destruct (ProcessChannels _ _ _ _ _ cs capture outputs)
      as [[cs2 outs2] |] eqn:E2; [| discriminate].
    injection E as <- _.
    inversion Hall as [| ? ? [_ Hc] Hall']; subst.
    constructor; [| exact (IH _ _ _ _ E2 Hall')].
    split; [exact Hcount | exact (Hest Hc)].
Qed.

Lemma apply_operation_ok (st st' : Subtractor) (op : Operation) :
  apply_operation st op = Some st' ->
  Forall channel_ok (channels st) ->
  Forall channel_ok (channels st')
  /\ num_capture_channels_ st' = num_capture_channels_ st
  /\ config_ st' = config_ st.
Proof.
  destruct op as [b | v |]; cbn [apply_operation]; intros Hop Hall.
  - destruct (Process _ _ _ _ _ _) as [[st1 outs] |] eqn:HP;
      [| discriminate].
    injection Hop as ->.
    destruct (Process_shape _ _ _ _ _ _ _ _ HP) as (Hcfg & Hn & _).
    unfold num_capture_channels_. split; [| auto].
    unfold Process in HP. destruct (negb _); [discriminate |].
    destruct (channels st) as [| c0 cs0]; [discriminate |].
    destruct (RenderPowers _ _ _) as [X2_main X2_shadow].
    destruct (ProcessChannels _ _ _ _ _ _ _ _) as [[cs' outs'] |] eqn:E;
      [| discriminate].
    injection HP as <- _. cbn [channels].
    exact (ProcessChannels_ok _ _ _ _ _ _ _ _ _ _ E Hall).
  - injection Hop as <-. unfold HandleEchoPathChange, num_capture_channels_.
    cbn [channels config_].
    destruct (negb _), (gain_change v);
      rewrite ?length_map; (split; [| auto]);
      rewrite ?Forall_map; exact Hall.
  - injection Hop as <-. unfold ExitInitialState, num_capture_channels_.
    cbn [channels config_]. rewrite length_map. split; [| auto].
    rewrite Forall_map. exact Hall.
Qed.

(** X8.  Through every sequence of calls of [Process], [HandleEchoPathChange]
    and [ExitInitialState], a subtractor keeps its configuration and its
    number of channels, and in every channel the counter of poor shadow
    blocks stays below 5, the block counter of the estimator inside its
    window and the overhang counter between 0 and 4. *)
Theorem operations_keep_invariant (st st' : Subtractor)
    (ops : list Operation) :
  apply_operations st ops = Some st' ->
  Forall channel_ok (channels st) ->
  Forall channel_ok (channels st')
  /\ num_capture_channels_ st' = num_capture_channels_ st
  /\ config_ st' = config_ st.
Proof.
  revert st. induction ops as [| op ops IH]; intros st Hrun Hall.
  - injection Hrun as <-. auto.
  - cbn [apply_operations] in Hrun.
    destruct (apply_operation st op) as [st1 |] eqn:Hop; [| discriminate].
    destruct (apply_operation_ok st st1 op Hop Hall) as (H1 & H2 & H3).
    destruct (IH st1 Hrun H1) as (H4 & H5 & H6).
    split; [exact H4 | split; congruence].
Qed.

End ProcessInvariants.

Section ChannelIsolation.
Context {K : Aec3Common} {C : Collaborators}.
Local Open Scope f32_scope.

(** X9.  The channels do not influence one another, beyond the partition
    counts read from channel 0: two calls of [Process] with the same render
    buffer, analyzer and echo state whose subtractors, capture blocks and
    output entries agree on channel [ch], and which compute the same render
    powers, leave the same state and the same output in channel [ch],
    whatever the other channels hold. *)
Theorem Process_channel_isolated (st1 st1' st2 st2' : Subtractor)
    render_buffer render_signal_analyzer aec_state
    capture1 capture2 outputs1 outputs1' outputs2 outputs2' (ch : nat) :
  Process st1 render_buffer capture1 render_signal_analyzer aec_state
          outputs1 = Some (st1', outputs1') ->
  Process st2 render_buffer capture2 render_signal_analyzer aec_state
          outputs2 = Some (st2', outputs2') ->
  X2_of st1 render_buffer = X2_of st2 render_buffer ->
  nth_error (channels st1) ch = nth_error (channels st2) ch ->
  nth_error capture1 ch = nth_error capture2 ch ->
  nth_error outputs1 ch = nth_error outputs2 ch ->
  nth_error (channels st1') ch = nth_error (channels st2') ch
  /\ nth_error outputs1' ch = nth_error outputs2' ch.
Proof.
  intros HP1 HP2 HX Hc Hy Ho.
  destruct (Process_shape _ _ _ _ _ _ _ _ HP1) as (_ & Hn1 & Hl1 & Hs1).
  destruct (Process_shape _ _ _ _ _ _ _ _ HP2) as (_ & Hn2 & Hl2 & Hs2).
  destruct (nth_error (channels st1) ch) as [c |] eqn:Hc1.
  - symmetry in Hc.
    destruct (Process_channel _ _ _ _ _ _ _ _ _ _ HP1 Hc1)
      as (y1 & o1 & Hy1 & Ho1 & _ & Hr1).
    destruct (Process_channel _ _ _ _ _ _ _ _ _ _ HP2 Hc)
      as (y2 & o2 & Hy2 & Ho2 & _ & Hr2).
    cbv zeta in Hr1, Hr2.
    rewrite Hy1, Hy2 in Hy. rewrite Ho1, Ho2 in Ho.
    injection Hy as ->. injection Ho as ->. rewrite HX in Hr1.
    destruct Hr1 as [-> ->]. destruct Hr2 as [-> ->]. auto.
  - symmetry in Hc. pose proof Hc1 as Hc1'.
    apply nth_error_None in Hc1. apply nth_error_None in Hc.
    split.
    + transitivity (@None ChannelState);
        [| symmetry]; apply nth_error_None; lia.
    + assert (Hk : forall (l l' : list SubtractorOutput) n,
                 (n <= ch)%nat -> skipn n l' = skipn n l ->
                 nth_error l' ch = nth_error l ch).
      { intros l l' n Hle Hsk.
        replace ch with (n + (ch - n))%nat by lia.
        rewrite <- !nth_error_skipn, Hsk. reflexivity. }
      rewrite (Hk _ _ _ Hc1 Hs1), (Hk _ _ _ Hc Hs2). exact Ho.
Qed.

(** X10.  An event that reports neither a delay change nor a gain change leaves
    the subtractor as it is. *)
Theorem HandleEchoPathChange_nothing_changed (st : Subtractor)
    (echo_path_variability : EchoPathVariability) :
  delay_change echo_path_variability = kNone ->
  gain_change echo_path_variability = false ->
  HandleEchoPathChange st echo_path_variability = st.
Proof.
  intros Hd Hg. unfold HandleEchoPathChange. rewrite Hd, Hg. cbn.
  destruct st; reflexivity.
Qed.

(** X11.  On a block on which the estimator, updated with the output of the
    block, does not ask for an adjustment: the main filter is not scaled,
    the main gain is computed from the render power, the output, the
    echo return loss of the frequency response cached by the previous
    block, the partition count of the main filter and the saturation flag,
    and the main filter is adapted with it; [s_main] is the echo estimate
    of [PredictionError] and [e_main] its residual, clamped. *)
Theorem Process_regular_path (st st' : Subtractor) render_buffer capture
    render_signal_analyzer aec_state outputs outputs'
    (ch : nat) (c c' : ChannelState) (y : list float)
    (o o' : SubtractorOutput) :
  Process st render_buffer capture render_signal_analyzer aec_state outputs
    = Some (st', outputs') ->
  nth_error (channels st) ch = Some c ->
  nth_error capture ch = Some y ->
  nth_error outputs ch = Some o ->
  nth_error (channels st') ch = Some c' ->
  nth_error outputs' ch = Some o' ->
  let formed := FormOutputs render_buffer c y o in
  let est1 := Update (filter_misadjustment_estimator_ c) formed in
  IsAdjustmentNeeded est1 = false ->
  let unclamped :=
    {| s_main := s_main formed; s_shadow := s_shadow formed;
       e_main := e_main formed; e_shadow := e_shadow formed;
       E_main := E_main o';
       E2_main := E2_main o'; E2_shadow := E2_shadow o';
       e2_main := e2_main formed; e2_shadow := e2_shadow formed;
       y2 := y2 formed |} in
  let gain :=
    MainGain_Compute (G_main_ c) (fst (X2_of st render_buffer))
      render_signal_analyzer unclamped
      (ComputeErl (main_frequency_response_ c))
      (SizePartitions (main_filter_ c)) (SaturatedCapture aec_state) in
  (main_filter_ c', main_impulse_response_ c')
    = AdaptImpulseResponse (main_filter_ c) render_buffer (snd gain)
                           (main_impulse_response_ c)
  /\ G_main_ c' = fst gain
  /\ main_frequency_response_ c'
     = ComputeFrequencyResponse (main_filter_ c') (main_frequency_response_ c)
  /\ filter_misadjustment_estimator_ c' = est1
  /\ o' = clamp_e_main unclamped
  /\ E_main o' = ZeroPaddedFft (e_main formed)
  /\ E2_main o' = Spectrum (E_main o')
  /\ E2_shadow o' = Spectrum (ZeroPaddedFft (e_shadow formed)).
Proof.
  intros HP Hc Hy Ho Hc' Ho' formed est1 Hquiet.
  destruct (Process_channel _ _ _ _ _ _ _ _ _ _ HP Hc)
    as (y0 & o0 & Hy0 & Ho0 & _ & Hr).
  rewrite Hy in Hy0. rewrite Ho in Ho0.
  injection Hy0 as <-. injection Ho0 as <-.
  cbv zeta in Hr. destruct Hr as [Hc2 Ho2].
  rewrite Hc' in Hc2. rewrite Ho' in Ho2.
  injection Hc2 as ->. injection Ho2 as ->.
  unfold ProcessChannel. cbn [fst snd].
  rewrite (ProcessMain_regular (fst (X2_of st render_buffer)) render_buffer
             render_signal_analyzer aec_state c y o Hquiet).
  cbn [ms_main_filter ms_impulse_response ms_estimator ms_G_main ms_output
       ms_frequency_response clamp_e_main s_main s_shadow e_main e_shadow
       E_main E2_main E2_shadow e2_main e2_shadow y2
       main_filter_ main_impulse_response_ main_frequency_response_
       filter_misadjustment_estimator_ G_main_].
  fold formed.
  repeat split; try reflexivity.
  destruct (AdaptImpulseResponse _ _ _ _); reflexivity.
Qed.

(** X12.  After an event that reports a delay change, in whatever state it
    arrives (before or after [ExitInitialState]), provided a filter that is
    set to an initial partition count with immediate effect reports that
    count: the main and the shadow filter of every channel report the
    initial partition counts, and when these two counts are equal the next
    [Process] computes one spectral sum for both filters. *)
Theorem delay_change_restores_initial_sizes (st : Subtractor)
    (echo_path_variability : EchoPathVariability) :
  delay_change echo_path_variability <> kNone ->
  let st' := HandleEchoPathChange st echo_path_variability in
  let m := main_length_blocks (main_initial (config_ st)) in
  let s := shadow_length_blocks (shadow_initial (config_ st)) in
  (forall f, SizePartitions (SetSizePartitions f m true) = m) ->
  (forall f, SizePartitions (SetSizePartitions f s true) = s) ->
  Forall (fun c' => SizePartitions (main_filter_ c') = m
                    /\ SizePartitions (shadow_filter_ c') = s)
         (channels st')
  /\ (channels st <> [] -> m = s ->
      forall render_buffer,
        X2_of st' render_buffer
        = (SpectralSum render_buffer m, SpectralSum render_buffer m)).
Proof.
  intros Hd st' m s Hmain Hshadow.
  assert (Hall : Forall (fun c' => SizePartitions (main_filter_ c') = m
                                   /\ SizePartitions (shadow_filter_ c') = s)
                        (channels st')).
  { unfold st', HandleEchoPathChange. cbn [channels].
    destruct (DelayAdjustment_eqb (delay_change echo_path_variability) kNone)
      eqn:Ed; [apply DelayAdjustment_eqb_eq in Ed; contradiction |].
    cbn [negb].
    destruct (gain_change echo_path_variability);
      rewrite ?Forall_map; apply Forall_forall; intros c _;
      cbn [gain_change_channel full_reset_channel main_filter_ shadow_filter_];
      (split; [apply Hmain | apply Hshadow]). }
  split; [exact Hall |].
  intros Hne Hms render_buffer. unfold X2_of.
  assert (Hlen : length (channels st') = length (channels st)).
  { unfold st', HandleEchoPathChange. cbn [channels].
    destruct (negb _), (gain_change echo_path_variability);
      rewrite ?length_map; reflexivity. }
  destruct (channels st') as [| c0 cs].
  - destruct (channels st); [contradiction | discriminate].
  - inversion Hall as [| ? ? [Hm Hs] _]; subst.
    rewrite Hm, Hs. fold m s. rewrite <- Hms.
    unfold RenderPowers. rewrite Nat.eqb_refl. reflexivity.
Qed.

End ChannelIsolation.

Section Energies.
Context {K : Aec3Common} {C : Collaborators}.
Local Open Scope f32_scope.

Lemma F32_square_sign (x : float) : F32_not_negative (x * x) = true.
Proof.
  unfold F32.mul. destruct x as [[|] | [|] | | [|] m e]; try reflexivity;
    cbn [SFmul xorb]; apply binary_round_aux_sign.
Qed.

Lemma sum_of_squares_sign (l : list float) :
  F32_not_negative (sum_of_squares l) = true.
Proof.
  unfold sum_of_squares.
  assert (H : forall a, F32_not_negative a = true ->
                        F32_not_negative
                          (fold_left (fun a b => a + b * b) l a) = true).
  { induction l as [| x l IH]; intros a Ha; [exact Ha |].
    cbn [fold_left]. apply IH. apply F32_add_sign; [exact Ha |].
    apply F32_square_sign. }
  apply H. reflexivity.
Qed.

(** X22.  The energies that [Process] leaves in the output of a channel are
    never negative, whatever the capture block, the filters and the
    contents of the output before the call: each of [e2_main], [e2_shadow]
    and [y2] is a zero, a positive number, [+inf] or a NaN.  The estimator
    is thus never fed a negative residual energy. *)
Theorem Process_energies_not_negative (st st' : Subtractor) render_buffer
    capture render_signal_analyzer aec_state outputs outputs'
    (ch : nat) (c : ChannelState) (o' : SubtractorOutput) :
  Process st render_buffer capture render_signal_analyzer aec_state outputs
    = Some (st', outputs') ->
  nth_error (channels st) ch = Some c ->
  nth_error outputs' ch = Some o' ->
  F32_not_negative (e2_main o') = true
  /\ F32_not_negative (e2_shadow o') = true
  /\ F32_not_negative (y2 o') = true.
Proof.
  intros HP Hc Ho'.
  destruct (Process_channel _ _ _ _ _ _ _ _ _ _ HP Hc)
    as (y & o & _ & _ & _ & Hr).
  cbv zeta in Hr. destruct Hr as [_ Ho2].
  rewrite Ho' in Ho2. injection Ho2 as ->.
  unfold ProcessChannel. cbn [snd clamp_e_main e2_main e2_shadow y2].
  destruct (ProcessMain_output_kept (fst (X2_of st render_buffer))
              render_buffer render_signal_analyzer aec_state c y o)
    as (H1 & H2 & H3 & _).
  rewrite H1, H2, H3. unfold FormOutputs, ComputeMetrics.
  cbn [e2_main e2_shadow y2].
  repeat split; apply sum_of_squares_sign.
Qed.

End Energies.

Section ResidualsAndEstimates.
Context {K : Aec3Common} {C : Collaborators}.
Local Open Scope f32_scope.

Lemma zip_with_map_r {A B B' D} (f : A -> B' -> D) (g : B -> B')
    (a : list A) (b : list B) :
  zip_with f a (map g b) = zip_with (fun x y => f x (g y)) a b.
Proof.
  unfold zip_with. revert b.
  induction a as [| x a IH]; intros [| y b]; try reflexivity.
  cbn. f_equal. apply IH.
Qed.

Lemma skipn_as_map {A} (l : list A) (d : A) (n m : nat) :
  length l = (n + m)%nat ->
  skipn n l = map (fun k => nth (k + n) l d) (seq 0 m).
Proof.
  intros Hl. apply (nth_ext _ _ d (nth (0 + n) l d)).
  - rewrite length_skipn, length_map, length_seq. lia.
  - intros i Hi. rewrite length_skipn in Hi.
    rewrite nth_skipn.
    rewrite (map_nth (fun k => nth (k + n) l d) (seq 0 m) 0%nat i).
    rewrite seq_nth by lia. f_equal. lia.
Qed.

(** What [PredictionError] leaves in [e] is the capture block minus what
    it leaves in [s], sample by sample. *)
Lemma PredictionError_consistent (S : FftData) (y e s : list float) :
  length (Ifft S) = kFftLength ->
  length y = kBlockSize -> length e = kBlockSize -> length s = kBlockSize ->
  fst (PredictionError S y e (Some s))
  = zip_with F32.sub y
      (match snd (PredictionError S y e (Some s)) with
       | Some s' => s'
       | None => s
       end).
Proof.
  unfold kFftLength, kBlockSize. intros Ht Hy He Hs.
  unfold PredictionError. cbn [fst snd]. unfold transform2.
  rewrite (skipn_all2 e) by lia. rewrite app_nil_r, Hs.
  rewrite (skipn_as_map (Ifft S) F32.zero kFftLengthBy2 kFftLengthBy2)
    by lia.
  rewrite !zip_with_map_r. unfold zip_with. apply map_ext.
  intros [a k]. cbn [fst snd]. rewrite F32_mul_comm. reflexivity.
Qed.

(** X23.  The residuals and the echo estimates that [Process] returns fit
    together, on the regular path and on the correction path alike:
    provided the inverse transform gives [kFftLength] samples and the
    output entry comes in with arrays of [kBlockSize] samples, in the
    output of every channel [e_shadow[k]] is [y[k] - s_shadow[k]] and
    [e_main[k]] is [y[k] - s_main[k]] clamped, for the [s_shadow] and
    [s_main] of that same output, bit for bit. *)
Theorem Process_residuals_match_estimates (st st' : Subtractor)
    render_buffer capture render_signal_analyzer aec_state outputs outputs'
    (ch : nat) (c : ChannelState) (y : list float)
    (o o' : SubtractorOutput) :
  (forall S, length (Ifft S) = kFftLength) ->
  Process st render_buffer capture render_signal_analyzer aec_state outputs
    = Some (st', outputs') ->
  nth_error (channels st) ch = Some c ->
  nth_error capture ch = Some y ->
  nth_error outputs ch = Some o ->
  output_sized o ->
  nth_error outputs' ch = Some o' ->
  e_shadow o' = zip_with F32.sub y (s_shadow o')
  /\ e_main o'
     = map (fun a => SafeClamp a (F32.of_Z (-32768)) (F32.of_Z 32767))
           (zip_with F32.sub y (s_main o')).
Proof.
  intros Hifft HP Hc Hy Ho Hsized Ho'.
  destruct (Process_channel _ _ _ _ _ _ _ _ _ _ HP Hc)
    as (y0 & o0 & Hy0 & Ho0 & Hlen & Hr).
  rewrite Hy in Hy0. rewrite Ho in Ho0.
  injection Hy0 as <-. injection Ho0 as <-.
  cbv zeta in Hr. destruct Hr as [_ Ho2].
  rewrite Ho' in Ho2. injection Ho2 as ->.
  unfold ProcessChannel.
  cbn [snd clamp_e_main e_main e_shadow s_main s_shadow].
  destruct Hsized as (He & Hes & Hs & Hss).
  assert (Hformed :
            e_main (FormOutputs render_buffer c y o)
            = zip_with F32.sub y (s_main (FormOutputs render_buffer c y o))
            /\ e_shadow (FormOutputs render_buffer c y o)
               = zip_with F32.sub y
                   (s_shadow (FormOutputs render_buffer c y o))).
  { unfold FormOutputs. cbn [ComputeMetrics e_main e_shadow s_main s_shadow].
    split; apply PredictionError_consistent; auto. }
  destruct Hformed as [Hmain Hshadow].
  destruct (ProcessMain_output_kept (fst (X2_of st render_buffer))
              render_buffer render_signal_analyzer aec_state c y o)
    as (_ & _ & _ & Hes' & Hss' & _).
  rewrite Hes', Hss'. split; [exact Hshadow |]. f_equal.
  destruct (IsAdjustmentNeeded
              (Update (filter_misadjustment_estimator_ c)
                      (FormOutputs render_buffer c y o))) eqn:E.
  - rewrite (ProcessMain_adjusted (fst (X2_of st render_buffer))
               render_buffer render_signal_analyzer aec_state c y o E).
    cbn [ms_output e_main s_main].
    destruct (FormOutputs_lengths render_buffer c y o Hlen
                (conj He (conj Hes (conj Hs Hss)))) as [H1 H2].
    rewrite ScaleFilterOutput_sized by assumption. reflexivity.
  - rewrite (ProcessMain_regular (fst (X2_of st render_buffer))
               render_buffer render_signal_analyzer aec_state c y o E).
    cbn [ms_output e_main s_main]. exact Hmain.
Qed.

End ResidualsAndEstimates.

(** ** The further properties on concrete blocks *)

Lemma Reference_resize_length (n : nat) (H : list FftData) :
  length (Reference.resize n H) = n.
Proof.
  unfold Reference.resize.
  rewrite length_app, length_firstn, repeat_length. lia.
Qed.

Lemma fresh_estimator_ok : estimator_ok Blocks.fresh_estimator.
Proof.
  unfold estimator_ok, n_blocks_. cbn. repeat split; lia.
Qed.

Section FurtherRuns.
#[local] Existing Instance Reference.common.
#[local] Existing Instance reference_collaborators.

Lemma block_counter_cycles_witness :
  n_blocks_acum_ (UpdateAll (K := Reference.common) Blocks.fresh_estimator
                            Scenarios.nine_blocks) = 1%Z.
Proof.
  apply (block_counter_cycles (K := Reference.common) Blocks.fresh_estimator
                              Scenarios.nine_blocks).
  unfold n_blocks_. cbn. lia.
Defined.

Lemma estimator_invariant_witness :
  estimator_ok (Reset Blocks.mid_window_estimator)
  /\ estimator_ok (UpdateAll (K := Reference.common) Blocks.fresh_estimator
                             Scenarios.nine_blocks).
Proof.
  split.
  - exact (proj1 (estimator_invariant (K := Reference.common)
                    Blocks.mid_window_estimator [])).
  - apply (proj2 (estimator_invariant (K := Reference.common)
                    Blocks.fresh_estimator Scenarios.nine_blocks)).
    exact fresh_estimator_ok.
Defined.

Lemma estimate_rests_without_divergence_witness :
  let est' :=
    UpdateAll (K := Reference.common) Blocks.fresh_estimator
              Scenarios.converged_blocks in
  estimate_at_rest est'
  /\ IsAdjustmentNeeded (C := reference_collaborators) est'
     = IsAdjustmentNeeded (C := reference_collaborators)
         (Reset Blocks.fresh_estimator).
Proof.
  apply (estimate_rests_without_divergence
           (K := Reference.common) (C := reference_collaborators)
           Blocks.fresh_estimator Scenarios.converged_blocks).
  - split; reflexivity.
  - reflexivity.
  - repeat constructor.
  - vm_compute. repeat split.
Defined.

Lemma Process_returns_iff_witness :
  (exists r,
      Process Blocks.subtractor_A Blocks.render Blocks.capture_A tt false
              [Blocks.blank_output] = Some r)
  /\ ~ (exists r,
           Process Blocks.subtractor_A Blocks.render Blocks.capture_A tt false
                   [] = Some r).
Proof.
  split.
  - apply (proj2 (Process_returns_iff
                    (K := Reference.common) (C := reference_collaborators)
                    Blocks.subtractor_A Blocks.render Blocks.capture_A tt
                    false [Blocks.blank_output])).
    split; [discriminate |].
    split; [reflexivity |].
    split; [apply le_n |].
    repeat constructor.
  - intros Hr.
    apply (proj1 (Process_returns_iff
                    (K := Reference.common) (C := reference_collaborators)
                    Blocks.subtractor_A Blocks.render Blocks.capture_A tt
                    false [])) in Hr.
    destruct Hr as (_ & _ & Hout & _). inversion Hout.
Defined.

Lemma Process_keeps_shape_witness :
  let st' := Blocks.state_after Blocks.subtractor_A Scenarios.run_spare in
  let outputs' := Blocks.outputs_after Scenarios.run_spare in
  config_ st' = config_ Blocks.subtractor_A
  /\ num_capture_channels_ st' = 1%nat
  /\ length outputs' = 2%nat
  /\ skipn 1 outputs' = [Blocks.output_filled 7].
Proof.
  exact (Process_keeps_shape
           (K := Reference.common) (C := reference_collaborators)
           Blocks.subtractor_A
           (Blocks.state_after Blocks.subtractor_A Scenarios.run_spare)
           Blocks.render Blocks.capture_A tt false Scenarios.outputs_spare
           (Blocks.outputs_after Scenarios.run_spare) ltac:(reflexivity)).
Defined.

Lemma Process_outputs_sized_witness :
  Forall output_sized (Blocks.outputs_after Blocks.run_A).
Proof.
  apply (Process_outputs_sized
           (K := Reference.common) (C := reference_collaborators)
           Reference_Ifft_length
           Blocks.subtractor_A
           (Blocks.state_after Blocks.subtractor_A Blocks.run_A)
           Blocks.render Blocks.capture_A tt false [Blocks.blank_output]
           (Blocks.outputs_after Blocks.run_A) ltac:(reflexivity)).
  constructor; [| constructor].
  repeat split; reflexivity.
Defined.

Lemma Process_leaves_channels_settled_witness :
  let c' :=
    Blocks.channel0 (Blocks.state_after Blocks.subtractor_diverging
                                        Blocks.run_diverging) in
  (poor_shadow_filter_counter_ c' < 5)%nat
  /\ IsAdjustmentNeeded (filter_misadjustment_estimator_ c') = false.
Proof.
  destruct (Process_leaves_channels_settled
              (K := Reference.common) (C := reference_collaborators)
              Blocks.subtractor_diverging
              (Blocks.state_after Blocks.subtractor_diverging
                                  Blocks.run_diverging)
              Blocks.render Blocks.capture_A tt false [Blocks.blank_output]
              (Blocks.outputs_after Blocks.run_diverging) 0%nat
              (Blocks.channel0
                 (Blocks.state_after Blocks.subtractor_diverging
                                     Blocks.run_diverging))
              ltac:(reflexivity) ltac:(reflexivity)) as [Hcount Hquiet].
  split; [exact Hcount | apply Hquiet; reflexivity].
Defined.

Lemma operations_keep_invariant_witness :
  Forall channel_ok (channels Scenarios.state_after_calls)
  /\ num_capture_channels_ Scenarios.state_after_calls = 1%nat
  /\ config_ Scenarios.state_after_calls = config_ Blocks.subtractor_A.
Proof.
  apply (operations_keep_invariant
           (K := Reference.common) (C := reference_collaborators)
           Blocks.subtractor_A Scenarios.state_after_calls Scenarios.calls
           ltac:(reflexivity)).
  constructor; [| constructor].
  split; [unfold lt; cbn; repeat constructor | exact fresh_estimator_ok].
Defined.

Lemma Process_channel_isolated_witness :
  let st1' := Blocks.state_after Scenarios.subtractor_two Scenarios.run_two in
  let st2' :=
    Blocks.state_after Scenarios.subtractor_two_other
                       Scenarios.run_two_other in
  nth_error (channels st1') 1 = nth_error (channels st2') 1
  /\ nth_error (Blocks.outputs_after Scenarios.run_two) 1
     = nth_error (Blocks.outputs_after Scenarios.run_two_other) 1.
Proof.
  apply (Process_channel_isolated
           (K := Reference.common) (C := reference_collaborators)
           Scenarios.subtractor_two
           (Blocks.state_after Scenarios.subtractor_two Scenarios.run_two)
           Scenarios.subtractor_two_other
           (Blocks.state_after Scenarios.subtractor_two_other
                               Scenarios.run_two_other)
           Blocks.render tt false
           Scenarios.capture_two Scenarios.capture_two_other
           Scenarios.outputs_two (Blocks.outputs_after Scenarios.run_two)
           Scenarios.outputs_two
           (Blocks.outputs_after Scenarios.run_two_other) 1%nat
           ltac:(reflexivity) ltac:(reflexivity));
    reflexivity.
Defined.

Lemma HandleEchoPathChange_nothing_changed_witness :
  HandleEchoPathChange Blocks.subtractor_long_main Scenarios.nothing_changed
  = Blocks.subtractor_long_main.
Proof.
  apply (HandleEchoPathChange_nothing_changed
           (C := reference_collaborators)
           Blocks.subtractor_long_main Scenarios.nothing_changed);
    reflexivity.
Defined.

Lemma Process_regular_path_witness :
  let c := Blocks.channel0 Blocks.subtractor_A in
  let c' :=
    Blocks.channel0 (Blocks.state_after Blocks.subtractor_A Blocks.run_A) in
  let o' := Blocks.output0 (Blocks.outputs_after Blocks.run_A) in
  let formed :=
    FormOutputs Blocks.render c (hd [] Blocks.capture_A)
                Blocks.blank_output in
  filter_misadjustment_estimator_ c'
  = Update (filter_misadjustment_estimator_ c) formed
  /\ E_main o' = ZeroPaddedFft (e_main formed)
  /\ E2_main o' = Spectrum (E_main o')
  /\ E2_shadow o' = Spectrum (ZeroPaddedFft (e_shadow formed)).
Proof.
  cbv zeta.
  assert (Hquiet :
            IsAdjustmentNeeded (C := reference_collaborators)
              (Update (K := Reference.common)
                 (filter_misadjustment_estimator_
                    (Blocks.channel0 Blocks.subtractor_A))
                 (FormOutputs (K := Reference.common)
                    (C := reference_collaborators) Blocks.render
                    (Blocks.channel0 Blocks.subtractor_A)
                    (hd [] Blocks.capture_A) Blocks.blank_output)) = false)
    by (vm_compute; reflexivity).
  destruct (Process_regular_path
              (K := Reference.common) (C := reference_collaborators)
              Blocks.subtractor_A
              (Blocks.state_after Blocks.subtractor_A Blocks.run_A)
              Blocks.render Blocks.capture_A tt false [Blocks.blank_output]
              (Blocks.outputs_after Blocks.run_A) 0%nat
              (Blocks.channel0 Blocks.subtractor_A)
              (Blocks.channel0
                 (Blocks.state_after Blocks.subtractor_A Blocks.run_A))
              (hd [] Blocks.capture_A) Blocks.blank_output
              (Blocks.output0 (Blocks.outputs_after Blocks.run_A))
              ltac:(reflexivity) ltac:(reflexivity) ltac:(reflexivity)
              ltac:(reflexivity) ltac:(reflexivity) ltac:(reflexivity)
              Hquiet)
    as (_ & _ & _ & Hest & _ & HE & HE2 & HE2s).
  split; [exact Hest | split; [exact HE | split; [exact HE2 | exact HE2s]]].
Defined.

Lemma delay_change_restores_initial_sizes_witness :
  let st' :=
    HandleEchoPathChange (ExitInitialState Blocks.subtractor_long_main)
                         Blocks.delay_changed in
  Forall (fun c' => SizePartitions (main_filter_ c') = 1%nat
                    /\ SizePartitions (shadow_filter_ c') = 1%nat)
         (channels st')
  /\ X2_of st' Blocks.render_two
     = (SpectralSum Blocks.render_two 1, SpectralSum Blocks.render_two 1).
Proof.
  destruct (delay_change_restores_initial_sizes
              (C := reference_collaborators)
              (ExitInitialState Blocks.subtractor_long_main)
              Blocks.delay_changed ltac:(discriminate)
              (fun f => Reference_resize_length 1 (Reference.H_ f))
              (fun f => Reference_resize_length 1 (Reference.H_ f)))
    as [Hsizes Hsum].
  split; [exact Hsizes |].
  apply Hsum; [discriminate | reflexivity].
Defined.

Lemma Process_energies_not_negative_witness :
  let o' := Blocks.output0 (Blocks.outputs_after Blocks.run_nan) in
  F32_not_negative (e2_main o') = true
  /\ F32_not_negative (e2_shadow o') = true
  /\ F32_not_negative (y2 o') = true.
Proof.
  exact (Process_energies_not_negative
           (K := Reference.common) (C := reference_collaborators)
           Blocks.subtractor_A
           (Blocks.state_after Blocks.subtractor_A Blocks.run_nan)
           Blocks.render Blocks.capture_nan tt false [Blocks.blank_output]
           (Blocks.outputs_after Blocks.run_nan) 0%nat
           (Blocks.channel0 Blocks.subtractor_A)
           (Blocks.output0 (Blocks.outputs_after Blocks.run_nan))
           ltac:(reflexivity) ltac:(reflexivity) ltac:(reflexivity)).
Defined.

Lemma Process_residuals_match_estimates_witness :
  let o' := Blocks.output0 (Blocks.outputs_after Blocks.run_diverging) in
  e_shadow o' = zip_with F32.sub (hd [] Blocks.capture_A) (s_shadow o')
  /\ e_main o'
     = map (fun a => SafeClamp a (F32.of_Z (-32768)) (F32.of_Z 32767))
           (zip_with F32.sub (hd [] Blocks.capture_A) (s_main o')).
Proof.
  exact (Process_residuals_match_estimates
           (K := Reference.common) (C := reference_collaborators)
           Blocks.subtractor_diverging
           (Blocks.state_after Blocks.subtractor_diverging
                               Blocks.run_diverging)
           Blocks.render Blocks.capture_A tt false [Blocks.blank_output]
           (Blocks.outputs_after Blocks.run_diverging) 0%nat
           (Blocks.channel0 Blocks.subtractor_diverging)
           (hd [] Blocks.capture_A) Blocks.blank_output
           (Blocks.output0 (Blocks.outputs_after Blocks.run_diverging))
           Reference_Ifft_length
           ltac:(reflexivity) ltac:(reflexivity) ltac:(reflexivity)
           ltac:(reflexivity) ltac:(repeat split; reflexivity)
           ltac:(reflexivity)).
Defined.

End FurtherRuns.

(* ===================================================================== *)
(** * Part V: properties of the encoded frame                             *)
(* ===================================================================== *)

Section ArrayCopies.
Import EncodedFrame.

Lemma store_nth_error {A} (a a' : list A) (i : nat) (v : A) :
  store a i v = Some a' ->
  (i < length a)%nat /\ length a' = length a
  /\ forall j, nth_error a' j = if Nat.eqb j i then Some v else nth_error a j.
Proof.
  unfold store. destruct (Nat.ltb_spec i (length a)) as [Hi | Hi];
    [| discriminate].
  intros E. replace a' with (firstn i a ++ v :: skipn (S i) a) by congruence.
  clear E. split; [exact Hi |]. split.
  - rewrite length_app, length_firstn. cbn [length]. rewrite length_skipn. lia.
  - intros j. destruct (Nat.eqb_spec j i) as [-> | Hne].
    + rewrite nth_error_app2 by (rewrite length_firstn; lia).
      rewrite length_firstn.
      replace (i - Nat.min i (length a))%nat with 0%nat by lia. reflexivity.
    + destruct (Nat.lt_ge_cases j i) as [Hlt | Hge].
      * rewrite nth_error_app1 by (rewrite length_firstn; lia).
        apply nth_error_firstn_lt || (rewrite nth_error_firstn;
          destruct (Nat.ltb_spec j i); [reflexivity | lia]).
      * rewrite nth_error_app2 by (rewrite length_firstn; lia).
        rewrite length_firstn.
        replace (j - Nat.min i (length a))%nat with (S (j - S i)) by lia.
        cbn [nth_error]. rewrite nth_error_skipn. f_equal. lia.
Qed.

Lemma store_same {A} (a : list A) (i : nat) (v : A) :
  nth_error a i = Some v -> store a i v = Some a.
Proof.
  intros H. unfold store.
  assert (Hi : (i < length a)%nat) by (apply nth_error_Some; congruence).
  destruct (Nat.ltb_spec i (length a)); [| lia]. f_equal.
  destruct (nth_error_split a i H) as (l1 & l2 & -> & <-).
  rewrite firstn_app, firstn_all, Nat.sub_diag, firstn_O, app_nil_r.
  rewrite skipn_app, skipn_all2 by lia.
  replace (S (length l1) - length l1)%nat with 1%nat by lia. reflexivity.
Qed.

Lemma for_loop_copy (src : list Z) (count : nat) :
  forall (from : nat) (dst dst' : list Z),
    for_loop count from (copy_element src) dst = Some dst' ->
    (count = 0 \/ from + count <= length src /\ from + count <= length dst)%nat
    /\ length dst' = length dst
    /\ forall i, nth_error dst' i
                 = if in_loop from count i then nth_error src i
                   else nth_error dst i.
Proof.
  unfold in_loop.
  induction count as [| count IH]; intros from dst dst' H.
  - injection H as <-. split; [auto |]. split; [reflexivity |].
    intros i. destruct (Nat.leb_spec from i), (Nat.ltb_spec i (from + 0));
      try reflexivity; lia.
  - cbn [for_loop] in H. unfold copy_element at 1 in H.
    destruct (nth_error src from) as [v |] eqn:Ev; [| discriminate].
    destruct (store dst from v) as [dst1 |] eqn:Es; [| discriminate].
    destruct (store_nth_error _ _ _ _ Es) as (Hi & Hlen & Hnth).
    destruct (IH _ _ _ H) as (Hr & Hlen' & Hnth').
    assert (Hsrc : (from < length src)%nat)
      by (apply nth_error_Some; congruence).
    split; [right; lia |]. split; [congruence |].
    intros i. rewrite Hnth', Hnth.
    destruct (Nat.eqb_spec i from) as [-> | Hne].
    + destruct (Nat.leb_spec (S from) from); [lia |].
      destruct (Nat.leb_spec from from); [| lia].
      destruct (Nat.ltb_spec from (from + S count)); [| lia].
      cbn. congruence.
    + destruct (Nat.leb_spec (S from) i), (Nat.leb_spec from i),
        (Nat.ltb_spec i (S from + count)), (Nat.ltb_spec i (from + S count));
        cbn; try reflexivity; lia.
Qed.

Lemma for_loop_copy_returns (src : list Z) (count : nat) :
  forall (from : nat) (dst : list Z),
    (from + count <= length src)%nat -> (from + count <= length dst)%nat ->
    exists dst', for_loop count from (copy_element src) dst = Some dst'.
Proof.
  induction count as [| count IH]; intros from dst Hs Hd.
  - exists dst. reflexivity.
  - cbn [for_loop]. unfold copy_element at 1.
    destruct (nth_error src from) as [v |] eqn:Ev;
      [| apply nth_error_None in Ev; lia].
    unfold store. destruct (Nat.ltb_spec from (length dst)); [| lia].
    apply IH; [lia |].
    rewrite length_app, length_firstn. cbn [length]. rewrite length_skipn. lia.
Qed.

Lemma for_loop_copy_again (src : list Z) (count : nat) :
  forall (from : nat) (dst : list Z),
    (forall i, in_loop from count i = true ->
               nth_error dst i = nth_error src i /\ (i < length src)%nat) ->
    for_loop count from (copy_element src) dst = Some dst.
Proof.
  unfold in_loop.
  induction count as [| count IH]; intros from dst H; [reflexivity |].
  cbn [for_loop]. unfold copy_element at 1.
  destruct (H from) as [Hn Hl].
  { destruct (Nat.leb_spec from from), (Nat.ltb_spec from (from + S count));
      try reflexivity; lia. }
  destruct (nth_error src from) as [v |] eqn:Ev;
    [| apply nth_error_None in Ev; lia].
  rewrite (store_same dst from v Hn).
  apply IH. intros i Hi. apply H.
  destruct (Nat.leb_spec (S from) i), (Nat.ltb_spec i (S from + count));
    try discriminate.
  destruct (Nat.leb_spec from i), (Nat.ltb_spec i (from + S count));
    try reflexivity; lia.
Qed.

Lemma for_loop_copy_sizes (src_w src_h : list Z) (count : nat) :
  forall (from : nat) (w h w' h' : list Z),
    for_loop count from (copy_sizes src_w src_h) (w, h) = Some (w', h') ->
    for_loop count from (copy_element src_w) w = Some w'
    /\ for_loop count from (copy_element src_h) h = Some h'.
Proof.
  induction count as [| count IH]; intros from w h w' h' H.
  - injection H as <- <-. split; reflexivity.
  - cbn [for_loop] in *. unfold copy_sizes at 1 in H.
    destruct (copy_element src_w from w) as [w1 |]; [| discriminate].
    destruct (copy_element src_h from h) as [h1 |]; [| discriminate].
    apply IH. exact H.
Qed.

Lemma for_loop_copy_sizes_returns (src_w src_h : list Z) (count : nat) :
  forall (from : nat) (w h w' h' : list Z),
    for_loop count from (copy_element src_w) w = Some w' ->
    for_loop count from (copy_element src_h) h = Some h' ->
    for_loop count from (copy_sizes src_w src_h) (w, h) = Some (w', h').
Proof.
  induction count as [| count IH]; intros from w h w' h' Hw Hh.
  - injection Hw as <-. injection Hh as <-. reflexivity.
  - cbn [for_loop] in *. unfold copy_sizes at 1.
    destruct (copy_element src_w from w) as [w1 |]; [| discriminate].
    destruct (copy_element src_h from h) as [h1 |]; [| discriminate].
    apply IH; assumption.
Qed.

End ArrayCopies.

Section EncodedFrameProperties.
Import EncodedFrame.
Context {G : Vp9Globals} {D : Declarations}.

Lemma VideoCodecType_eqb_eq (a b : VideoCodecType) :
  VideoCodecType_eqb a b = true <-> a = b.
Proof.
  split.
  - destruct a, b; try discriminate; try reflexivity.
    cbn. intros H. apply Nat.eqb_eq in H. congruence.
  - intros <-. destruct a; try reflexivity. apply Nat.eqb_refl.
Qed.

Lemma VideoCodecType_eqb_neq (a b : VideoCodecType) :
  VideoCodecType_eqb a b = false <-> a <> b.
Proof.
  split.
  - intros H E. apply VideoCodecType_eqb_eq in E. congruence.
  - intros H. destruct (VideoCodecType_eqb a b) eqn:E; [| reflexivity].
    apply VideoCodecType_eqb_eq in E. contradiction.
Qed.

(** Evaluates the writes to the members of a VP9 record whose members
    are known. *)
Ltac vp9_fields :=
  cbv beta iota zeta delta
    [CodecSpecificInfoVP9.set_inter_pic_predicted
     CodecSpecificInfoVP9.set_flexible_mode
     CodecSpecificInfoVP9.set_num_ref_pics CodecSpecificInfoVP9.set_p_diff
     CodecSpecificInfoVP9.set_ss_data_available
     CodecSpecificInfoVP9.set_temporal_idx
     CodecSpecificInfoVP9.set_temporal_up_switch
     CodecSpecificInfoVP9.set_inter_layer_predicted
     CodecSpecificInfoVP9.set_gof_idx
     CodecSpecificInfoVP9.set_num_spatial_layers
     CodecSpecificInfoVP9.set_spatial_layer_resolution_present
     CodecSpecificInfoVP9.set_width CodecSpecificInfoVP9.set_height
     CodecSpecificInfoVP9.set_gof CodecSpecificInfoVP9.inter_pic_predicted
     CodecSpecificInfoVP9.flexible_mode CodecSpecificInfoVP9.num_ref_pics
     CodecSpecificInfoVP9.p_diff CodecSpecificInfoVP9.ss_data_available
     CodecSpecificInfoVP9.temporal_idx
     CodecSpecificInfoVP9.temporal_up_switch
     CodecSpecificInfoVP9.inter_layer_predicted CodecSpecificInfoVP9.gof_idx
     CodecSpecificInfoVP9.num_spatial_layers
     CodecSpecificInfoVP9.spatial_layer_resolution_present
     CodecSpecificInfoVP9.width CodecSpecificInfoVP9.height
     CodecSpecificInfoVP9.gof] in *.

(** The frame after a VP9 packet, member by member. *)
Lemma CopyVP9_inv (f f' : VCMEncodedFrame) (vp9_header : RTPVideoHeaderVP9.t) :
  CopyVP9 f vp9_header = Some f' ->
  let info := _codecSpecificInfo f in
  let old := view_VP9 (codecSpecific info) in
  let first_packet :=
    negb (VideoCodecType_eqb (codecType info) kVideoCodecVP9) in
  let sizes :=
    RTPVideoHeaderVP9.ss_data_available vp9_header
    && RTPVideoHeaderVP9.spatial_layer_resolution_present vp9_header in
  exists p_diff' width' height',
    for_loop (RTPVideoHeaderVP9.num_ref_pics vp9_header) 0
             (copy_element (RTPVideoHeaderVP9.pid_diff vp9_header))
             (CodecSpecificInfoVP9.p_diff old) = Some p_diff'
    /\ (if sizes
        then for_loop (RTPVideoHeaderVP9.num_spatial_layers vp9_header) 0
               (copy_sizes (RTPVideoHeaderVP9.width vp9_header)
                           (RTPVideoHeaderVP9.height vp9_header))
               (CodecSpecificInfoVP9.width old,
                CodecSpecificInfoVP9.height old)
        else Some (CodecSpecificInfoVP9.width old,
                   CodecSpecificInfoVP9.height old))
       = Some (width', height')
    /\ f' =
       set_codecSpecificInfo
         (if negb (RTPVideoHeaderVP9.spatial_idx vp9_header =? kNoSpatialIdx)
          then SetSpatialIndex f
                 (Some (RTPVideoHeaderVP9.spatial_idx vp9_header))
          else f)
         {| codecType := kVideoCodecVP9;
            codecSpecific :=
              VP9
                {| CodecSpecificInfoVP9.inter_pic_predicted :=
                     RTPVideoHeaderVP9.inter_pic_predicted vp9_header;
                   CodecSpecificInfoVP9.flexible_mode :=
                     RTPVideoHeaderVP9.flexible_mode vp9_header;
                   CodecSpecificInfoVP9.num_ref_pics :=
                     RTPVideoHeaderVP9.num_ref_pics vp9_header;
                   CodecSpecificInfoVP9.p_diff := p_diff';
                   CodecSpecificInfoVP9.ss_data_available :=
                     RTPVideoHeaderVP9.ss_data_available vp9_header;
                   CodecSpecificInfoVP9.temporal_idx :=
                     if negb (RTPVideoHeaderVP9.temporal_idx vp9_header
                              =? kNoTemporalIdx)
                     then RTPVideoHeaderVP9.temporal_idx vp9_header
                     else if first_packet then 0
                          else CodecSpecificInfoVP9.temporal_idx old;
                   CodecSpecificInfoVP9.temporal_up_switch :=
                     if negb (RTPVideoHeaderVP9.temporal_idx vp9_header
                              =? kNoTemporalIdx)
                     then RTPVideoHeaderVP9.temporal_up_switch vp9_header
                     else CodecSpecificInfoVP9.temporal_up_switch old;
                   CodecSpecificInfoVP9.inter_layer_predicted :=
                     if negb (RTPVideoHeaderVP9.spatial_idx vp9_header
                              =? kNoSpatialIdx)
                     then RTPVideoHeaderVP9.inter_layer_predicted vp9_header
                     else if first_packet then false
                          else CodecSpecificInfoVP9.inter_layer_predicted old;
                   CodecSpecificInfoVP9.gof_idx :=
                     if negb (RTPVideoHeaderVP9.gof_idx vp9_header
                              =? kNoGofIdx)
                     then RTPVideoHeaderVP9.gof_idx vp9_header
                     else if first_packet then 0
                          else CodecSpecificInfoVP9.gof_idx old;
                   CodecSpecificInfoVP9.num_spatial_layers :=
                     if RTPVideoHeaderVP9.ss_data_available vp9_header
                     then RTPVideoHeaderVP9.num_spatial_layers vp9_header
                     else CodecSpecificInfoVP9.num_spatial_layers old;
                   CodecSpecificInfoVP9.spatial_layer_resolution_present :=
                     if RTPVideoHeaderVP9.ss_data_available vp9_header
                     then RTPVideoHeaderVP9.spatial_layer_resolution_present
                            vp9_header
                     else CodecSpecificInfoVP9.spatial_layer_resolution_present
                            old;
                   CodecSpecificInfoVP9.width := width';
                   CodecSpecificInfoVP9.height := height';
                   CodecSpecificInfoVP9.gof :=
                     if RTPVideoHeaderVP9.ss_data_available vp9_header
                     then CopyGofInfoVP9 (CodecSpecificInfoVP9.gof old)
                                         (RTPVideoHeaderVP9.gof vp9_header)
                     else CodecSpecificInfoVP9.gof old |} |}.
Proof.
  cbv zeta. unfold CopyVP9. intros H.
  assert (Htype :
            (if negb (VideoCodecType_eqb (codecType (_codecSpecificInfo f))
                                         kVideoCodecVP9)
             then kVideoCodecVP9 else codecType (_codecSpecificInfo f))
            = kVideoCodecVP9).
  { destruct (VideoCodecType_eqb _ kVideoCodecVP9) eqn:E;
      [apply VideoCodecType_eqb_eq in E; exact E | reflexivity]. }
  rewrite Htype in H. clear Htype.
  destruct (view_VP9 (codecSpecific (_codecSpecificInfo f))).
  destruct (negb (VideoCodecType_eqb _ kVideoCodecVP9));
    destruct (negb (_ =? kNoTemporalIdx));
    destruct (negb (_ =? kNoSpatialIdx));
    destruct (negb (_ =? kNoGofIdx));
    destruct (RTPVideoHeaderVP9.ss_data_available vp9_header);
    destruct (RTPVideoHeaderVP9.spatial_layer_resolution_present vp9_header);
    vp9_fields; cbn [andb];
    (destruct (for_loop _ 0 (copy_element _) _) as [p_diff' |];
     [| discriminate]);
    exists p_diff';
    try (destruct (for_loop _ 0 (copy_sizes _ _) _) as [[w h] |];
         [exists w, h | discriminate]);
    try (eexists; eexists; split; [reflexivity |]; split; [reflexivity |];
         injection H as <-; reflexivity);
    (split; [reflexivity |]); (split; [reflexivity |]);
    injection H as <-; reflexivity.
Qed.

Lemma CopyVP9_returns (f : VCMEncodedFrame) (vp9_header : RTPVideoHeaderVP9.t) :
  VP9_copies_in_range (view_VP9 (codecSpecific (_codecSpecificInfo f)))
                      vp9_header ->
  exists f', CopyVP9 f vp9_header = Some f'.
Proof.
  unfold VP9_copies_in_range, CopyVP9. intros [Hp Hs].
  destruct (view_VP9 (codecSpecific (_codecSpecificInfo f))).
  assert (Hp' : exists p,
             for_loop (RTPVideoHeaderVP9.num_ref_pics vp9_header) 0
               (copy_element (RTPVideoHeaderVP9.pid_diff vp9_header)) p_diff
             = Some p).
  { cbn [CodecSpecificInfoVP9.p_diff] in Hp. destruct Hp as [-> | [H1 H2]].
    - exists p_diff. reflexivity.
    - apply for_loop_copy_returns; assumption. }
  destruct Hp' as [p Hp'].
  assert (Hs' : RTPVideoHeaderVP9.ss_data_available vp9_header = true ->
                RTPVideoHeaderVP9.spatial_layer_resolution_present vp9_header
                = true ->
                exists w h,
                  for_loop (RTPVideoHeaderVP9.num_spatial_layers vp9_header) 0
                    (copy_sizes (RTPVideoHeaderVP9.width vp9_header)
                                (RTPVideoHeaderVP9.height vp9_header))
                    (width, height) = Some (w, h)).
  { intros Hss Hpr. specialize (Hs Hss Hpr). cbv zeta in Hs.
    cbn [CodecSpecificInfoVP9.width CodecSpecificInfoVP9.height] in Hs.
    destruct Hs as [-> | [[H1 H2] [H3 H4]]].
    - exists width, height. reflexivity.
    - destruct (for_loop_copy_returns (RTPVideoHeaderVP9.width vp9_header)
                  _ 0 width H1 H2) as [w Hw].
      destruct (for_loop_copy_returns (RTPVideoHeaderVP9.height vp9_header)
                  _ 0 height H3 H4) as [h Hh].
      exists w, h. apply for_loop_copy_sizes_returns; assumption. }
  clear Hp Hs.
  destruct (negb (VideoCodecType_eqb _ kVideoCodecVP9));
    destruct (negb (_ =? kNoTemporalIdx));
    destruct (negb (_ =? kNoSpatialIdx));
    destruct (negb (_ =? kNoGofIdx));
    destruct (RTPVideoHeaderVP9.ss_data_available vp9_header);
    destruct (RTPVideoHeaderVP9.spatial_layer_resolution_present vp9_header);
    vp9_fields; rewrite Hp';
    try (destruct (Hs' eq_refl eq_refl) as (w & h & ->));
    eexists; reflexivity.
Qed.

Lemma for_loop_copy_idem (src : list Z) (count from : nat)
    (dst dst' : list Z) :
  for_loop count from (copy_element src) dst = Some dst' ->
  for_loop count from (copy_element src) dst' = Some dst'.
Proof.
  intros H. destruct (for_loop_copy _ _ _ _ _ H) as (Hr & _ & Hnth).
  apply for_loop_copy_again. intros i Hi. rewrite Hnth, Hi.
  split; [reflexivity |].
  unfold in_loop in Hi. apply andb_prop in Hi. destruct Hi as [H1 H2].
  apply Nat.leb_le in H1. apply Nat.ltb_lt in H2. lia.
Qed.

Lemma for_loop_copy_sizes_idem (src_w src_h : list Z) (count from : nat)
    (w h w' h' : list Z) :
  for_loop count from (copy_sizes src_w src_h) (w, h) = Some (w', h') ->
  for_loop count from (copy_sizes src_w src_h) (w', h') = Some (w', h').
Proof.
  intros H. destruct (for_loop_copy_sizes _ _ _ _ _ _ _ _ H) as [Hw Hh].
  apply for_loop_copy_sizes_returns; eapply for_loop_copy_idem; eassumption.
Qed.

(** ** What a packet touches *)

(** X13.  [CopyCodecSpecific] touches the codec specific information and, for a
    VP9 header that carries one, the spatial index, and nothing else: the
    member [_codec] too is left as it is.  A null header changes nothing.
    After any other header the codec type is the one of the header when
    that is VP8, VP9 or H264, and generic for every other codec. *)
Theorem CopyCodecSpecific_touches_codec_info_only (f f' : VCMEncodedFrame)
    (header : option RTPVideoHeader) :
  CopyCodecSpecific f header = Some f' ->
  same_outside_codec_info f f'
  /\ codecType (_codecSpecificInfo f')
     = match header with
       | Some header => codecType_for (codec header)
       | None => codecType (_codecSpecificInfo f)
       end
  /\ spatial_index_ f'
     = match carried_spatial_index header with
       | Some spatial_idx => Some spatial_idx
       | None => spatial_index_ f
       end
  /\ (header = None -> f' = f).
Proof.
  unfold CopyCodecSpecific, carried_spatial_index, same_outside_codec_info.
  destruct header as [header |];
    [| intros E; injection E as <-; repeat split; reflexivity].
  destruct (codec header) eqn:Ec.
  - intros E; injection E as <-.
    repeat split; try reflexivity; discriminate.
  - destruct (video_type_header header) as [| v | v | n]; try discriminate.
    intros E; injection E as <-. unfold CopyVP8.
    cbn [_codecSpecificInfo set_codecSpecificInfo codecType codecType_for].
    repeat split; try reflexivity; try discriminate.
    destruct (VideoCodecType_eqb _ kVideoCodecVP8) eqn:E;
      [apply VideoCodecType_eqb_eq in E; exact E | reflexivity].
  - destruct (video_type_header header) as [| v | v | n]; try discriminate.
    intros E. destruct (CopyVP9_inv _ _ _ E) as (p & w & h & _ & _ & ->).
    destruct (RTPVideoHeaderVP9.spatial_idx v =? kNoSpatialIdx);
      cbn [negb]; repeat split; try reflexivity; discriminate.
  - intros E; injection E as <-.
    repeat split; try reflexivity; discriminate.
  - intros E; injection E as <-.
    repeat split; try reflexivity; discriminate.
Qed.

(** X14.  [CopyCodecSpecific] returns exactly in these cases: the header is
    null; or its codec is VP8 and the variant holds a VP8 header; or its
    codec is VP9, the variant holds a VP9 header and the arrays it makes
    the code copy are in range; or its codec is any other one, whatever
    the variant holds. *)
Theorem CopyCodecSpecific_returns_iff (f : VCMEncodedFrame)
    (header : option RTPVideoHeader) :
  (exists f', CopyCodecSpecific f header = Some f')
  <-> match header with
      | None => True
      | Some header =>
          match codec header with
          | kVideoCodecVP8 =>
              exists vp8_header,
                video_type_header header = HeaderVP8 vp8_header
          | kVideoCodecVP9 =>
              exists vp9_header,
                video_type_header header = HeaderVP9 vp9_header
                /\ VP9_copies_in_range
                     (view_VP9 (codecSpecific (_codecSpecificInfo f)))
                     vp9_header
          | _ => True
          end
      end.
Proof.
  unfold CopyCodecSpecific.
  destruct header as [header |]; [| split; eauto].
  destruct (codec header); try (split; eauto; fail).
  - destruct (video_type_header header) as [| v | v | n]; split;
      try (intros [f' E]; discriminate);
      try (intros [v' E]; discriminate); eauto.
  - destruct (video_type_header header) as [| v | v | n]; split;
      try (intros [f' E]; discriminate);
      try (intros [v' [E _]]; discriminate).
    + intros [f' E]. exists v. split; [reflexivity |].
      destruct (CopyVP9_inv _ _ _ E) as (p & w & h & Hp & Hs & _).
      destruct (for_loop_copy _ _ _ _ _ Hp) as (Hr & _ & _).
      split; [exact Hr |].
      intros Hss Hpr. rewrite Hss, Hpr in Hs. cbn [andb] in Hs.
      destruct (for_loop_copy_sizes _ _ _ _ _ _ _ _ Hs) as [Hw Hh].
      destruct (for_loop_copy _ _ _ _ _ Hw) as (Hrw & _ & _).
      destruct (for_loop_copy _ _ _ _ _ Hh) as (Hrh & _ & _).
      cbv zeta. cbn [Nat.add] in Hrw, Hrh. lia.
    + intros [v' [E Hr]]. injection E as <-.
      apply CopyVP9_returns. exact Hr.
Qed.

(** ** H264 *)

(** X15.  After a header of codec H264, whatever the variant holds, the frame
    has codec type H264 and its [temporal_idx] is the [temporal_id] of the
    frame marking, be it [kNoTemporalIdx] or not; [base_layer_sync] and
    [idr_frame] are those of the frame marking when [temporal_id] is not
    [kNoTemporalIdx], and are what the union read as before the call
    otherwise. *)
Theorem H264_temporal_idx_is_temporal_id (f : VCMEncodedFrame)
    (header : RTPVideoHeader) :
  codec header = kVideoCodecH264 ->
  let old := view_H264 (codecSpecific (_codecSpecificInfo f)) in
  let marking := frame_marking header in
  let present := negb (FrameMarking.temporal_id marking =? kNoTemporalIdx) in
  exists f',
    CopyCodecSpecific f (Some header) = Some f'
    /\ _codecSpecificInfo f'
       = {| codecType := kVideoCodecH264;
            codecSpecific :=
              H264
                {| CodecSpecificInfoH264.temporal_idx :=
                     FrameMarking.temporal_id marking;
                   CodecSpecificInfoH264.base_layer_sync :=
                     if present then FrameMarking.base_layer_sync marking
                     else CodecSpecificInfoH264.base_layer_sync old;
                   CodecSpecificInfoH264.idr_frame :=
                     if present then FrameMarking.independent_frame marking
                     else CodecSpecificInfoH264.idr_frame old |} |}.
Proof.
  intros Hc old marking present. unfold CopyCodecSpecific. rewrite Hc.
  eexists. split; [reflexivity |].
  unfold CopyH264. cbn [_codecSpecificInfo set_codecSpecificInfo].
  fold old. fold marking. unfold present.
  destruct (Z.eqb_spec (FrameMarking.temporal_id marking) kNoTemporalIdx)
    as [E | E]; cbn [negb]; [rewrite E |]; reflexivity.
Qed.

(** ** VP9 arrays *)

(** X16.  After a VP9 packet: [num_ref_pics] is the count of the header, the
    first [num_ref_pics] entries of [p_diff] are those of [pid_diff] of
    the header and the entries after them are as they were; when the
    header carries the resolutions of the spatial layers, the first
    [num_spatial_layers] entries of [width] and [height] are those of the
    header and the others are as they were; when it does not, [width] and
    [height] are as they were. *)
Theorem VP9_arrays_copied_up_to_count (f f' : VCMEncodedFrame)
    (header : RTPVideoHeader) (vp9_header : RTPVideoHeaderVP9.t) :
  codec header = kVideoCodecVP9 ->
  video_type_header header = HeaderVP9 vp9_header ->
  CopyCodecSpecific f (Some header) = Some f' ->
  let old := view_VP9 (codecSpecific (_codecSpecificInfo f)) in
  let sizes :=
    RTPVideoHeaderVP9.ss_data_available vp9_header
    && RTPVideoHeaderVP9.spatial_layer_resolution_present vp9_header in
  exists vp9,
    codecSpecific (_codecSpecificInfo f') = VP9 vp9
    /\ CodecSpecificInfoVP9.num_ref_pics vp9
       = RTPVideoHeaderVP9.num_ref_pics vp9_header
    /\ (forall r,
          nth_error (CodecSpecificInfoVP9.p_diff vp9) r
          = if Nat.ltb r (RTPVideoHeaderVP9.num_ref_pics vp9_header)
            then nth_error (RTPVideoHeaderVP9.pid_diff vp9_header) r
            else nth_error (CodecSpecificInfoVP9.p_diff old) r)
    /\ (forall i,
          nth_error (CodecSpecificInfoVP9.width vp9) i
          = if sizes
               && Nat.ltb i (RTPVideoHeaderVP9.num_spatial_layers vp9_header)
            then nth_error (RTPVideoHeaderVP9.width vp9_header) i
            else nth_error (CodecSpecificInfoVP9.width old) i)
    /\ (forall i,
          nth_error (CodecSpecificInfoVP9.height vp9) i
          = if sizes
               && Nat.ltb i (RTPVideoHeaderVP9.num_spatial_layers vp9_header)
            then nth_error (RTPVideoHeaderVP9.height vp9_header) i
            else nth_error (CodecSpecificInfoVP9.height old) i)
    /\ length (CodecSpecificInfoVP9.p_diff vp9)
       = length (CodecSpecificInfoVP9.p_diff old)
    /\ length (CodecSpecificInfoVP9.width vp9)
       = length (CodecSpecificInfoVP9.width old)
    /\ length (CodecSpecificInfoVP9.height vp9)
       = length (CodecSpecificInfoVP9.height old).
Proof.
  intros Hc Hv. unfold CopyCodecSpecific. rewrite Hc, Hv. intros E.
  cbv zeta.
  destruct (CopyVP9_inv _ _ _ E) as (p & w & h & Hp & Hs & ->).
  eexists. split; [reflexivity |].
  cbn [CodecSpecificInfoVP9.num_ref_pics CodecSpecificInfoVP9.p_diff
       CodecSpecificInfoVP9.width CodecSpecificInfoVP9.height].
  destruct (for_loop_copy _ _ _ _ _ Hp) as (_ & Hlp & Hnp).
  split; [reflexivity |]. split; [exact Hnp |].
  destruct (RTPVideoHeaderVP9.ss_data_available vp9_header
            && RTPVideoHeaderVP9.spatial_layer_resolution_present vp9_header).
  - destruct (for_loop_copy_sizes _ _ _ _ _ _ _ _ Hs) as [Hw Hh].
    destruct (for_loop_copy _ _ _ _ _ Hw) as (_ & Hlw & Hnw).
    destruct (for_loop_copy _ _ _ _ _ Hh) as (_ & Hlh & Hnh).
    repeat split; assumption.
  - injection Hs as <- <-. repeat split; auto.
Qed.

(** ** Copying twice *)

Lemma CopyVP9_idem (f f' : VCMEncodedFrame) (vp9_header : RTPVideoHeaderVP9.t) :
  (forall dst src,
      CopyGofInfoVP9 (CopyGofInfoVP9 dst src) src = CopyGofInfoVP9 dst src) ->
  CopyVP9 f vp9_header = Some f' -> CopyVP9 f' vp9_header = Some f'.
Proof.
  intros Hgof E.
  destruct (CopyVP9_inv _ _ _ E) as (p & w & h & Hp & Hs & ->).
  apply for_loop_copy_idem in Hp.
  assert (Hs' :
            (if RTPVideoHeaderVP9.ss_data_available vp9_header
                && RTPVideoHeaderVP9.spatial_layer_resolution_present
                     vp9_header
             then for_loop (RTPVideoHeaderVP9.num_spatial_layers vp9_header)
                    0 (copy_sizes (RTPVideoHeaderVP9.width vp9_header)
                                  (RTPVideoHeaderVP9.height vp9_header))
                    (w, h)
             else Some (w, h)) = Some (w, h)).
  { destruct (_ && _); [| reflexivity].
    eapply for_loop_copy_sizes_idem. exact Hs. }
  clear Hs E. unfold CopyVP9.
  cbn [_codecSpecificInfo set_codecSpecificInfo codecType codecSpecific
       view_VP9 VideoCodecType_eqb negb].
  destruct (view_VP9 (codecSpecific (_codecSpecificInfo f))).
  destruct (negb (VideoCodecType_eqb _ kVideoCodecVP9));
    destruct (negb (_ =? kNoTemporalIdx));
    destruct (negb (_ =? kNoSpatialIdx));
    destruct (negb (_ =? kNoGofIdx));
    destruct (RTPVideoHeaderVP9.ss_data_available vp9_header);
    destruct (RTPVideoHeaderVP9.spatial_layer_resolution_present vp9_header);
    vp9_fields; cbn [andb] in Hs'; rewrite Hp; rewrite ?Hs', ?Hgof;
    destruct f; reflexivity.
Qed.

(** X17.  Copying the same header a second time changes nothing: a call that
    returns leaves a frame on which the same call returns the same frame.
    For a VP9 header this needs [CopyGofInfoVP9] to be so. *)
Theorem CopyCodecSpecific_twice (f f' : VCMEncodedFrame)
    (header : option RTPVideoHeader) :
  (forall dst src,
      CopyGofInfoVP9 (CopyGofInfoVP9 dst src) src = CopyGofInfoVP9 dst src) ->
  CopyCodecSpecific f header = Some f' ->
  CopyCodecSpecific f' header = Some f'.
Proof.
  intros Hgof. unfold CopyCodecSpecific.
  destruct header as [header |]; [| intros _; reflexivity].
  destruct (codec header).
  - intros E; injection E as <-. destruct f; reflexivity.
  - destruct (video_type_header header) as [| v | v | n]; try discriminate.
    intros E; injection E as <-. f_equal. unfold CopyVP8.
    cbn [_codecSpecificInfo set_codecSpecificInfo codecType codecSpecific
         view_VP8].
    assert (Htype :
              (if negb (VideoCodecType_eqb (codecType (_codecSpecificInfo f))
                                           kVideoCodecVP8)
               then kVideoCodecVP8 else codecType (_codecSpecificInfo f))
              = kVideoCodecVP8).
    { destruct (VideoCodecType_eqb _ kVideoCodecVP8) eqn:E;
        [apply VideoCodecType_eqb_eq in E; exact E | reflexivity]. }
    rewrite Htype. cbn [VideoCodecType_eqb negb].
    destruct (negb (VideoCodecType_eqb _ kVideoCodecVP8));
      destruct (negb (_ =? kNoTemporalIdx));
      destruct (negb (_ =? kNoKeyIdx));
      destruct f; reflexivity.
  - destruct (video_type_header header) as [| v | v | n]; try discriminate.
    apply CopyVP9_idem. exact Hgof.
  - intros E; injection E as <-. f_equal. unfold CopyH264.
    cbn [_codecSpecificInfo set_codecSpecificInfo codecType codecSpecific
         view_H264].
    destruct (negb (_ =? kNoTemporalIdx)); destruct f; reflexivity.
  - intros E; injection E as <-. destruct f; reflexivity.
Qed.

(** ** The buffer *)

Lemma VerifyAndAllocate_capacity (f : VCMEncodedFrame) (minimumSize : nat) :
  (forall b n, capacity (Allocate b n) = n) ->
  capacity (encoded_data_ (VerifyAndAllocate f minimumSize))
  = Nat.max (capacity (encoded_data_ f)) minimumSize.
Proof.
  intros Hcap. unfold VerifyAndAllocate.
  destruct (Nat.ltb_spec (capacity (encoded_data_ f)) minimumSize).
  - cbn [encoded_data_ set_encoded_data]. rewrite Hcap. lia.
  - lia.
Qed.

(** X18.  The capacity never shrinks.  Provided [Allocate] gives the buffer the
    capacity it is asked for: after any sequence of calls of
    [VerifyAndAllocate] the capacity is the largest of the capacity
    before and the sizes asked for; and when none of the sizes exceeds
    the capacity before, the frame is untouched ([Allocate] is not
    called). *)
Theorem VerifyAndAllocate_capacity_is_largest (f : VCMEncodedFrame)
    (sizes : list nat) :
  (forall b n, capacity (Allocate b n) = n) ->
  capacity (encoded_data_ (VerifyAndAllocates f sizes))
  = fold_left Nat.max sizes (capacity (encoded_data_ f))
  /\ (Forall (fun n => (n <= capacity (encoded_data_ f))%nat) sizes ->
      VerifyAndAllocates f sizes = f).
Proof.
  intros Hcap. unfold VerifyAndAllocates. split.
  - revert f. induction sizes as [| n sizes IH]; intros f; [reflexivity |].
    cbn [fold_left]. rewrite IH, VerifyAndAllocate_capacity by exact Hcap.
    reflexivity.
  - revert f. induction sizes as [| n sizes IH]; intros f Hall;
      [reflexivity |].
    inversion Hall as [| ? ? Hn Hall']; subst. cbn [fold_left].
    assert (E : VerifyAndAllocate f n = f).
    { unfold VerifyAndAllocate.
      destruct (Nat.ltb_spec (capacity (encoded_data_ f)) n); [lia |].
      reflexivity. }
    rewrite E. apply IH. exact Hall'.
Qed.

(** ** The packets of a frame *)

Lemma find_app {A} (p : A -> bool) (l1 l2 : list A) :
  find p (l1 ++ l2)
  = match find p l1 with Some x => Some x | None => find p l2 end.
Proof.
  induction l1 as [| a l1 IH]; [reflexivity |].
  cbn. destruct (p a); [reflexivity | exact IH].
Qed.

Lemma last_present_cons {V} (absent : Z) (get : V -> Z) (v : V)
    (vs : list V) :
  last_present absent get (v :: vs)
  = match last_present absent get vs with
    | Some x => Some x
    | None => if negb (get v =? absent) then Some v else None
    end.
Proof. unfold last_present. cbn [rev]. rewrite find_app. reflexivity. Qed.

Lemma last_cons {A} (l : list A) :
  forall a d : A, last (a :: l) d = last l a.
Proof.
  induction l as [| b l IH]; intros a d; [reflexivity |].
  change (last (a :: b :: l) d) with (last (b :: l) d).
  rewrite (IH b d), (IH b a). reflexivity.
Qed.

(** The codec specific information after a VP8 packet, member by
    member. *)
Lemma CopyVP8_info (f : VCMEncodedFrame) (v : RTPVideoHeaderVP8.t) :
  let info := _codecSpecificInfo f in
  let old := view_VP8 (codecSpecific info) in
  let first_packet :=
    negb (VideoCodecType_eqb (codecType info) kVideoCodecVP8) in
  _codecSpecificInfo (CopyVP8 f v)
  = {| codecType := kVideoCodecVP8;
       codecSpecific :=
         VP8
           {| CodecSpecificInfoVP8.nonReference :=
                RTPVideoHeaderVP8.nonReference v;
              CodecSpecificInfoVP8.temporalIdx :=
                if negb (RTPVideoHeaderVP8.temporalIdx v =? kNoTemporalIdx)
                then RTPVideoHeaderVP8.temporalIdx v
                else if first_packet then 0
                     else CodecSpecificInfoVP8.temporalIdx old;
              CodecSpecificInfoVP8.layerSync :=
                if negb (RTPVideoHeaderVP8.temporalIdx v =? kNoTemporalIdx)
                then RTPVideoHeaderVP8.layerSync v
                else if first_packet then false
                     else CodecSpecificInfoVP8.layerSync old;
              CodecSpecificInfoVP8.keyIdx :=
                if negb (RTPVideoHeaderVP8.keyIdx v =? kNoKeyIdx)
                then RTPVideoHeaderVP8.keyIdx v
                else if first_packet then -1
                     else CodecSpecificInfoVP8.keyIdx old |} |}.
Proof.
  cbv zeta. unfold CopyVP8. cbn [_codecSpecificInfo set_codecSpecificInfo].
  destruct (VideoCodecType_eqb _ kVideoCodecVP8) eqn:E;
    [apply VideoCodecType_eqb_eq in E; rewrite E |];
    cbn [negb];
    destruct (negb (_ =? kNoTemporalIdx)), (negb (_ =? kNoKeyIdx));
    reflexivity.
Qed.

Lemma VP8_packets_from (vs : list RTPVideoHeaderVP8.t) :
  forall (headers : list RTPVideoHeader) (f : VCMEncodedFrame)
         (x : CodecSpecificInfoVP8.t),
    packets_of kVideoCodecVP8 HeaderVP8 headers vs ->
    _codecSpecificInfo f
    = {| codecType := kVideoCodecVP8; codecSpecific := VP8 x |} ->
    exists f',
      CopyCodecSpecifics f headers = Some f'
      /\ _codecSpecificInfo f'
         = {| codecType := kVideoCodecVP8;
              codecSpecific :=
                VP8
                  {| CodecSpecificInfoVP8.nonReference :=
                       match vs with
                       | [] => CodecSpecificInfoVP8.nonReference x
                       | v :: vs' =>
                           RTPVideoHeaderVP8.nonReference (last vs' v)
                       end;
                     CodecSpecificInfoVP8.temporalIdx :=
                       match last_present kNoTemporalIdx
                               RTPVideoHeaderVP8.temporalIdx vs with
                       | Some v => RTPVideoHeaderVP8.temporalIdx v
                       | None => CodecSpecificInfoVP8.temporalIdx x
                       end;
                     CodecSpecificInfoVP8.layerSync :=
                       match last_present kNoTemporalIdx
                               RTPVideoHeaderVP8.temporalIdx vs with
                       | Some v => RTPVideoHeaderVP8.layerSync v
                       | None => CodecSpecificInfoVP8.layerSync x
                       end;
                     CodecSpecificInfoVP8.keyIdx :=
                       match last_present kNoKeyIdx
                               RTPVideoHeaderVP8.keyIdx vs with
                       | Some v => RTPVideoHeaderVP8.keyIdx v
                       | None => CodecSpecificInfoVP8.keyIdx x
                       end |} |}.
Proof.
  induction vs as [| v vs IH]; intros headers f x Hp Hinfo.
  - inversion Hp; subst. exists f. split; [reflexivity |].
    rewrite Hinfo. destruct x; reflexivity.
  - inversion Hp as [| header ? headers' ? [Hc Hv] Hp']; subst.
    cbn [CopyCodecSpecifics]. unfold CopyCodecSpecific at 1.
    rewrite Hc, Hv.
    destruct (IH headers' (CopyVP8 f v) _ Hp' (CopyVP8_info f v))
      as (f' & Hrun & Hf').
    exists f'. split; [exact Hrun |]. rewrite Hf'. clear Hrun Hf' IH.
    rewrite Hinfo.
    cbn [codecType codecSpecific view_VP8 VideoCodecType_eqb negb
         CodecSpecificInfoVP8.nonReference CodecSpecificInfoVP8.temporalIdx
         CodecSpecificInfoVP8.layerSync CodecSpecificInfoVP8.keyIdx].
    rewrite !(last_present_cons _ _ v vs).
    assert (Hlast :
              match vs with
              | [] => RTPVideoHeaderVP8.nonReference v
              | v0 :: vs' => RTPVideoHeaderVP8.nonReference (last vs' v0)
              end = RTPVideoHeaderVP8.nonReference (last vs v))
      by (destruct vs; [reflexivity | rewrite last_cons; reflexivity]).
    rewrite Hlast.
    destruct (last_present kNoTemporalIdx RTPVideoHeaderVP8.temporalIdx vs),
      (last_present kNoKeyIdx RTPVideoHeaderVP8.keyIdx vs),
      (negb (RTPVideoHeaderVP8.temporalIdx v =? kNoTemporalIdx)),
      (negb (RTPVideoHeaderVP8.keyIdx v =? kNoKeyIdx));
      reflexivity.
Qed.

(** X19.  A frame gathers the VP8 indices of its packets.  From a frame whose
    codec type is not VP8 (a frame after [Reset], for one), after the
    packets of a VP8 frame, in any number: the codec type is VP8;
    [nonReference] is that of the last packet; [temporalIdx] and
    [layerSync] are those of the last packet whose [temporalIdx] is not
    [kNoTemporalIdx], and 0 and false when no packet carries one;
    [keyIdx] is that of the last packet whose [keyIdx] is not
    [kNoKeyIdx], and -1 when no packet carries one.  Nothing of the state
    before the first packet is left in these members. *)
Theorem VP8_frame_gathers_indices (f : VCMEncodedFrame)
    (headers : list RTPVideoHeader) (v : RTPVideoHeaderVP8.t)
    (vs : list RTPVideoHeaderVP8.t) :
  codecType (_codecSpecificInfo f) <> kVideoCodecVP8 ->
  packets_of kVideoCodecVP8 HeaderVP8 headers (v :: vs) ->
  exists f',
    CopyCodecSpecifics f headers = Some f'
    /\ _codecSpecificInfo f'
       = {| codecType := kVideoCodecVP8;
            codecSpecific :=
              VP8
                {| CodecSpecificInfoVP8.nonReference :=
                     RTPVideoHeaderVP8.nonReference (last vs v);
                   CodecSpecificInfoVP8.temporalIdx :=
                     match last_present kNoTemporalIdx
                             RTPVideoHeaderVP8.temporalIdx (v :: vs) with
                     | Some v' => RTPVideoHeaderVP8.temporalIdx v'
                     | None => 0
                     end;
                   CodecSpecificInfoVP8.layerSync :=
                     match last_present kNoTemporalIdx
                             RTPVideoHeaderVP8.temporalIdx (v :: vs) with
                     | Some v' => RTPVideoHeaderVP8.layerSync v'
                     | None => false
                     end;
                   CodecSpecificInfoVP8.keyIdx :=
                     match last_present kNoKeyIdx
                             RTPVideoHeaderVP8.keyIdx (v :: vs) with
                     | Some v' => RTPVideoHeaderVP8.keyIdx v'
                     | None => -1
                     end |} |}.
Proof.
  intros Hfirst Hp.
  inversion Hp as [| header ? headers' ? [Hc Hv] Hp']; subst.
  cbn [CopyCodecSpecifics]. unfold CopyCodecSpecific at 1. rewrite Hc, Hv.
  destruct (VP8_packets_from vs headers' (CopyVP8 f v) _ Hp'
              (CopyVP8_info f v))
    as (f' & Hrun & Hf').
  exists f'. split; [exact Hrun |]. rewrite Hf'. clear Hrun Hf'.
  apply VideoCodecType_eqb_neq in Hfirst. rewrite Hfirst.
  cbn [negb CodecSpecificInfoVP8.nonReference
       CodecSpecificInfoVP8.temporalIdx CodecSpecificInfoVP8.layerSync
       CodecSpecificInfoVP8.keyIdx].
  rewrite !(last_present_cons _ _ v vs).
  assert (Hlast :
            match vs with
            | [] => RTPVideoHeaderVP8.nonReference v
            | v0 :: vs' => RTPVideoHeaderVP8.nonReference (last vs' v0)
            end = RTPVideoHeaderVP8.nonReference (last vs v))
    by (destruct vs; [reflexivity | rewrite last_cons; reflexivity]).
  rewrite Hlast.
  destruct (last_present kNoTemporalIdx RTPVideoHeaderVP8.temporalIdx vs),
    (last_present kNoKeyIdx RTPVideoHeaderVP8.keyIdx vs),
    (negb (RTPVideoHeaderVP8.temporalIdx v =? kNoTemporalIdx)),
    (negb (RTPVideoHeaderVP8.keyIdx v =? kNoKeyIdx));
    reflexivity.
Qed.

(** X20.  [Reset] makes the next VP8 frame forget the previous one.  Two
    frames, whatever they held, after [Reset] and the same packets of a
    VP8 frame hold the same codec specific information: the codec type
    and the members [nonReference], [temporalIdx], [layerSync] and
    [keyIdx]. *)
Theorem Reset_forgets_VP8_indices (f1 f2 : VCMEncodedFrame)
    (headers : list RTPVideoHeader) (v : RTPVideoHeaderVP8.t)
    (vs : list RTPVideoHeaderVP8.t) :
  packets_of kVideoCodecVP8 HeaderVP8 headers (v :: vs) ->
  exists f1' f2',
    CopyCodecSpecifics (Reset f1) headers = Some f1'
    /\ CopyCodecSpecifics (Reset f2) headers = Some f2'
    /\ _codecSpecificInfo f1' = _codecSpecificInfo f2'.
Proof.
  intros Hp.
  inversion Hp as [| header ? headers' ? [Hc Hv] Hp']; subst.
  cbn [CopyCodecSpecifics]. unfold CopyCodecSpecific. rewrite Hc, Hv.
  destruct (VP8_packets_from vs headers' (CopyVP8 (Reset f1) v) _ Hp'
              (CopyVP8_info (Reset f1) v))
    as (f1' & Hrun1 & Hinfo1).
  destruct (VP8_packets_from vs headers' (CopyVP8 (Reset f2) v) _ Hp'
              (CopyVP8_info (Reset f2) v))
    as (f2' & Hrun2 & Hinfo2).
  exists f1', f2'. split; [exact Hrun1 |]. split; [exact Hrun2 |].
  rewrite Hinfo1, Hinfo2. reflexivity.
Qed.

Lemma VP9_packets_from (vs : list RTPVideoHeaderVP9.t) :
  forall (headers : list RTPVideoHeader) (f f' : VCMEncodedFrame)
         (x : CodecSpecificInfoVP9.t),
    packets_of kVideoCodecVP9 HeaderVP9 headers vs ->
    _codecSpecificInfo f
    = {| codecType := kVideoCodecVP9; codecSpecific := VP9 x |} ->
    CopyCodecSpecifics f headers = Some f' ->
    exists x',
      _codecSpecificInfo f'
      = {| codecType := kVideoCodecVP9; codecSpecific := VP9 x' |}
      /\ CodecSpecificInfoVP9.temporal_idx x'
         = match last_present kNoTemporalIdx
                   RTPVideoHeaderVP9.temporal_idx vs with
           | Some v => RTPVideoHeaderVP9.temporal_idx v
           | None => CodecSpecificInfoVP9.temporal_idx x
           end
      /\ CodecSpecificInfoVP9.temporal_up_switch x'
         = match last_present kNoTemporalIdx
                   RTPVideoHeaderVP9.temporal_idx vs with
           | Some v => RTPVideoHeaderVP9.temporal_up_switch v
           | None => CodecSpecificInfoVP9.temporal_up_switch x
           end
      /\ CodecSpecificInfoVP9.gof_idx x'
         = match last_present kNoGofIdx RTPVideoHeaderVP9.gof_idx vs with
           | Some v => RTPVideoHeaderVP9.gof_idx v
           | None => CodecSpecificInfoVP9.gof_idx x
           end
      /\ CodecSpecificInfoVP9.inter_layer_predicted x'
         = match last_present kNoSpatialIdx
                   RTPVideoHeaderVP9.spatial_idx vs with
           | Some v => RTPVideoHeaderVP9.inter_layer_predicted v
           | None => CodecSpecificInfoVP9.inter_layer_predicted x
           end
      /\ spatial_index_ f'
         = match last_present kNoSpatialIdx
                   RTPVideoHeaderVP9.spatial_idx vs with
           | Some v => Some (RTPVideoHeaderVP9.spatial_idx v)
           | None => spatial_index_ f
           end.
Proof.
  induction vs as [| v vs IH]; intros headers f f' x Hp Hinfo Hrun.
  - inversion Hp; subst. injection Hrun as <-. exists x.
    repeat split; try reflexivity. exact Hinfo.
  - inversion Hp as [| header ? headers' ? [Hc Hv] Hp']; subst.
    cbn [CopyCodecSpecifics] in Hrun. unfold CopyCodecSpecific at 1 in Hrun.
    rewrite Hc, Hv in Hrun.
    destruct (CopyVP9 f v) as [f1 |] eqn:E1; [| discriminate].
    destruct (CopyVP9_inv _ _ _ E1) as (p & w & h & _ & _ & Hf1).
    rewrite Hinfo in Hf1.
    cbn [codecType codecSpecific view_VP9 VideoCodecType_eqb negb] in Hf1.
    assert (Hinfo1 : exists x1,
               _codecSpecificInfo f1
               = {| codecType := kVideoCodecVP9; codecSpecific := VP9 x1 |}
               /\ CodecSpecificInfoVP9.temporal_idx x1
                  = (if negb (RTPVideoHeaderVP9.temporal_idx v
                              =? kNoTemporalIdx)
                     then RTPVideoHeaderVP9.temporal_idx v
                     else CodecSpecificInfoVP9.temporal_idx x)
               /\ CodecSpecificInfoVP9.temporal_up_switch x1
                  = (if negb (RTPVideoHeaderVP9.temporal_idx v
                              =? kNoTemporalIdx)
                     then RTPVideoHeaderVP9.temporal_up_switch v
                     else CodecSpecificInfoVP9.temporal_up_switch x)
               /\ CodecSpecificInfoVP9.gof_idx x1
                  = (if negb (RTPVideoHeaderVP9.gof_idx v =? kNoGofIdx)
                     then RTPVideoHeaderVP9.gof_idx v
                     else CodecSpecificInfoVP9.gof_idx x)
               /\ CodecSpecificInfoVP9.inter_layer_predicted x1
                  = (if negb (RTPVideoHeaderVP9.spatial_idx v
                              =? kNoSpatialIdx)
                     then RTPVideoHeaderVP9.inter_layer_predicted v
                     else CodecSpecificInfoVP9.inter_layer_predicted x)
               /\ spatial_index_ f1
                  = (if negb (RTPVideoHeaderVP9.spatial_idx v
                              =? kNoSpatialIdx)
                     then Some (RTPVideoHeaderVP9.spatial_idx v)
                     else spatial_index_ f)).
    { rewrite Hf1. eexists. split; [reflexivity |].
      repeat split; try reflexivity.
      destruct (negb (RTPVideoHeaderVP9.spatial_idx v =? kNoSpatialIdx));
        reflexivity. }
    clear Hf1 E1.
    destruct Hinfo1 as (x1 & Hinfo1 & Ht & Hu & Hg & Hl & Hs).
    destruct (IH headers' f1 f' x1 Hp' Hinfo1 Hrun)
      as (x' & Hinfo' & Ht' & Hu' & Hg' & Hl' & Hs').
    exists x'. split; [exact Hinfo' |].
    rewrite !(last_present_cons _ _ v vs).
    rewrite Ht', Hu', Hg', Hl', Hs', Ht, Hu, Hg, Hl, Hs.
    destruct (last_present kNoTemporalIdx RTPVideoHeaderVP9.temporal_idx vs),
      (last_present kNoGofIdx RTPVideoHeaderVP9.gof_idx vs),
      (last_present kNoSpatialIdx RTPVideoHeaderVP9.spatial_idx vs),
      (negb (RTPVideoHeaderVP9.temporal_idx v =? kNoTemporalIdx)),
      (negb (RTPVideoHeaderVP9.gof_idx v =? kNoGofIdx)),
      (negb (RTPVideoHeaderVP9.spatial_idx v =? kNoSpatialIdx));
      repeat split; reflexivity.
Qed.

(** X21.  A frame gathers the VP9 indices of its packets.  From a frame whose
    codec type is not VP9, after the packets of a VP9 frame on which
    every call returned: [temporal_idx] is that of the last packet whose
    [temporal_idx] is not [kNoTemporalIdx], and 0 when there is none;
    [gof_idx] is that of the last packet whose [gof_idx] is not
    [kNoGofIdx], and 0 when there is none; [inter_layer_predicted] and
    the spatial index of the frame are those of the last packet whose
    [spatial_idx] is not [kNoSpatialIdx], and when there is none
    [inter_layer_predicted] is false and the spatial index is the one the
    frame had.  [temporal_up_switch] has no initial value: when no
    packet carries a [temporal_idx] it is what the union read as before
    the first packet. *)
Theorem VP9_frame_gathers_indices (f f' : VCMEncodedFrame)
    (headers : list RTPVideoHeader) (v : RTPVideoHeaderVP9.t)
    (vs : list RTPVideoHeaderVP9.t) :
  codecType (_codecSpecificInfo f) <> kVideoCodecVP9 ->
  packets_of kVideoCodecVP9 HeaderVP9 headers (v :: vs) ->
  CopyCodecSpecifics f headers = Some f' ->
  exists vp9,
    _codecSpecificInfo f'
    = {| codecType := kVideoCodecVP9; codecSpecific := VP9 vp9 |}
    /\ CodecSpecificInfoVP9.temporal_idx vp9
       = match last_present kNoTemporalIdx
                 RTPVideoHeaderVP9.temporal_idx (v :: vs) with
         | Some v' => RTPVideoHeaderVP9.temporal_idx v'
         | None => 0
         end
    /\ CodecSpecificInfoVP9.temporal_up_switch vp9
       = match last_present kNoTemporalIdx
                 RTPVideoHeaderVP9.temporal_idx (v :: vs) with
         | Some v' => RTPVideoHeaderVP9.temporal_up_switch v'
         | None =>
             CodecSpecificInfoVP9.temporal_up_switch
               (view_VP9 (codecSpecific (_codecSpecificInfo f)))
         end
    /\ CodecSpecificInfoVP9.gof_idx vp9
       = match last_present kNoGofIdx RTPVideoHeaderVP9.gof_idx (v :: vs) with
         | Some v' => RTPVideoHeaderVP9.gof_idx v'
         | None => 0
         end
    /\ CodecSpecificInfoVP9.inter_layer_predicted vp9
       = match last_present kNoSpatialIdx
                 RTPVideoHeaderVP9.spatial_idx (v :: vs) with
         | Some v' => RTPVideoHeaderVP9.inter_layer_predicted v'
         | None => false
         end
    /\ spatial_index_ f'
       = match last_present kNoSpatialIdx
                 RTPVideoHeaderVP9.spatial_idx (v :: vs) with
         | Some v' => Some (RTPVideoHeaderVP9.spatial_idx v')
         | None => spatial_index_ f
         end.
Proof.
  intros Hfirst Hp Hrun.
  inversion Hp as [| header ? headers' ? [Hc Hv] Hp']; subst.
  cbn [CopyCodecSpecifics] in Hrun. unfold CopyCodecSpecific at 1 in Hrun.
  rewrite Hc, Hv in Hrun.
  destruct (CopyVP9 f v) as [f1 |] eqn:E1; [| discriminate].
  destruct (CopyVP9_inv _ _ _ E1) as (p & w & h & _ & _ & Hf1).
  apply VideoCodecType_eqb_neq in Hfirst. rewrite Hfirst in Hf1.
  cbn [negb] in Hf1.
  assert (Hs1 : spatial_index_ f1
                = (if negb (RTPVideoHeaderVP9.spatial_idx v =? kNoSpatialIdx)
                   then Some (RTPVideoHeaderVP9.spatial_idx v)
                   else spatial_index_ f)).
  { rewrite Hf1.
    destruct (negb (RTPVideoHeaderVP9.spatial_idx v =? kNoSpatialIdx));
      reflexivity. }
  destruct (VP9_packets_from vs headers' f1 f' _ Hp'
              ltac:(rewrite Hf1; reflexivity) Hrun)
    as (x' & Hinfo' & Ht' & Hu' & Hg' & Hl' & Hs').
  exists x'. split; [exact Hinfo' |].
  rewrite !(last_present_cons _ _ v vs).
  rewrite Ht', Hu', Hg', Hl', Hs', Hs1.
  cbn [CodecSpecificInfoVP9.temporal_idx
       CodecSpecificInfoVP9.temporal_up_switch CodecSpecificInfoVP9.gof_idx
       CodecSpecificInfoVP9.inter_layer_predicted].
  destruct (last_present kNoTemporalIdx RTPVideoHeaderVP9.temporal_idx vs),
    (last_present kNoGofIdx RTPVideoHeaderVP9.gof_idx vs),
    (last_present kNoSpatialIdx RTPVideoHeaderVP9.spatial_idx vs),
    (negb (RTPVideoHeaderVP9.temporal_idx v =? kNoTemporalIdx)),
    (negb (RTPVideoHeaderVP9.gof_idx v =? kNoGofIdx)),
    (negb (RTPVideoHeaderVP9.spatial_idx v =? kNoSpatialIdx));
    repeat split; reflexivity.
Qed.

End EncodedFrameProperties.

(** ** The properties of the encoded frame on concrete frames *)

Section FrameRuns.
Import EncodedFrame.
#[local] Existing Instance Frames.reference_gof.
#[local] Existing Instance Frames.reference_declarations.

Lemma CopyCodecSpecific_touches_codec_info_only_witness :
  let header := Some (Frames.vp9_packet Frames.first_vp9_header) in
  let f' :=
    Frames.frame_after Frames.used_frame
      (CopyCodecSpecific (Reset Frames.used_frame) header) in
  same_outside_codec_info (Reset Frames.used_frame) f'
  /\ codecType (_codecSpecificInfo f') = kVideoCodecVP9
  /\ spatial_index_ f' = Some 1.
Proof.
  cbv zeta.
  destruct (CopyCodecSpecific_touches_codec_info_only
              (G := Frames.reference_gof) (D := Frames.reference_declarations)
              (Reset Frames.used_frame)
              (Frames.frame_after Frames.used_frame
                 (CopyCodecSpecific (Reset Frames.used_frame)
                    (Some (Frames.vp9_packet Frames.first_vp9_header))))
              (Some (Frames.vp9_packet Frames.first_vp9_header))
              ltac:(vm_compute; reflexivity))
    as (Hsame & Htype & Hspatial & _).
  split; [exact Hsame | split; [exact Htype | exact Hspatial]].
Defined.

Lemma CopyCodecSpecific_returns_iff_witness :
  (exists f',
      CopyCodecSpecific Frames.used_frame
        (Some (Frames.vp9_packet Frames.first_vp9_header)) = Some f')
  /\ ~ (exists f',
           CopyCodecSpecific Frames.used_frame
             (Some Frames.mismatched_packet) = Some f').
Proof.
  split.
  - apply (proj2 (CopyCodecSpecific_returns_iff
                    (G := Frames.reference_gof)
                    (D := Frames.reference_declarations)
                    Frames.used_frame
                    (Some (Frames.vp9_packet Frames.first_vp9_header)))).
    exists Frames.first_vp9_header. split; [reflexivity |].
    split; [right; cbn; lia |]. intros _ _. right. cbn. lia.
  - intros Hr.
    apply (proj1 (CopyCodecSpecific_returns_iff
                    (G := Frames.reference_gof)
                    (D := Frames.reference_declarations)
                    Frames.used_frame (Some Frames.mismatched_packet)))
      in Hr.
    destruct Hr as [v Hv]. discriminate Hv.
Defined.

Lemma H264_temporal_idx_is_temporal_id_witness :
  exists f',
    CopyCodecSpecific Frames.used_frame (Some Frames.h264_packet) = Some f'
    /\ _codecSpecificInfo f'
       = {| codecType := kVideoCodecH264;
            codecSpecific :=
              H264 {| CodecSpecificInfoH264.temporal_idx := 1;
                      CodecSpecificInfoH264.base_layer_sync := true;
                      CodecSpecificInfoH264.idr_frame := false |} |}.
Proof.
  exact (H264_temporal_idx_is_temporal_id
           (G := Frames.reference_gof) (D := Frames.reference_declarations)
           Frames.used_frame Frames.h264_packet ltac:(vm_compute; reflexivity)).
Defined.

Lemma VP9_arrays_copied_up_to_count_witness :
  exists vp9,
    codecSpecific
      (_codecSpecificInfo
         (Frames.frame_after Frames.used_frame
            (CopyCodecSpecific Frames.used_frame
               (Some (Frames.vp9_packet Frames.first_vp9_header)))))
    = VP9 vp9
    /\ CodecSpecificInfoVP9.num_ref_pics vp9 = 2%nat
    /\ nth_error (CodecSpecificInfoVP9.p_diff vp9) 1 = Some 2
    /\ nth_error (CodecSpecificInfoVP9.p_diff vp9) 2 = Some 6
    /\ nth_error (CodecSpecificInfoVP9.width vp9) 0 = Some 320
    /\ nth_error (CodecSpecificInfoVP9.width vp9) 1 = Some 1280.
Proof.
  destruct (VP9_arrays_copied_up_to_count
              (G := Frames.reference_gof) (D := Frames.reference_declarations)
              Frames.used_frame
              (Frames.frame_after Frames.used_frame
                 (CopyCodecSpecific Frames.used_frame
                    (Some (Frames.vp9_packet Frames.first_vp9_header))))
              (Frames.vp9_packet Frames.first_vp9_header)
              Frames.first_vp9_header
              ltac:(vm_compute; reflexivity) ltac:(vm_compute; reflexivity) ltac:(vm_compute; reflexivity))
    as (vp9 & Hv & Hn & Hp & Hw & _).
  exists vp9. split; [exact Hv |]. split; [exact Hn |].
  split; [exact (Hp 1%nat) |]. split; [exact (Hp 2%nat) |].
  split; [exact (Hw 0%nat) | exact (Hw 1%nat)].
Defined.

Lemma CopyCodecSpecific_twice_witness :
  let header := Some (Frames.vp9_packet Frames.first_vp9_header) in
  let f' :=
    Frames.frame_after Frames.used_frame
      (CopyCodecSpecific (Reset Frames.used_frame) header) in
  CopyCodecSpecific f' header = Some f'.
Proof.
  exact (CopyCodecSpecific_twice
           (G := Frames.reference_gof) (D := Frames.reference_declarations)
           (Reset Frames.used_frame)
           (Frames.frame_after Frames.used_frame
              (CopyCodecSpecific (Reset Frames.used_frame)
                 (Some (Frames.vp9_packet Frames.first_vp9_header))))
           (Some (Frames.vp9_packet Frames.first_vp9_header))
           (fun dst src => eq_refl) ltac:(vm_compute; reflexivity)).
Defined.

Lemma VerifyAndAllocate_capacity_is_largest_witness :
  capacity (encoded_data_
              (VerifyAndAllocates Frames.used_frame
                                  [10; 20; 18]%nat)) = 20%nat
  /\ VerifyAndAllocates Frames.used_frame [10; 15]%nat
     = Frames.used_frame.
Proof.
  split.
  - exact (proj1 (VerifyAndAllocate_capacity_is_largest
                    (G := Frames.reference_gof)
                    (D := Frames.reference_declarations)
                    Frames.used_frame [10; 20; 18]%nat
                    (fun b n => eq_refl))).
  - apply (proj2 (VerifyAndAllocate_capacity_is_largest
                    (G := Frames.reference_gof)
                    (D := Frames.reference_declarations)
                    Frames.used_frame [10; 15]%nat
                    (fun b n => eq_refl))).
    constructor; [cbn; lia | constructor; [cbn; lia | constructor]].
Defined.

Lemma VP8_frame_gathers_indices_witness :
  exists f',
    CopyCodecSpecifics (Reset Frames.used_frame) Frames.vp8_packets = Some f'
    /\ _codecSpecificInfo f'
       = {| codecType := kVideoCodecVP8;
            codecSpecific :=
              VP8 {| CodecSpecificInfoVP8.nonReference := true;
                     CodecSpecificInfoVP8.temporalIdx := 2;
                     CodecSpecificInfoVP8.layerSync := true;
                     CodecSpecificInfoVP8.keyIdx := 5 |} |}.
Proof.
  apply (VP8_frame_gathers_indices
           (G := Frames.reference_gof) (D := Frames.reference_declarations)
           (Reset Frames.used_frame) Frames.vp8_packets
           Frames.first_vp8_header (tl Frames.vp8_headers)).
  - discriminate.
  - repeat constructor.
Defined.

Lemma Reset_forgets_VP8_indices_witness :
  exists f1' f2',
    CopyCodecSpecifics (Reset Frames.used_frame) Frames.vp8_packets
    = Some f1'
    /\ CopyCodecSpecifics
         (Reset (Frames.frame_after Frames.used_frame
                   (CopyCodecSpecific Frames.used_frame
                      (Some Frames.h264_packet))))
         Frames.vp8_packets
       = Some f2'
    /\ _codecSpecificInfo f1' = _codecSpecificInfo f2'.
Proof.
  apply (Reset_forgets_VP8_indices
           (G := Frames.reference_gof) (D := Frames.reference_declarations)
           Frames.used_frame
           (Frames.frame_after Frames.used_frame
              (CopyCodecSpecific Frames.used_frame
                 (Some Frames.h264_packet)))
           Frames.vp8_packets Frames.first_vp8_header
           (tl Frames.vp8_headers)).
  repeat constructor.
Defined.

Lemma VP9_frame_gathers_indices_witness :
  let f' :=
    Frames.frame_after Frames.used_frame
      (CopyCodecSpecifics (Reset Frames.used_frame) Frames.vp9_packets) in
  exists vp9,
    _codecSpecificInfo f'
    = {| codecType := kVideoCodecVP9; codecSpecific := VP9 vp9 |}
    /\ CodecSpecificInfoVP9.temporal_idx vp9 = 1
    /\ CodecSpecificInfoVP9.temporal_up_switch vp9 = false
    /\ CodecSpecificInfoVP9.gof_idx vp9 = 0
    /\ CodecSpecificInfoVP9.inter_layer_predicted vp9 = true
    /\ spatial_index_ f' = Some 1.
Proof.
  exact (VP9_frame_gathers_indices
           (G := Frames.reference_gof) (D := Frames.reference_declarations)
           (Reset Frames.used_frame)
           (Frames.frame_after Frames.used_frame
              (CopyCodecSpecifics (Reset Frames.used_frame)
                                  Frames.vp9_packets))
           Frames.vp9_packets Frames.first_vp9_header (tl Frames.vp9_headers)
           ltac:(discriminate) ltac:(repeat constructor) ltac:(vm_compute; reflexivity)).
Defined.

End FrameRuns.
